(** * datacube_stats: task generation and output drivers

    A shallow embedding of [datacube_stats/output_drivers.py] and
    [datacube_stats/tasks.py].  Python objects are records, dictionaries
    that are iterated are association lists in insertion order, the file
    system and the table of open file handles are an explicit world that
    is threaded through every call, and exceptions are values of [exn]. *)

From Stdlib Require Import ZArith List String Ascii Bool Lia.
From stdpp Require Import base option list sorting gmap sets strings.

Local Open Scope string_scope.
Local Open Scope list_scope.

(** ** Python strings *)

Module PyStr.

(** [old] is a prefix of [s]: [s.startswith(old)]. *)
Fixpoint startswith (old s : string) : bool :=
  match old, s with
  | EmptyString, _ => true
  | String a old', String b s' => if Ascii.eqb a b then startswith old' s' else false
  | String _ _, EmptyString => false
  end.

(** [s.replace(old, '')]: occurrences are removed left to right and do
    not overlap; [skip] counts the characters of the current occurrence
    that are still to be dropped. *)
Fixpoint remove_from (old : string) (skip : nat) (s : string) : string :=
  match s with
  | EmptyString => EmptyString
  | String c s' =>
      match skip with
      | S k => remove_from old k s'
      | O => if startswith old s
             then remove_from old (String.length old - 1) s'
             else String c (remove_from old 0 s')
      end
  end.

Definition replace_with_empty (s old : string) : string :=
  match old with
  | EmptyString => s
  | _ => remove_from old 0 s
  end.

(** [s[:-n]] for [n > 0]. *)
Fixpoint take (n : nat) (s : string) : string :=
  match n, s with
  | S k, String c s' => String c (take k s')
  | _, _ => EmptyString
  end.

Definition drop_last (n : nat) (s : string) : string :=
  take (String.length s - n) s.

(** Split at the last occurrence of [c]: [s.rpartition(c)] without the
    separator, [None] when [c] does not occur. *)
Fixpoint rsplit (c : ascii) (s : string) : option (string * string) :=
  match s with
  | EmptyString => None
  | String a s' =>
      match rsplit c s' with
      | Some (b, t) => Some (String a b, t)
      | None => if Ascii.eqb a c then Some (EmptyString, s') else None
      end
  end.

Fixpoint occurs (c : ascii) (s : string) : bool :=
  match s with
  | EmptyString => false
  | String a s' => Ascii.eqb a c || occurs c s'
  end.

(** [sub in s] *)
Fixpoint contains (sub s : string) : bool :=
  startswith sub s ||
  match s with
  | EmptyString => false
  | String _ s' => contains sub s'
  end.

Definition is_empty (s : string) : bool :=
  match s with EmptyString => true | _ => false end.

(** The last character, [s[-1]]. *)
Fixpoint last_char (s : string) : option ascii :=
  match s with
  | EmptyString => None
  | String a EmptyString => Some a
  | String _ s' => last_char s'
  end.

End PyStr.

(** ** The driver registry ([RegisterDriver], [OUTPUT_DRIVERS]) *)

Module Registry.

(** The classes that the module defines with the [RegisterDriver]
    metaclass, in the order of their [class] statements. *)
Inductive DriverClass :=
| OutputDriver
| NetCDFCFOutputDriver
| GeotiffOutputDriver
| ENVIBILOutputDriver
| TestOutputDriver
| XarrayOutputDriver.

#[global] Instance DriverClass_eq_dec : EqDecision DriverClass.
Proof. solve_decision. Defined.

Definition class_name (cls : DriverClass) : string :=
  match cls with
  | OutputDriver => "OutputDriver"
  | NetCDFCFOutputDriver => "NetCDFCFOutputDriver"
  | GeotiffOutputDriver => "GeotiffOutputDriver"
  | ENVIBILOutputDriver => "ENVIBILOutputDriver"
  | TestOutputDriver => "TestOutputDriver"
  | XarrayOutputDriver => "XarrayOutputDriver"
  end.

(** The direct base class; [None] for [OutputDriver], whose base is the
    throw-away class of [with_metaclass]. *)
Definition base_class (cls : DriverClass) : option DriverClass :=
  match cls with
  | OutputDriver => None
  | NetCDFCFOutputDriver => Some OutputDriver
  | GeotiffOutputDriver => Some OutputDriver
  | ENVIBILOutputDriver => Some GeotiffOutputDriver
  | TestOutputDriver => Some OutputDriver
  | XarrayOutputDriver => Some OutputDriver
  end.

Definition stripped_name (cls : DriverClass) : string :=
  PyStr.replace_with_empty (class_name cls) "OutputDriver".

(** [RegisterDriver.__new__]: the effect on [OUTPUT_DRIVERS] of creating
    the class [cls]. *)
Definition RegisterDriver_new (reg : gmap string DriverClass) (cls : DriverClass)
  : gmap string DriverClass :=
  let name := stripped_name cls in
  if PyStr.is_empty name then reg else <[name := cls]> reg.

Definition class_statements : list DriverClass :=
  [OutputDriver; NetCDFCFOutputDriver; GeotiffOutputDriver;
   ENVIBILOutputDriver; TestOutputDriver; XarrayOutputDriver].

(** The registry after the first [n] class statements of the module. *)
Definition registry_after (n : nat) : gmap string DriverClass :=
  fold_left RegisterDriver_new (firstn n class_statements) ∅.

Definition OUTPUT_DRIVERS : gmap string DriverClass :=
  registry_after (length class_statements).

(** Position of a class statement in the module. *)
Definition statement_index (cls : DriverClass) : nat :=
  match cls with
  | OutputDriver => 0
  | NetCDFCFOutputDriver => 1
  | GeotiffOutputDriver => 2
  | ENVIBILOutputDriver => 3
  | TestOutputDriver => 4
  | XarrayOutputDriver => 5
  end.

(** Every entry is a class other than the base class, stored under its
    own stripped name. *)
Definition entries_ok (reg : gmap string DriverClass) : Prop :=
  ∀ k cls, reg !! k = Some cls → cls ≠ OutputDriver ∧ stripped_name cls = k.

End Registry.

(** ** [pathlib.Path], on the string form of a path *)

Module Path.

Definition slash : ascii := "/"%char.
Definition dot : ascii := "."%char.

(** [path.name]: the last component. *)
Definition name (p : string) : string :=
  match PyStr.rsplit slash p with
  | Some (_, n) => n
  | None => p
  end.

(** [path.suffix]: from the last dot of the name on, when that dot is
    neither the first nor the last character of the name. *)
Definition suffix (p : string) : string :=
  match PyStr.rsplit dot (name p) with
  | Some (b, t) =>
      if PyStr.is_empty b || PyStr.is_empty t then "" else String dot t
  | None => ""
  end.

(** [path.stem]: the name without its suffix. *)
Definition stem (p : string) : string :=
  PyStr.drop_last (String.length (suffix p)) (name p).

(** [path.with_suffix(suf)]; [None] where [pathlib] raises [ValueError]:
    a suffix with a separator, a non-empty suffix that does not start
    with a dot, the suffix ["."], or a path without a name. *)
Definition with_suffix (p suf : string) : option string :=
  if PyStr.occurs slash suf
     || (negb (PyStr.is_empty suf) && negb (PyStr.startswith "." suf))
     || String.eqb suf "."
  then None
  else if PyStr.is_empty (name p) then None
  else Some (PyStr.drop_last (String.length (suffix p)) p +:+ suf).

(** [path.with_name(n)]; [None] where [pathlib] raises [ValueError]: a
    path without a name, or a new name that is empty, is ["."] or holds
    a separator. *)
Definition with_name (p n : string) : option string :=
  if PyStr.is_empty (name p) then None
  else if PyStr.is_empty n || PyStr.occurs slash n || String.eqb n "." then None
  else Some (PyStr.drop_last (String.length (name p)) p +:+ n).

(** [path.parent]. *)
Definition parent (p : string) : string :=
  match PyStr.rsplit slash p with
  | Some (d, _) => if PyStr.is_empty d then "/" else d
  | None => "."
  end.

(** What is between the slashes of [s]; [acc] is the piece that is
    being read. *)
Fixpoint split_slash (acc s : string) : list string :=
  match s with
  | EmptyString => [acc]
  | String c s' =>
      if Ascii.eqb c slash then acc :: split_slash "" s'
      else split_slash (acc +:+ String c EmptyString) s'
  end.

(** The parts that [pathlib] keeps of a segment: the pieces between
    the slashes that are neither empty nor ["."]. *)
Definition parts (s : string) : list string :=
  List.filter (fun x => negb (PyStr.is_empty x) && negb (String.eqb x "."))
              (split_slash "" s).

(** The root of a segment: ["//"] for exactly two leading slashes,
    ["/"] for one or for more than two, and none otherwise. *)
Definition root (s : string) : string :=
  match s with
  | String c0 (String c1 (String c2 _)) =>
      if Ascii.eqb c0 slash
      then if Ascii.eqb c1 slash
           then if Ascii.eqb c2 slash then "/" else "//"
           else "/"
      else ""
  | String c0 (String c1 EmptyString) =>
      if Ascii.eqb c0 slash then if Ascii.eqb c1 slash then "//" else "/" else ""
  | String c0 EmptyString => if Ascii.eqb c0 slash then "/" else ""
  | EmptyString => ""
  end.

(** [str(Path(a, b))]: an absolute [b] replaces [a]; repeated slashes,
    components ["."] and a slash at the end go; nothing at all is
    ["."]. *)
Definition join (a b : string) : string :=
  let anchored := negb (PyStr.is_empty (root b)) in
  let rt := if anchored then root b else root a in
  let kept := if anchored then parts b else parts a ++ parts b in
  match kept with
  | [] => if PyStr.is_empty rt then "." else rt
  | _ => rt +:+ String.concat "/" kept
  end.

Definition is_absolute (p : string) : bool := PyStr.startswith "/" p.

(** The directories that [mkdir(parents=True)] may have to create
    above and including [p]: every proper prefix that ends before a
    slash, and [p] itself. *)
Fixpoint prefixes_at_slash (done p : string) : list string :=
  match p with
  | EmptyString => []
  | String c p' =>
      (if Ascii.eqb c slash && negb (PyStr.is_empty done) then [done] else [])
      ++ prefixes_at_slash (done +:+ String c EmptyString) p'
  end.

Definition ancestors_and_self (p : string) : list string :=
  prefixes_at_slash "" p ++ [p].

End Path.

(** ** Exceptions, the world, and the monad of effectful calls *)

Module Py.

Inductive StatsOutputMsg :=
| NoFilesOpened                       (* 'No files opened for writing.' *)
| InvalidFilename (output_path : string)
| DtypesDiffer (out_prod_name : string)
| NodatasDiffer (prod_name : string).

Inductive exn :=
| AssertionError
| KeyError (key : string)
| IndexError
| ValueError
| TypeError
| AttributeError
| UnboundLocalError (variable : string)
| NotImplementedError
| RuntimeError
| OSError (filename : string)
| StatsOutputError (msg : StatsOutputMsg)
| OutputFileAlreadyExists (output_file : string).

Inductive result (A : Type) :=
| Ok (a : A)
| Raise (e : exn).
Arguments Ok {A} a.
Arguments Raise {A} e.

(** What has been written into a file. *)
Inductive Item :=
| Data (variable : string) (band : nat) (window : list (Z * Z)) (values : list Z)
| Tag (band : nat) (key value : string).

Abbreviation Content := (list Item).

Inductive Event :=
| CloseFiles (completed_successfully : bool).

(** The two classes of file objects: [netCDF4.Dataset], and the
    dataset that [rasterio.open] returns. *)
Inductive HandleKind :=
| Dataset
| Raster.

#[global] Instance HandleKind_eq_dec : EqDecision HandleKind.
Proof. solve_decision. Defined.

(** A file object.  Its name is the path it was opened at, which is
    [str] of a [Path] wherever the drivers open a file, so that [Path]
    of it is written in the same way. *)
Record Handle := mkHandle {
  fh_id : nat;
  fh_kind : HandleKind;
  fh_name : string;                  (* the path it was opened at *)
  fh_variables : list string;        (* netCDF variables *)
  fh_count : nat                     (* raster bands *)
}.

(** A value of the dictionary [_output_file_handles]: a handle, or a
    dictionary of such values. *)
#[warnings="-register-all"]
Inductive HTree :=
| Leaf (fh : Handle)
| Dict (items : list (string * HTree)).

Record World := mkWorld {
  files : gmap string Content;      (* regular files and what they hold *)
  dirs : gset string;               (* directories *)
  open_fhs : gset nat;              (* handles that are open *)
  close_calls : list nat;           (* every [close()] so far, oldest first *)
  next_fh : nat;                    (* the next handle to be created *)
  calls : list Event;               (* calls of [close_files], oldest first *)
  handles : list (string * HTree)   (* [self._output_file_handles] *)
}.

Definition set_files (f : gmap string Content → gmap string Content) (w : World) : World :=
  mkWorld (f (files w)) (dirs w) (open_fhs w) (close_calls w) (next_fh w) (calls w)
          (handles w).

Definition set_dirs (f : gset string → gset string) (w : World) : World :=
  mkWorld (files w) (f (dirs w)) (open_fhs w) (close_calls w) (next_fh w) (calls w)
          (handles w).

Definition set_handles (f : list (string * HTree) → list (string * HTree)) (w : World)
  : World :=
  mkWorld (files w) (dirs w) (open_fhs w) (close_calls w) (next_fh w) (calls w)
          (f (handles w)).

Definition M (A : Type) : Type := World → World * result A.

Definition ret {A} (a : A) : M A := fun w => (w, Ok a).
Definition raise {A} (e : exn) : M A := fun w => (w, Raise e).
Definition bind {A B} (m : M A) (k : A → M B) : M B :=
  fun w => match m w with
           | (w', Ok a) => k a w'
           | (w', Raise e) => (w', Raise e)
           end.

(** [try: m  except OSError: pass] *)
Definition except_OSError_pass (m : M unit) : M unit :=
  fun w => match m w with
           | (w', Raise (OSError _)) => (w', Ok tt)
           | r => r
           end.

Definition lift {A} (r : result A) : M A := fun w => (w, r).

Fixpoint for_each {A B} (f : A → M B) (l : list A) : M (list B) :=
  match l with
  | [] => ret []
  | a :: l' => bind (f a) (fun b => bind (for_each f l') (fun bs => ret (b :: bs)))
  end.

(** [path.is_dir()]: the root and the current directory are always
    there.  Paths are told apart by their text: no ['..'] and no
    symbolic links. *)
Definition is_dir (p : string) (w : World) : bool :=
  bool_decide (p ∈ dirs w) || String.eqb p "/" || String.eqb p ".".

(** [path.exists()] *)
Definition exists_ (p : string) (w : World) : bool :=
  bool_decide (is_Some (files w !! p)) || is_dir p w.

(** [path.mkdir(parents=True)]: fails when [p] is there already, or
    when something on the way is a regular file. *)
Definition mkdir_parents (p : string) : M unit :=
  fun w =>
    if exists_ p w then (w, Raise (OSError p))
    else if existsb (fun d => bool_decide (is_Some (files w !! d))) (Path.ancestors_and_self p)
    then (w, Raise (OSError p))
    else (set_dirs (fun ds => ds ∪ list_to_set (Path.ancestors_and_self p)) w, Ok tt).

(** [path.unlink()] *)
Definition unlink (p : string) : M unit :=
  fun w => match files w !! p with
           | Some _ => (set_files (delete p) w, Ok tt)
           | None => (w, Raise (OSError p))
           end.

(** [path.rename(target)] and [path.replace(target)], on regular files;
    the result is the new path.  A target that is a directory, that is
    empty or that ends in a slash is refused. *)
Definition rename (p target : string) : M string :=
  fun w => match files w !! p with
           | Some c =>
               if is_dir target w || PyStr.is_empty target
                  || bool_decide (PyStr.last_char target = Some Path.slash)
               then (w, Raise (OSError target))
               else (set_files (fun fs => <[target := c]> (delete p fs)) w, Ok target)
           | None => (w, Raise (OSError p))
           end.

(** Create the file at [p] (truncating what is there) and open it, as
    [netCDF4] and [rasterio] do for writing: not where [p] is a
    directory, and not where the directory of [p] is missing. *)
Definition open_w (kind : HandleKind) (p : string) (variables : list string)
    (count : nat) : M Handle :=
  fun w =>
    if is_dir p w || negb (is_dir (Path.parent p) w) then (w, Raise (OSError p))
    else
      (mkWorld (<[p := []]> (files w)) (dirs w) ({[next_fh w]} ∪ open_fhs w)
               (close_calls w) (S (next_fh w)) (calls w) (handles w),
       Ok (mkHandle (next_fh w) kind p variables count)).

(** [fh.close()]: a netCDF dataset that is closed already raises
    [RuntimeError]; closing a raster dataset again does nothing. *)
Definition close (fh : Handle) : M unit :=
  fun w =>
    (mkWorld (files w) (dirs w) (open_fhs w ∖ {[fh_id fh]})
             (close_calls w ++ [fh_id fh]) (next_fh w) (calls w) (handles w),
     match fh_kind fh with
     | Dataset =>
         if bool_decide (fh_id fh ∈ open_fhs w) then Ok tt else Raise RuntimeError
     | Raster => Ok tt
     end).

(** [fh.filepath()], a method of netCDF datasets only, which needs the
    dataset open. *)
Definition filepath (fh : Handle) : M string :=
  fun w =>
    match fh_kind fh with
    | Dataset =>
        if bool_decide (fh_id fh ∈ open_fhs w) then (w, Ok (fh_name fh))
        else (w, Raise RuntimeError)
    | Raster => (w, Raise AttributeError)
    end.

(** [fh.name]: the path of a raster dataset, open or not; of a netCDF
    dataset the name of its root group, which needs the dataset open. *)
Definition name_of (fh : Handle) : M string :=
  fun w =>
    match fh_kind fh with
    | Raster => (w, Ok (fh_name fh))
    | Dataset =>
        if bool_decide (fh_id fh ∈ open_fhs w) then (w, Ok "/")
        else (w, Raise RuntimeError)
    end.

(** Append [item] to what the file behind [fh] holds. *)
Definition write_item (fh : Handle) (item : Item) : M unit :=
  fun w => match files w !! fh_name fh with
           | Some c => (set_files (<[fh_name fh := c ++ [item]]>) w, Ok tt)
           | None => (w, Raise (OSError (fh_name fh)))
           end.

Definition log_call (e : Event) : M unit :=
  fun w => (mkWorld (files w) (dirs w) (open_fhs w) (close_calls w) (next_fh w)
                    (calls w ++ [e]) (handles w), Ok tt).

Definition gets {A} (f : World → A) : M A := fun w => (w, Ok (f w)).
Definition modify (f : World → World) : M unit := fun w => (f w, Ok tt).

Definition of_option {A} (e : exn) (o : option A) : M A :=
  match o with Some a => ret a | None => raise e end.

(** Dictionaries in insertion order. *)
Fixpoint dict_get {V} (k : string) (d : list (string * V)) : option V :=
  match d with
  | [] => None
  | (k', v) :: d' => if String.eqb k k' then Some v else dict_get k d'
  end.

(** [d[k] = v] *)
Fixpoint dict_set {V} (k : string) (v : V) (d : list (string * V)) : list (string * V) :=
  match d with
  | [] => [(k, v)]
  | (k', v') :: d' =>
      if String.eqb k k' then (k, v) :: d' else (k', v') :: dict_set k v d'
  end.

Definition is_Ok {A} (r : result A) : bool :=
  match r with Ok _ => true | Raise _ => false end.

(** Every run of [m] relates the world before to the world after by [R],
    and a value it returns satisfies [Q]. *)
Definition keeps (R : World → World → Prop) {A} (Q : A → Prop) (m : M A) : Prop :=
  ∀ w w' r, m w = (w', r) → R w w' ∧ ∀ a, r = Ok a → Q a.

(** Only files whose name ends in ['.tmp'] differ. *)
Definition tmp_frame (w w' : World) : Prop :=
  ∀ p, (∀ q, p ≠ q +:+ ".tmp") → files w' !! p = files w !! p.

(** No file appears where there was none. *)
Definition no_new_files (w w' : World) : Prop :=
  ∀ p, files w !! p = None → files w' !! p = None.

(** No call of [close_files] in between. *)
Definition calls_frame (w w' : World) : Prop := calls w' = calls w.

End Py.

Declare Scope py_scope.
Delimit Scope py_scope with py.
Notation "'let!' x ':=' m 'in' k" := (Py.bind m (fun x => k))
  (at level 10, x name, m at level 100, k at level 200) : py_scope.
Notation "'do!' m 'in' k" := (Py.bind m (fun _ => k))
  (at level 10, m at level 100, k at level 200) : py_scope.

(** ** Task generation ([tasks.py]) *)

Module Tasks.
Import Py.

(** Values of a configuration dictionary. *)
#[warnings="-register-all"]
Inductive Value :=
| VStr (s : string)
| VNum (z : Z)
| VDict (items : list (string * Value)).

Record GridSpec := mkGridSpec {
  gs_crs : Value;
  gs_tile_size : list Value;
  gs_resolution : list Value
}.

(** [d[k]] for a configuration value [d] *)
Definition item (d : Value) (k : string) : result Value :=
  match d with
  | VDict items =>
      match dict_get k items with
      | Some v => Ok v
      | None => Raise (KeyError k)
      end
  | _ => Raise TypeError
  end.

Definition rbind {A B} (r : result A) (k : A → result B) : result B :=
  match r with
  | Ok a => k a
  | Raise e => Raise e
  end.

Fixpoint rmap {A B} (f : A → result B) (l : list A) : result (list B) :=
  match l with
  | [] => Ok []
  | a :: l' => rbind (f a) (fun b => rbind (rmap f l') (fun bs => Ok (b :: bs)))
  end.

(** A tile: the time index of [tile.sources] with the datasets of each
    time, and the geobox. *)
Record Tile := mkTile {
  tile_sources : list (Z * list nat);
  tile_geobox : string
}.

Record MaskSpec := mkMaskSpec {
  mask_product : string
}.

(** A source specification; [None] is a key that is absent. *)
Record SourceSpec := mkSourceSpec {
  product : string;
  time : option (Z * Z);
  group_by : option string;
  source_filter : option string;
  masks : option (list MaskSpec)
}.

Record DataSource := mkDataSource {
  ds_data : Tile;
  ds_masks : list (option Tile);
  ds_spec : SourceSpec;
  ds_source_index : nat
}.

Record Feature := mkFeature {
  feature_id : option string;
  feature_geopolygon : string
}.

Inductive IdValue :=
| IdNum (z : Z)
| IdStr (s : string).

Record StatsTask := mkStatsTask {
  task_time_period : Z * Z;
  spatial_id : list (string * IdValue);
  task_feature : option Feature;
  sources : list DataSource
}.

(** [StatsTask(time_period=..., spatial_id=..., feature=...)]: the
    class is declared in [models.py]; a new task has no sources. *)
Definition new_task (time_period : Z * Z) (spatial_id : list (string * IdValue))
    (feature : option Feature) : StatsTask :=
  mkStatsTask time_period spatial_id feature [].

Definition append_source (t : StatsTask) (d : DataSource) : StatsTask :=
  mkStatsTask (task_time_period t) (spatial_id t) (task_feature t) (sources t ++ [d]).

Definition set_sources (t : StatsTask) (l : list DataSource) : StatsTask :=
  mkStatsTask (task_time_period t) (spatial_id t) (task_feature t) l.

Definition set_spatial_id (t : StatsTask) (i : list (string * IdValue)) : StatsTask :=
  mkStatsTask (task_time_period t) i (task_feature t) (sources t).

Definition DEFAULT_GROUP_BY : string := "time".

(** What the generators call outside [tasks.py]. *)
Class Externals := {
  (** [CRS(v).dimensions] *)
  crs_dimensions : Value → result (list string);
  (** [utils.dates.filter_time_by_source] *)
  filter_time_by_source : option (Z * Z) → Z * Z → option (Z * Z);
  (** [utils.query.multi_product_list_cells(products, workflow,
      product_query, cell_index, time, group_by, geopolygon)], with the
      grid of the workflow and the source filter of the query: the cells
      of each product, keyed by tile, and the unmatched counts *)
  multi_product_list_cells :
    list string → GridSpec → option string → option (Z * Z) → Z * Z → string →
    option string →
    result (list (list (Z * Z * Tile)) * list nat);
  (** [ArbitraryTileMaker(input_region, feature, storage)(index, product,
      time, group_by)] *)
  make_arbitrary_tile : option Feature → string → Z * Z → string → result Tile;
  (** [utils.tide_utility.get_filter_product] *)
  get_filter_product :
    list (string * string) → option Feature → list Z → list (Z * Z) →
    result (list IdValue * list string);
  (** [strftime] with ["%Y-%m-%d"] and with ["%Y-%m-%dT%H:%M:%S"] *)
  strftime_day : Z → string;
  strftime_second : Z → string
}.

(** A generator run to its end: what it yielded, and the exception
    that ended it, if any. *)
Definition Gen (A : Type) : Type := list A * option exn.

Fixpoint gen_for {A B} (body : A → Gen B) (l : list A) : Gen B :=
  match l with
  | [] => ([], None)
  | a :: l' =>
      match body a with
      | (ys, Some e) => (ys, Some e)
      | (ys, None) => let '(zs, r) := gen_for body l' in (ys ++ zs, r)
      end
  end.

(** [for x in f(): yield x] for a call that returns a list *)
Definition yield_all {A} (r : result (list A)) : Gen A :=
  match r with
  | Ok l => (l, None)
  | Raise e => ([], Some e)
  end.

Section WithExternals.
Context `{Externals}.

(** [_make_grid_spec] *)
Definition _make_grid_spec (storage : list (string * Value)) : result GridSpec :=
  if negb (bool_decide (is_Some (dict_get "tile_size" storage)))
  then Raise AssertionError
  else
    rbind (item (VDict storage) "crs") (fun crs =>
    rbind (crs_dimensions crs) (fun dims =>
    rbind (rmap (fun dim =>
             rbind (item (VDict storage) "tile_size") (fun ts => item ts dim)) dims)
          (fun tile_size =>
    rbind (rmap (fun dim =>
             rbind (item (VDict storage) "resolution") (fun rs => item rs dim)) dims)
          (fun resolution =>
    Ok (mkGridSpec crs tile_size resolution))))).

(** *** [GriddedTaskGenerator] *)

Record Gridded := mkGridded {
  grid_spec : GridSpec;
  geopolygon : option string;
  tile_indexes : option (list (Z * Z))
}.

(** [tasks.setdefault(tile, fresh)] followed by an append to the
    sources of the task that is in the dictionary. *)
Fixpoint add_source (tile : Z * Z) (fresh : StatsTask) (d : DataSource)
    (tasks : list (Z * Z * StatsTask)) : list (Z * Z * StatsTask) :=
  match tasks with
  | [] => [(tile, append_source fresh d)]
  | (k, t) :: rest =>
      if bool_decide (k = tile) then (k, append_source t d) :: rest
      else (k, t) :: add_source tile fresh d rest
  end.

(** [mask.get(tile)] *)
Fixpoint cell_get (tile : Z * Z) (cells : list (Z * Z * Tile)) : option Tile :=
  match cells with
  | [] => None
  | (k, t) :: rest => if bool_decide (k = tile) then Some t else cell_get tile rest
  end.

Definition spec_masks (source_spec : SourceSpec) : list MaskSpec :=
  default [] (masks source_spec).

(** The body of the loop over [sources_spec] in [collect_tasks];
    the second component counts the unmatched datasets. *)
Definition collect_source (self : Gridded) (time_period : Z * Z)
    (tile_index : option (Z * Z)) (source_index : nat) (source_spec : SourceSpec)
    (acc : list (Z * Z * StatsTask) * nat) : result (list (Z * Z * StatsTask) * nat) :=
  match filter_time_by_source (time source_spec) time_period with
  | None => Ok acc
  | Some ep_range =>
      let group_by_name := default DEFAULT_GROUP_BY (group_by source_spec) in
      let products := product source_spec :: map mask_product (spec_masks source_spec) in
      rbind (multi_product_list_cells products (grid_spec self)
               (source_filter source_spec) tile_index ep_range group_by_name
               (geopolygon self)) (fun '(cells, unmatched_) =>
      match cells with
      | [] => Raise ValueError
      | data :: masks =>
          match unmatched_ with
          | [] => Raise IndexError
          | count :: _ =>
              Ok (fold_left
                    (fun tasks '(tile, sources) =>
                       add_source tile
                         (new_task ep_range
                            [("x", IdNum (fst tile)); ("y", IdNum (snd tile))] None)
                         (mkDataSource sources
                            (map (fun mask => cell_get tile mask) masks)
                            source_spec source_index)
                         tasks)
                    data (fst acc),
                  (snd acc + count)%nat)
          end
      end)
  end.

Fixpoint collect_loop (self : Gridded) (time_period : Z * Z)
    (tile_index : option (Z * Z)) (source_index : nat) (sources_spec : list SourceSpec)
    (acc : list (Z * Z * StatsTask) * nat) : result (list (Z * Z * StatsTask) * nat) :=
  match sources_spec with
  | [] => Ok acc
  | source_spec :: rest =>
      rbind (collect_source self time_period tile_index source_index source_spec acc)
            (collect_loop self time_period tile_index (S source_index) rest)
  end.

(** [collect_tasks] *)
Definition collect_tasks (self : Gridded) (time_period : Z * Z)
    (sources_spec : list SourceSpec) (tile_index : option (Z * Z))
  : result (list StatsTask) :=
  rbind (collect_loop self time_period tile_index 0 sources_spec ([], 0%nat))
        (fun '(tasks, _) => Ok (map snd tasks)).

(** [GriddedTaskGenerator.__call__] *)
Definition Gridded_call (self : Gridded) (sources_spec : list SourceSpec)
    (date_ranges : list (Z * Z)) : Gen StatsTask :=
  gen_for
    (fun time_period =>
       match tile_indexes self with
       | Some indexes =>
           gen_for (fun tile_index =>
                      yield_all (collect_tasks self time_period sources_spec
                                   (Some tile_index)))
                   indexes
       | None => yield_all (collect_tasks self time_period sources_spec None)
       end)
    date_ranges.

(** *** [NonGriddedTaskGenerator] *)

(** [filter_product]: [None], or the configuration dictionary. *)
Record NonGridded := mkNonGridded {
  filter_product : option (list (string * string));
  features : option (list (option Feature))
}.

Definition times (v : Tile) : list Z := map fst (tile_sources v).

(** [v.sources.isel(time=positions)] *)
Definition isel (v : Tile) (positions : list nat) : result Tile :=
  rbind (rmap (fun i => match tile_sources v !! i with
                        | Some x => Ok x
                        | None => Raise IndexError
                        end) positions)
        (fun kept => Ok (mkTile kept (tile_geobox v))).

(** [[i for i, item in enumerate(all_dates) if item in filtered_times]] *)
Fixpoint matching_positions (i : nat) (all_dates filtered_times : list string)
  : list nat :=
  match all_dates with
  | [] => []
  | item :: rest =>
      (if bool_decide (item ∈ filtered_times) then [i] else [])
      ++ matching_positions (S i) rest filtered_times
  end.

(** [set(all_dates) & set(filtered_times)] is not empty *)
Definition intersects (all_dates filtered_times : list string) : bool :=
  existsb (fun item => bool_decide (item ∈ filtered_times)) all_dates.

Definition set_data (sr : DataSource) (v : Tile) : DataSource :=
  mkDataSource v (ds_masks sr) (ds_spec sr) (ds_source_index sr).

(** The first loop of [set_task]: [done] are the sources already
    visited (narrowed where they matched), [all_dates] is the local
    variable of that name ([None]: unbound), [remove_index_list] is
    built oldest first. *)
Fixpoint set_task_loop (method : option string) (filtered_times : list string)
    (i : nat) (todo done : list DataSource) (all_dates : option (list string))
    (remove_index_list : list nat) : result (list DataSource * list nat) :=
  match todo with
  | [] => Ok (done, remove_index_list)
  | sr :: rest =>
      let v := ds_data sr in
      let all_dates :=
        if bool_decide (method = Some "by_hydrological_months")
        then Some (map strftime_day (times v))
        else if bool_decide (method = Some "by_tide_height")
        then Some (map strftime_second (times v))
        else all_dates in
      match all_dates with
      | None => Raise (UnboundLocalError "all_dates")
      | Some dates =>
          if intersects dates filtered_times
          then
            rbind (isel v (matching_positions 0 dates filtered_times)) (fun v' =>
            set_task_loop method filtered_times (S i) rest (done ++ [set_data sr v'])
                          all_dates remove_index_list)
          else
            set_task_loop method filtered_times (S i) rest (done ++ [sr])
                          all_dates (remove_index_list ++ [i])
      end
  end.

(** [del l[i]] *)
Definition del_item {A} (i : nat) (l : list A) : result (list A) :=
  if (i <? length l)%nat then Ok (take i l ++ drop (S i) l) else Raise IndexError.

(** [for i in remove_index_list: del task.sources[i]] *)
Fixpoint del_loop {A} (remove_index_list : list nat) (l : list A) : result (list A) :=
  match remove_index_list with
  | [] => Ok l
  | i :: rest => rbind (del_item i l) (del_loop rest)
  end.

(** [set_task] *)
Definition set_task (self : NonGridded) (task : StatsTask)
    (filtered_times : list string) : result StatsTask :=
  let method := dict_get "method" (default [] (filter_product self)) in
  rbind (set_task_loop method filtered_times 0 (sources task) [] None [])
        (fun '(visited, remove_index_list) =>
  rbind (if (0 <? length remove_index_list)%nat
         then del_loop remove_index_list visited
         else Ok visited)
        (fun kept => Ok (set_sources task kept))).

Definition filter_configured (self : NonGridded) : bool :=
  match filter_product self with
  | None | Some [] => false
  | Some _ => true
  end.

(** [filter_task] *)
Definition filter_task (self : NonGridded) (task : StatsTask)
    (feature : option Feature) (date_ranges : list (Z * Z)) : result StatsTask :=
  if filter_configured self then
    let all_source_times :=
      merge_sort Z.le (concat (map (fun sr => times (ds_data sr)) (sources task))) in
    rbind (get_filter_product (default [] (filter_product self)) feature
             all_source_times date_ranges) (fun '(extra_fn_args, filtered_times) =>
    rbind (set_task self task filtered_times) (fun task =>
    match extra_fn_args with
    | a0 :: a1 :: _ => Ok (set_spatial_id task [("x", a0); ("y", a1)])
    | _ => Raise IndexError
    end))
  else Ok task.

(** The body of the loop over [sources_spec] in
    [NonGriddedTaskGenerator.__call__]. *)
Definition add_spec (feature : option Feature) (time_period : Z * Z)
    (source_index : nat) (source_spec : SourceSpec) (task : StatsTask)
  : result StatsTask :=
  match filter_time_by_source (time source_spec) time_period with
  | None => Ok task
  | Some ep_range =>
      let make_tile := fun product =>
        make_arbitrary_tile feature product ep_range
          (default DEFAULT_GROUP_BY (group_by source_spec)) in
      rbind (make_tile (product source_spec)) (fun data =>
      rbind (rmap (fun mask => make_tile (mask_product mask)) (spec_masks source_spec))
            (fun masks =>
      if (length (times data) =? 0)%nat then Ok task
      else Ok (append_source task
                 (mkDataSource data (map Some masks) source_spec source_index))))
  end.

Fixpoint add_specs (feature : option Feature) (time_period : Z * Z)
    (source_index : nat) (sources_spec : list SourceSpec) (task : StatsTask)
  : result StatsTask :=
  match sources_spec with
  | [] => Ok task
  | source_spec :: rest =>
      rbind (add_spec feature time_period source_index source_spec task)
            (add_specs feature time_period (S source_index) rest)
  end.

Definition feature_id_of (feature : option Feature) : string :=
  match feature with
  | Some f => default "(none)" (feature_id f)
  | None => "(none)"
  end.

(** What one time period of one feature yields. *)
Definition NonGridded_period (self : NonGridded) (sources_spec : list SourceSpec)
    (date_ranges : list (Z * Z)) (feature : option Feature) (time_period : Z * Z)
  : Gen StatsTask :=
  let task := new_task time_period [("feature_id", IdStr (feature_id_of feature))]
                       feature in
  match add_specs feature time_period 0 sources_spec task with
  | Raise e => ([], Some e)
  | Ok task =>
      if (0 <? length (sources task))%nat
      then match filter_task self task feature date_ranges with
           | Ok task => ([task], None)
           | Raise e => ([], Some e)
           end
      else ([], None)
  end.

(** [NonGriddedTaskGenerator.__call__] *)
Definition NonGridded_call (self : NonGridded) (sources_spec : list SourceSpec)
    (date_ranges : list (Z * Z)) : Gen StatsTask :=
  gen_for
    (fun feature =>
       gen_for (NonGridded_period self sources_spec date_ranges feature) date_ranges)
    (default [None] (features self)).

(** Modelled from the spec: [utils/query.py], which defines
    [multi_product_list_cells], is not among the sources.  Section 4.2
    has it retrieve the datasets "for all products in one batched
    query" and return the masks "in declaration order, one slot per
    declared mask spec": one dictionary of cells per product asked
    for, the primary product first. *)
Definition one_slot_per_product : Prop :=
  ∀ products grid source_filter cell_index ep_range group_by geopolygon cells unmatched,
    multi_product_list_cells products grid source_filter cell_index ep_range group_by
      geopolygon
    = Ok (cells, unmatched) →
    length cells = length products.

(** The masks of [d], a source of a task of [feature] for
    [time_period]: the tiles that [ArbitraryTileMaker] makes for the
    mask products of its spec, for that feature and the range of the
    spec within the period, one per declared mask, in order. *)
Definition masks_made_in_order (feature : option Feature) (time_period : Z * Z)
    (d : DataSource) : Prop :=
  ∃ ep_range,
    filter_time_by_source (time (ds_spec d)) time_period = Some ep_range
    ∧ Forall2 (fun mask slot =>
                 ∃ tile, slot = Some tile ∧
                   make_arbitrary_tile feature (mask_product mask) ep_range
                     (default DEFAULT_GROUP_BY (group_by (ds_spec d))) = Ok tile)
              (spec_masks (ds_spec d)) (ds_masks d).

(** The masks of [d], a source of the task at [tile] that [self]
    collects for [time_period] and [tile_index]: the entry at [tile],
    or [None] where there is none, of each of the dictionaries that the
    batched query for the spec of [d] returned after the one of the
    primary product, in that order. *)
Definition masks_looked_up_in_order (self : Gridded) (time_period : Z * Z)
    (tile_index : option (Z * Z)) (tile : Z * Z) (d : DataSource) : Prop :=
  ∃ ep_range data mask_cells unmatched,
    filter_time_by_source (time (ds_spec d)) time_period = Some ep_range
    ∧ multi_product_list_cells
        (product (ds_spec d) :: map mask_product (spec_masks (ds_spec d)))
        (grid_spec self) (source_filter (ds_spec d)) tile_index ep_range
        (default DEFAULT_GROUP_BY (group_by (ds_spec d))) (geopolygon self)
      = Ok (data :: mask_cells, unmatched)
    ∧ ds_masks d = map (cell_get tile) mask_cells.

(** What holds of the task under the key [tile] in the dictionary of
    [collect_tasks]. *)
Definition Inv (self : Gridded) (time_period : Z * Z) (tile_index : option (Z * Z))
    (tile : Z * Z) (t : StatsTask) : Prop :=
  sources t ≠ []
  ∧ spatial_id t = [("x", IdNum (fst tile)); ("y", IdNum (snd tile))]
  ∧ Forall (masks_looked_up_in_order self time_period tile_index tile) (sources t).

(** The tile indexes that [__call__] passes to [collect_tasks]: each
    of [tile_indexes] in turn, or none. *)
Definition passed_index (self : Gridded) (tile_index : option (Z * Z)) : Prop :=
  match tile_indexes self with
  | Some indexes => ∃ i, i ∈ indexes ∧ tile_index = Some i
  | None => tile_index = None
  end.

End WithExternals.

End Tasks.

(** ** The parameters of the netCDF variables ([_create_netcdf_var_params]) *)

Module Params.
Import Py Tasks.

Definition _NETCDF_VARIABLE__PARAMETER_NAMES : list string :=
  ["zlib"; "complevel"; "shuffle"; "fletcher32"; "contiguous"; "attrs"].

(** What the method reads of the storage description of the driver;
    [None] is a key that is absent. *)
Record Storage := mkStorage {
  chunking : option (list (string * Value));
  dimension_order : option (list string)
}.

(** One entry of [stat.data_measurements]: its name ([None]: there is
    no key ['name']), and its other items. *)
Record DataMeasurement := mkDataMeasurement {
  m_name : option string;
  m_items : list (string * Value)
}.

(** A value among the parameters of one variable: copied from the
    configuration, or the list of chunk sizes. *)
Inductive ParamValue :=
| Copied (v : Value)
| Chunksizes (l : list Value).

(** [d.update(other)] *)
Definition update {V} (d other : list (string * V)) : list (string * V) :=
  fold_left (fun d kv => dict_set (fst kv) (snd kv) d) other d.

(** The body of the loop: the parameters of the variable of
    [measurement]. *)
Definition variable_param (chunking : list Value) (output_params : list (string * Value))
    (measurement : DataMeasurement) : list (string * ParamValue) :=
  let params := map (fun kv => (fst kv, Copied (snd kv))) output_params in
  let params := dict_set "chunksizes" (Chunksizes chunking) params in
  update params
    (map (fun kv => (fst kv, Copied (snd kv)))
       (List.filter (fun kv => bool_decide (fst kv ∈ _NETCDF_VARIABLE__PARAMETER_NAMES))
                    (m_items measurement))).

(** The loop over [stat.data_measurements]. *)
Fixpoint variable_params_loop (chunking : list Value) (output_params : list (string * Value))
    (data_measurements : list DataMeasurement)
    (variable_params : list (string * list (string * ParamValue)))
  : result (list (string * list (string * ParamValue))) :=
  match data_measurements with
  | [] => Ok variable_params
  | measurement :: rest =>
      match m_name measurement with
      | None => Raise (KeyError "name")
      | Some name =>
          variable_params_loop chunking output_params rest
            (dict_set name (variable_param chunking output_params measurement)
                      variable_params)
      end
  end.

(** [NetCDFCFOutputDriver._create_netcdf_var_params], with the storage
    description of the driver and the data measurements and output
    parameters of [stat]. *)
Definition _create_netcdf_var_params (storage : Storage)
    (data_measurements : list DataMeasurement) (output_params : list (string * Value))
  : result (list (string * list (string * ParamValue))) :=
  rbind (match chunking storage with
         | Some c => Ok c
         | None => Raise (KeyError "chunking")
         end) (fun chunking =>
  rbind (match dimension_order storage with
         | Some order => Ok order
         | None => Raise (KeyError "dimension_order")
         end) (fun order =>
  rbind (rmap (fun dim => match dict_get dim chunking with
                          | Some size => Ok size
                          | None => Raise (KeyError dim)
                          end) order) (fun chunking =>
  variable_params_loop chunking output_params data_measurements []))).

End Params.

(** ** Output drivers ([output_drivers.py]) *)

Module Drivers.
Import Py Registry.
Local Open Scope py_scope.

(** One entry of [stat.product.measurements]. *)
Record Measurement := mkMeasurement {
  dtype : string;
  nodata : Z
}.

(** An output product of a task ([stat]). *)
Record OutputProduct := mkOutputProduct {
  file_path_template : string;
  measurements : list (string * Measurement);  (* [stat.product.measurements] *)
  data_measurements : list Params.DataMeasurement;
  output_params : list (string * Tasks.Value)
}.

(** What a driver reads of its [StatsTask]. *)
Record Task := mkTask {
  tile_index : Z * Z;
  time_period : Z * Z;
  source_product_names : string;
  output_products : list (string * OutputProduct)
}.

(** The attributes of a driver that [__init__] fixes; the dictionary
    [_output_file_handles] is [handles] of the world. *)
Record Driver := mkDriver {
  cls : DriverClass;
  _storage : Params.Storage;
  _output_path : string;
  _app_info : string;
  _task : Task
}.

(** The keyword arguments that [_open_geotiff] adds to the default
    profile before it calls [rasterio.open]; width, height, transform
    and CRS come from the geobox of the task. *)
Record Profile := mkProfile {
  blockxsize : Tasks.Value;
  blockysize : Tasks.Value;
  profile_dtype : string;
  profile_nodata : Z;
  profile_count : nat
}.

(** What is outside the repository: [str.format] on a path template,
    the date format of the band tags, the [gdal_translate] tool
    ([None]: it exits with an error), and the calls into [datacube],
    [xarray], [netCDF4] and [rasterio] that can fail on what they are
    given. *)
Class Externals := {
  str_format : string → Z * Z → Z * Z → list (string * string) → string;
  format_date : Z → string;
  gdal_translate : Content → option Content;
  (** [_find_source_datasets(stat, uri)], which is made of calls into
      [datacube] and [xarray]: the dataset documents, as the values
      that are written into the ['dataset'] variable *)
  _find_source_datasets : Driver → OutputProduct → string → result (list Z);
  (** whether [numpy], [datacube] and [netCDF4] refuse the variables and
      their parameters, and with what; a refusal is taken to come
      before the file is created *)
  netcdf_refuses :
    list (string * Measurement) → list (string * list (string * Params.ParamValue)) →
    option exn;
  (** whether [rasterio] refuses the profile, likewise *)
  rasterio_refuses : Profile → option exn
}.

Definition _output_products (self : Driver) : list (string * OutputProduct) :=
  output_products (_task self).

Definition __init__ (c : DriverClass) (task : Task) (storage : Params.Storage)
    (output_path app_info : string) : M Driver :=
  do! modify (set_handles (fun _ => [])) in
  ret (mkDriver c storage output_path app_info task).

Definition valid_extensions (c : DriverClass) : list string :=
  match c with
  | NetCDFCFOutputDriver => [".nc"]
  | GeotiffOutputDriver => [".tif"; ".tiff"]
  | ENVIBILOutputDriver => [".bil"]
  | OutputDriver | TestOutputDriver | XarrayOutputDriver => []
  end.

(** [_walk_dict(file_handles, func)], run to its end.  For a value that
    is itself a dictionary the generator of the recursive call is made
    and dropped, so it yields nothing and [func] is not run below it;
    a [TypeError] of [func] is caught and logged. *)
Fixpoint _walk_dict {A} (func : Handle → M A) (file_handles : HTree) : M (list A) :=
  match file_handles with
  | Leaf _ => raise AttributeError            (* no [items()] *)
  | Dict items =>
      (fix loop (items : list (string * HTree)) : M (list A) :=
         match items with
         | [] => ret []
         | (_, output_fh) :: rest =>
             match output_fh with
             | Dict _ =>
                 let _dropped := _walk_dict func output_fh in
                 loop rest
             | Leaf fh =>
                 fun w =>
                   match func fh w with
                   | (w', Ok a) =>
                       (let! more := loop rest in ret (a :: more)) w'
                   | (w', Raise TypeError) => loop rest w'
                   | (w', Raise e) => (w', Raise e)
                   end
             end
         end) items
  end.

(** [_handle_to_path]: [Path(file_handle.name)], overridden in the
    NetCDF driver by [Path(file_handle.filepath())]. *)
Definition _handle_to_path (self : Driver) (file_handle : Handle) : M string :=
  match cls self with
  | NetCDFCFOutputDriver => filepath file_handle
  | _ => name_of file_handle
  end.

(** [OutputDriver.close_files] *)
Definition OutputDriver_close_files (self : Driver)
    (completed_successfully rename_tmps : bool) : M (list string) :=
  let! hs := gets handles in
  let! paths := _walk_dict (_handle_to_path self) (Dict hs) in
  let! hs' := gets handles in
  let! closed := _walk_dict close (Dict hs') in
  if completed_successfully && rename_tmps
  then for_each (fun path => rename path (PyStr.drop_last 4 path)) paths
  else ret paths.

(** The handles that are values of the dictionary itself. *)
Fixpoint top_leaves (items : list (string * HTree)) : list Handle :=
  match items with
  | [] => []
  | (_, Leaf fh) :: rest => fh :: top_leaves rest
  | (_, Dict _) :: rest => top_leaves rest
  end.

(** The class of file object that the drivers of class [c] open. *)
Definition opens (c : DriverClass) : HandleKind :=
  match c with
  | NetCDFCFOutputDriver => Dataset
  | _ => Raster
  end.

(** The handles at the top of the dictionary are file objects of the
    driver's own: different ones, of the class that the driver opens,
    and, where they are netCDF datasets, open. *)
Definition own_handles (self : Driver) (w : World) : Prop :=
  NoDup (map fh_id (top_leaves (handles w)))
  ∧ ∀ fh, fh ∈ top_leaves (handles w) →
      fh_kind fh = opens (cls self) ∧ (fh_kind fh = Dataset → fh_id fh ∈ open_fhs w).

(** The world after [close()] on each of [fhs] in turn. *)
Fixpoint close_all (fhs : list Handle) (w : World) : World :=
  match fhs with
  | [] => w
  | fh :: rest => close_all rest (fst (close fh w))
  end.

(** Whether every value of the dictionary is a handle. *)
Fixpoint flat (items : list (string * HTree)) : bool :=
  match items with
  | [] => true
  | (_, Leaf _) :: rest => flat rest
  | (_, Dict _) :: rest => false
  end.

Section WithExternals.
Context `{Externals}.

(** [ENVIBILOutputDriver._tif_to_envi] *)
Definition _tif_to_envi (source_file : string) : M unit :=
  let! dest_file := of_option ValueError
                      (Path.with_name source_file (Path.stem source_file)) in
  let! tmp_tif := of_option ValueError (Path.with_suffix source_file ".tif") in
  let! _ := rename source_file tmp_tif in
  let! src := gets (fun w => files w !! tmp_tif) in
  let! blocked := gets (is_dir dest_file) in   (* the tool cannot write there *)
  match (if blocked then None else src ≫= gdal_translate) with
  | Some converted =>
      do! modify (set_files (<[dest_file := converted]>)) in
      unlink tmp_tif
  | None => ret tt                          (* the error is logged *)
  end.

(** [ENVIBILOutputDriver.close_files]; it has no [return]. *)
Definition ENVIBIL_close_files (self : Driver) (completed_successfully : bool)
  : M unit :=
  let! paths := OutputDriver_close_files self completed_successfully false in
  if completed_successfully
  then let! _ := for_each _tif_to_envi paths in ret tt
  else ret tt.

(** [self.close_files(completed_successfully)] on an instance of class
    [cls self]; [None] is the value of a call that returns nothing. *)
Definition close_files (self : Driver) (completed_successfully : bool)
  : M (option (list string)) :=
  do! log_call (CloseFiles completed_successfully) in
  match cls self with
  | ENVIBILOutputDriver =>
      do! ENVIBIL_close_files self completed_successfully in ret None
  | _ =>
      let! paths := OutputDriver_close_files self completed_successfully true in
      ret (Some paths)
  end.

(** [_generate_output_filename] *)
Definition _generate_output_filename (self : Driver)
    (kwargs : list (string * string)) (stat : OutputProduct) : string :=
  Path.join (_output_path self)
    (str_format (file_path_template stat) (tile_index (_task self))
                (time_period (_task self)) kwargs).

(** [_prepare_output_file] *)
Definition _prepare_output_file (self : Driver) (stat : OutputProduct)
    (kwargs : list (string * string)) : M string :=
  let output_path := _generate_output_filename self kwargs stat in
  if negb (bool_decide (Path.suffix output_path ∈ valid_extensions (cls self)))
  then raise (StatsOutputError (InvalidFilename output_path))
  else
    let! there := gets (exists_ output_path) in
    if there then raise (OutputFileAlreadyExists output_path)
    else
      do! except_OSError_pass (mkdir_parents (Path.parent output_path)) in
      let! tmp_path :=
        of_option ValueError
          (Path.with_suffix output_path (Path.suffix output_path +:+ ".tmp")) in
      let! stale := gets (exists_ tmp_path) in
      do! (if stale then unlink tmp_path else ret tt) in
      ret tmp_path.

(** [output_filename.as_uri()] *)
Definition as_uri (p : string) : M string :=
  if Path.is_absolute p then ret ("file://" +:+ p) else raise ValueError.

(** *** [NetCDFCFOutputDriver] *)

(** [_create_netcdf_var_params], on the storage description of the
    driver. *)
Definition _create_netcdf_var_params (self : Driver) (stat : OutputProduct)
  : result (list (string * list (string * Params.ParamValue))) :=
  Params._create_netcdf_var_params (_storage self) (data_measurements stat)
    (output_params stat).

(** [_nco_from_sources]: the coordinates and the variables are built,
    then [create_netcdf_storage_unit] creates the file with one
    variable per measurement. *)
Definition _nco_from_sources (measurements : list (string * Measurement))
    (variable_params : list (string * list (string * Params.ParamValue)))
    (filename : string) : M Handle :=
  match netcdf_refuses measurements variable_params with
  | Some e => raise e
  | None => open_w Dataset filename (map fst measurements) 0
  end.

(** [_create_storage_unit]: when the file has been created, the
    ['dataset'] variable is added and written. *)
Definition _create_storage_unit (self : Driver) (stat : OutputProduct)
    (output_filename : string) : M Handle :=
  let all_measurement_defns := measurements stat in
  let! uri := as_uri output_filename in
  let! datasets := lift (_find_source_datasets self stat uri) in
  let! variable_params := lift (_create_netcdf_var_params self stat) in
  let! nco := _nco_from_sources all_measurement_defns variable_params output_filename in
  do! write_item nco (Data "dataset" 0 [] datasets) in
  ret (mkHandle (fh_id nco) (fh_kind nco) (fh_name nco) (fh_variables nco ++ ["dataset"])
                (fh_count nco)).

(** The body of the loop of [NetCDFCFOutputDriver.open_output_files]. *)
Definition NetCDFCF_open_product (self : Driver) (entry : string * OutputProduct)
  : M unit :=
  let '(prod_name, stat) := entry in
  let! output_filename := _prepare_output_file self stat [] in
  let! nco := _create_storage_unit self stat output_filename in
  modify (set_handles (dict_set prod_name (Leaf nco))).

Definition NetCDFCF_open_output_files (self : Driver) : M unit :=
  let! _ := for_each (NetCDFCF_open_product self) (_output_products self) in
  ret tt.

Definition NetCDFCF_write_data (self : Driver) (prod_name measurement_name : string)
    (tile_index : list (Z * Z)) (values : list Z) : M unit :=
  let! hs := gets handles in
  match dict_get prod_name hs with
  | None => raise (KeyError prod_name)
  | Some (Leaf nco) =>
      if bool_decide (measurement_name ∈ fh_variables nco)
      then write_item nco (Data measurement_name 0 ((0, 0)%Z :: tail tile_index) values)
      else raise IndexError
  | Some (Dict sub) =>
      match dict_get measurement_name sub with
      | None => raise (KeyError measurement_name)
      | Some _ => raise TypeError
      end
  end.

(** *** [GeotiffOutputDriver] *)

(** Truth value of an optional string argument. *)
Definition truthy (o : option string) : bool :=
  match o with
  | Some n => negb (PyStr.is_empty n)
  | None => false
  end.

(** [set(...)], as the distinct values in order of first occurrence. *)
Definition distinct {A} `{EqDecision A} (l : list A) : list A := remove_dups l.

Definition product_measurements (self : Driver) (out_prod_name : string)
  : M (list (string * Measurement)) :=
  match dict_get out_prod_name (_output_products self) with
  | Some stat => ret (measurements stat)
  | None => raise (KeyError out_prod_name)
  end.

(** [_get_dtype] *)
Definition _get_dtype (self : Driver) (out_prod_name : string)
    (measurement_name : option string) : M string :=
  if truthy measurement_name then
    let! ms := product_measurements self out_prod_name in
    match measurement_name ≫= (fun n => dict_get n ms) with
    | Some m => ret (dtype m)
    | None => raise (KeyError (default "" measurement_name))
    end
  else
    let! ms := product_measurements self out_prod_name in
    match distinct (map (fun m => dtype (snd m)) ms) with
    | [d] => ret d
    | _ => raise (StatsOutputError (DtypesDiffer out_prod_name))
    end.

(** [_get_nodata] *)
Definition _get_nodata (self : Driver) (prod_name : string)
    (measurement_name : option string) : M Z :=
  let! dtype := _get_dtype self prod_name measurement_name in
  let! nodata :=
    if truthy measurement_name then
      let! ms := product_measurements self prod_name in
      match measurement_name ≫= (fun n => dict_get n ms) with
      | Some m => ret (nodata m)
      | None => raise (KeyError (default "" measurement_name))
      end
    else
      let! ms := product_measurements self prod_name in
      match distinct (map (fun m => nodata (snd m)) ms) with
      | [n] => ret n
      | _ => raise (StatsOutputError (NodatasDiffer prod_name))
      end in
  if String.eqb dtype "uint8" && (nodata <? 0)%Z then ret 255%Z else ret nodata.

(** [self._storage['chunking'][short] if short in
    self._storage['chunking'] else self._storage['chunking'][long]] *)
Definition block_size (self : Driver) (short long : string) : M Tasks.Value :=
  let! chunking := of_option (KeyError "chunking") (Params.chunking (_storage self)) in
  match dict_get short chunking with
  | Some size => ret size
  | None => of_option (KeyError long) (dict_get long chunking)
  end.

(** [rasterio.open(str(output_filename), mode='w', **profile)] *)
Definition rasterio_open (output_filename : string) (profile : Profile) : M Handle :=
  match rasterio_refuses profile with
  | Some e => raise e
  | None => open_w Raster output_filename [] (profile_count profile)
  end.

(** [_open_geotiff] *)
Definition _open_geotiff (self : Driver) (prod_name : string)
    (measurement_name : option string) (output_filename : string) (num_bands : nat)
  : M Handle :=
  let! dtype := _get_dtype self prod_name measurement_name in
  let! nodata := _get_nodata self prod_name measurement_name in
  let! x_block_size := block_size self "x" "longitude" in
  let! y_block_size := block_size self "y" "latitude" in
  let! dest_fh :=
    rasterio_open output_filename
      (mkProfile x_block_size y_block_size dtype nodata num_bands) in
  do! write_item dest_fh (Tag 0 "created" (_app_info self)) in
  ret dest_fh.

(** [_set_band_metadata] *)
Definition _set_band_metadata (self : Driver) (dest_fh : Handle)
    (measurement_name : string) (band : nat) : M unit :=
  let '(start_date, end_date) := time_period (_task self) in
  do! write_item dest_fh (Tag band "source_product" (source_product_names (_task self))) in
  do! write_item dest_fh (Tag band "start_date" (format_date start_date)) in
  do! write_item dest_fh (Tag band "end_date" (format_date end_date)) in
  write_item dest_fh (Tag band "name" measurement_name).

(** [_open_single_band_geotiff] *)
Definition _open_single_band_geotiff (self : Driver) (prod_name : string)
    (stat : OutputProduct) (measurement_name : string) : M unit :=
  let! output_filename :=
    _prepare_output_file self stat [("var_name", measurement_name)] in
  let! dest_fh := _open_geotiff self prod_name (Some measurement_name) output_filename 1 in
  do! _set_band_metadata self dest_fh measurement_name 1 in
  let! hs := gets handles in
  match dict_get prod_name hs with
  | None =>
      modify (set_handles (dict_set prod_name (Dict [(measurement_name, Leaf dest_fh)])))
  | Some (Dict sub) =>
      modify (set_handles
                (dict_set prod_name (Dict (dict_set measurement_name (Leaf dest_fh) sub))))
  | Some (Leaf _) => raise TypeError
  end.

(** The local variables of [open_output_files] that are read in one
    iteration of its loop and assigned in another; [None]: unbound. *)
Record Locals := mkLocals {
  output_filename : option string;
  measurement_name : option string
}.

Definition read_local (variable : string) (v : option string) : M string :=
  of_option (UnboundLocalError variable) v.

(** The inner loops bind [measurement_name] to each name in turn. *)
Fixpoint for_measurements {A} (body : nat → string → M unit)
    (band : nat) (items : list (string * A)) (locals : Locals) : M Locals :=
  match items with
  | [] => ret locals
  | (name, _) :: rest =>
      do! body band name in
      for_measurements body (S band) rest
        (mkLocals (output_filename locals) (Some name))
  end.

(** One iteration of the loop of [GeotiffOutputDriver.open_output_files]. *)
Definition Geotiff_open_product (self : Driver) (locals : Locals)
    (prod_name : string) (stat : OutputProduct) : M Locals :=
  let! bound_filename := read_local "output_filename" (output_filename locals) in
  let! uri := as_uri bound_filename in
  let! datasets := lift (_find_source_datasets self stat uri) in
  let num_measurements := length (measurements stat) in
  if (num_measurements =? 0)%nat then raise ValueError
  else if (1 <? num_measurements)%nat
          && PyStr.contains "var_name" (file_path_template stat)
  then
    for_measurements
      (fun _ measurement_name =>
         _open_single_band_geotiff self prod_name stat measurement_name)
      1 (measurements stat) locals
  else
    let! bound_name := read_local "measurement_name" (measurement_name locals) in
    let! output_filename :=
      _prepare_output_file self stat [("var_name", bound_name)] in
    let! dest_fh := _open_geotiff self prod_name None output_filename num_measurements in
    let! locals' :=
      for_measurements
        (fun band measurement_name =>
           _set_band_metadata self dest_fh measurement_name band)
        1 (measurements stat)
        (mkLocals (Some output_filename) (measurement_name locals)) in
    do! modify (set_handles (dict_set prod_name (Leaf dest_fh))) in
    ret locals'.

Fixpoint Geotiff_open_loop (self : Driver) (locals : Locals)
    (products : list (string * OutputProduct)) : M unit :=
  match products with
  | [] => ret tt
  | (prod_name, stat) :: rest =>
      let! locals' := Geotiff_open_product self locals prod_name stat in
      Geotiff_open_loop self locals' rest
  end.

Definition Geotiff_open_output_files (self : Driver) : M unit :=
  Geotiff_open_loop self (mkLocals None None) (_output_products self).

(** [OutputDriver.write_data], the body of the abstract method *)
Definition OutputDriver_write_data (self : Driver) : M unit :=
  let! hs := gets handles in
  if (length hs <=? 0)%nat then raise (StatsOutputError NoFilesOpened) else ret tt.

(** [list(measurements).index(measurement_name)] *)
Fixpoint index_of {A} (name : string) (items : list (string * A)) : option nat :=
  match items with
  | [] => None
  | (n, _) :: rest => if String.eqb n name then Some 0 else S <$> index_of name rest
  end.

Definition Geotiff_write_data (self : Driver) (prod_name measurement_name : string)
    (tile_index : list (Z * Z)) (values : list Z) : M unit :=
  do! OutputDriver_write_data self in
  let! hs := gets handles in
  let! prod := of_option (KeyError prod_name) (dict_get prod_name hs) in
  let! target :=
    match prod with
    | Dict sub =>
        let! output_fh := of_option (KeyError measurement_name)
                            (dict_get measurement_name sub) in
        ret (output_fh, 1)
    | Leaf fh =>
        let! ms := product_measurements self prod_name in
        let! i := of_option ValueError (index_of measurement_name ms) in
        ret (Leaf fh, i + 1)
    end in
  match tile_index with
  | [t; y; x] =>
      let! dtype := _get_dtype self prod_name (Some measurement_name) in
      match fst target with
      | Leaf output_fh => write_item output_fh (Data measurement_name (snd target) [y; x] values)
      | Dict _ => raise AttributeError
      end
  | _ => raise ValueError
  end.

(** *** Dispatch on the class of [self] *)

Definition open_output_files (self : Driver) : M unit :=
  match cls self with
  | OutputDriver => raise NotImplementedError
  | NetCDFCFOutputDriver => NetCDFCF_open_output_files self
  | GeotiffOutputDriver | ENVIBILOutputDriver => Geotiff_open_output_files self
  | TestOutputDriver | XarrayOutputDriver => ret tt
  end.

Definition write_data (self : Driver) (prod_name measurement_name : string)
    (tile_index : list (Z * Z)) (values : list Z) : M unit :=
  match cls self with
  | OutputDriver => OutputDriver_write_data self
  | NetCDFCFOutputDriver =>
      NetCDFCF_write_data self prod_name measurement_name tile_index values
  | GeotiffOutputDriver | ENVIBILOutputDriver =>
      Geotiff_write_data self prod_name measurement_name tile_index values
  | TestOutputDriver | XarrayOutputDriver => ret tt
  end.

Definition __enter__ (self : Driver) : M Driver :=
  do! open_output_files self in ret self.

Definition __exit__ (self : Driver) (exc_type : option exn) : M unit :=
  let completed_successfully :=
    match exc_type with None => true | Some _ => false end in
  let! _ := close_files self completed_successfully in
  ret tt.

(** [with self: body]: [__exit__] returns nothing, so an exception of
    the body is raised again after it; an exception of [__enter__]
    skips both the body and [__exit__]. *)
Definition with_block {A} (self : Driver) (body : Driver → M A) : M A :=
  fun w =>
    match __enter__ self w with
    | (w1, Raise e) => (w1, Raise e)
    | (w1, Ok entered) =>
        match body entered w1 with
        | (w2, Ok a) =>
            match __exit__ self None w2 with
            | (w3, Ok _) => (w3, Ok a)
            | (w3, Raise e) => (w3, Raise e)
            end
        | (w2, Raise e) =>
            match __exit__ self (Some e) w2 with
            | (w3, Ok _) => (w3, Raise e)
            | (w3, Raise e') => (w3, Raise e')
            end
        end
    end.

End WithExternals.

End Drivers.

(** ** Sample configurations, on which the operations are run *)

Module Samples.
Import Py Tasks.

Definition one_tile : Tile := mkTile [(1%Z, [7])] "geobox".

(** Every product has one cell at tile (0, 0); nothing is restricted
    in time or filtered. *)
Definition plain : Tasks.Externals := {|
  crs_dimensions := fun _ => Ok ["y"; "x"];
  filter_time_by_source := fun _ time_period => Some time_period;
  multi_product_list_cells := fun products _ _ _ _ _ _ =>
    Ok (map (fun _ => [((0, 0)%Z, one_tile)]) products, [0]);
  make_arbitrary_tile := fun _ _ _ _ => Ok one_tile;
  get_filter_product := fun _ _ _ _ => Ok ([IdStr "a"; IdStr "b"], []);
  strftime_day := fun _ => "day";
  strftime_second := fun _ => "second"
|}.

Definition storage_without_tile_size : list (string * Value) :=
  [("crs", VStr "EPSG:3577");
   ("resolution", VDict [("x", VNum 25); ("y", VNum (-25))])].

Definition spec_with_mask : SourceSpec :=
  mkSourceSpec "ls8_nbar" None None None (Some [mkMaskSpec "ls8_pq"]).

Definition spec_without_masks : SourceSpec :=
  mkSourceSpec "ls8_nbar" None None None None.

(** Times 1, 2 and 3 are formatted differently; the filter keeps the
    third only. *)
Definition tide : Tasks.Externals := {|
  crs_dimensions := fun _ => Ok ["y"; "x"];
  filter_time_by_source := fun _ time_period => Some time_period;
  multi_product_list_cells := fun products _ _ _ _ _ _ =>
    Ok (map (fun _ => [((0, 0)%Z, one_tile)]) products, [0]);
  make_arbitrary_tile := fun _ _ _ _ => Ok one_tile;
  get_filter_product := fun _ _ _ _ =>
    Ok ([IdStr "low"; IdStr "tide"], ["1970-01-01T00:00:03"]);
  strftime_day := fun _ => "1970-01-01";
  strftime_second := fun z =>
    if (z =? 1)%Z then "1970-01-01T00:00:01"
    else if (z =? 2)%Z then "1970-01-01T00:00:02"
    else "1970-01-01T00:00:03"
|}.

Definition by_tide_height : NonGridded :=
  mkNonGridded (Some [("method", "by_tide_height")]) None.

Definition pq_tile : Tile := mkTile [(1%Z, [9])] "geobox".

(** Two tiles, (1, 2) and (3, 4), with cells of every product but
    [ls8_pq], which has a cell at (3, 4) only. *)
Definition tiled : Tasks.Externals := {|
  crs_dimensions := fun _ => Ok ["y"; "x"];
  filter_time_by_source := fun _ time_period => Some time_period;
  multi_product_list_cells := fun products _ _ _ _ _ _ =>
    Ok (map (fun product =>
               if String.eqb product "ls8_pq" then [((3, 4)%Z, pq_tile)]
               else [((1, 2)%Z, one_tile); ((3, 4)%Z, one_tile)]) products, [0]);
  make_arbitrary_tile := fun _ _ _ _ => Ok one_tile;
  get_filter_product := fun _ _ _ _ => Ok ([IdStr "a"; IdStr "b"], []);
  strftime_day := fun _ => "day";
  strftime_second := fun _ => "second"
|}.

Definition spec_with_two_masks : SourceSpec :=
  mkSourceSpec "ls8_nbar" None None None (Some [mkMaskSpec "ls8_pq"; mkMaskSpec "ls8_fmask"]).

(** A grid over which everything is asked for at once. *)
Definition whole_grid : Gridded :=
  mkGridded (mkGridSpec (VStr "EPSG:3577") [VNum 100000; VNum 100000]
                        [VNum (-25); VNum 25])
            None None.

Definition no_filter : NonGridded := mkNonGridded None None.

Definition source_at (t : Z) (i : nat) : DataSource :=
  mkDataSource (mkTile [(t, [i])] "geobox") [] spec_without_masks i.

(** Three sources, of which the filter keeps the third only. *)
Definition three_sources : StatsTask :=
  mkStatsTask (0, 10)%Z [("feature_id", IdStr "(none)")] None
    [source_at 1 0; source_at 2 1; source_at 3 2].

(** Two sources, none of which the filter keeps. *)
Definition two_sources : StatsTask :=
  mkStatsTask (0, 10)%Z [("feature_id", IdStr "(none)")] None
    [source_at 1 0; source_at 2 1].

Definition grid_of_one_tile : Gridded :=
  mkGridded (mkGridSpec (VStr "EPSG:3577") [VNum 100000; VNum 100000]
                        [VNum (-25); VNum 25])
            None (Some [(0, 0)%Z]).

(** *** Drivers *)

(** Path templates without placeholders format to themselves; the
    libraries take what they are given, and two datasets are found for
    every product. *)
Definition literal : Drivers.Externals := {|
  Drivers.str_format := fun template _ _ _ => template;
  Drivers.format_date := fun _ => "1970-01-01";
  Drivers.gdal_translate := fun c => Some c;
  Drivers._find_source_datasets := fun _ _ _ => Ok [7; 8]%Z;
  Drivers.netcdf_refuses := fun _ _ => None;
  Drivers.rasterio_refuses := fun _ => None
|}.

(** The same, with a [gdal_translate] that exits with an error. *)
Definition failing_gdal : Drivers.Externals := {|
  Drivers.str_format := fun template _ _ _ => template;
  Drivers.format_date := fun _ => "1970-01-01";
  Drivers.gdal_translate := fun _ => None;
  Drivers._find_source_datasets := fun _ _ _ => Ok [7; 8]%Z;
  Drivers.netcdf_refuses := fun _ _ => None;
  Drivers.rasterio_refuses := fun _ => None
|}.

(** Chunk sizes for the three dimensions of the files. *)
Definition chunked : Params.Storage :=
  Params.mkStorage (Some [("x", VNum 200); ("y", VNum 200); ("time", VNum 1)])
    (Some ["time"; "y"; "x"]).

(** An output product with the template of its path and the
    measurements of its product; no parameters of its own. *)
Definition product_at (template : string)
    (measurements : list (string * Drivers.Measurement)) : Drivers.OutputProduct :=
  Drivers.mkOutputProduct template measurements [] [].

Definition float_measure : Drivers.Measurement := Drivers.mkMeasurement "float32" (-999).

Definition task_of (products : list (string * Drivers.OutputProduct)) : Drivers.Task :=
  Drivers.mkTask (0, 0)%Z (0, 10)%Z "ls8_nbar" products.

(** One product, two measurements of one dtype and one no-data value,
    one file. *)
Definition two_bands : Drivers.OutputProduct :=
  product_at "/out/stats.tif" [("mean", float_measure); ("max", float_measure)].

Definition driver_of (c : Registry.DriverClass)
    (products : list (string * Drivers.OutputProduct)) : Drivers.Driver :=
  Drivers.mkDriver c chunked "" "datacube-stats" (task_of products).

Definition empty_world : World := mkWorld ∅ ∅ ∅ [] 0 [] [].

Definition whole_tile : list (Z * Z) := [(0, 1); (0, 4000); (0, 4000)]%Z.

(** One product of the NetCDF driver and what [open_output_files]
    leaves in an empty world: the file [/out/stats.nc.tmp], open. *)
Definition nc_product : Drivers.OutputProduct :=
  product_at "/out/stats.nc" [("mean", float_measure)].

Definition nc_driver : Drivers.Driver :=
  driver_of Registry.NetCDFCFOutputDriver [("stats", nc_product)].

Definition nc_opened : World :=
  fst (@Drivers.open_output_files literal nc_driver empty_world).

(** The finished output of [nc_product] is there already. *)
Definition nc_finished : World :=
  mkWorld {["/out/stats.nc" := [Data "dataset" 0 [] []]]} {["/out"]} ∅ [] 0 [] [].

(** A file with the extension of the GeoTiff driver is there. *)
Definition tif_finished : World :=
  mkWorld {["/out/stats.tif" := []]} {["/out"]} ∅ [] 0 [] [].

(** A body that writes one tile and then fails. *)
Definition failing_body (d : Drivers.Driver) : M unit :=
  bind (Drivers.write_data d "stats" "mean" whole_tile [1%Z]) (fun _ => raise ValueError).

(** A body that closes the dataset of the product itself and then
    fails. *)
Definition closing_body (d : Drivers.Driver) : M unit :=
  bind (close (mkHandle 0 Dataset "/out/stats.nc.tmp" ["mean"; "dataset"] 0))
       (fun _ => raise ValueError).

(** The ENVI driver with one open file, as [_open_geotiff] and the
    assignment after it leave it. *)
Definition envi_driver : Drivers.Driver :=
  driver_of Registry.ENVIBILOutputDriver
    [("stats", product_at "/out/stats.bil" [("mean", float_measure)])].

Definition envi_opened : World :=
  mkWorld {["/out/stats.bil.tmp" := [Tag 0 "created" "datacube-stats"]]} {["/out"]}
          {[0%nat]} [] 1 []
          [("stats", Leaf (mkHandle 0 Raster "/out/stats.bil.tmp" [] 1))].

(** The GeoTiff driver with one file per measurement, as
    [_open_single_band_geotiff] leaves the dictionary. *)
Definition per_measurement_opened : World :=
  mkWorld {["/out/mean.tif.tmp" := []; "/out/max.tif.tmp" := []]} {["/out"]}
          {[0%nat; 1%nat]} [] 2 []
          [("stats", Dict [("mean", Leaf (mkHandle 0 Raster "/out/mean.tif.tmp" [] 1));
                           ("max", Leaf (mkHandle 1 Raster "/out/max.tif.tmp" [] 1))])].

End Samples.

(** ** Choosing the task generator ([select_task_generator]) *)

Module Select.
Import Py Tasks.

(** The [input_region] of the configuration; [None] is a key that is
    absent, [limits] are the items under any other key. *)
Record InputRegion := mkInputRegion {
  geometry : option string;
  tile : option (Z * Z);
  tiles : option (list (Z * Z));
  from_file : option string;
  region_feature_id : option string;
  gridded : option bool;
  limits : list (string * string)
}.

(** [input_region == {}] *)
Definition is_empty_region (r : InputRegion) : bool :=
  match r with
  | mkInputRegion None None None None None None [] => true
  | _ => false
  end.

(** What [select_task_generator] returns: an instance of one of the two
    generator classes, with the arguments of its constructor. *)
Inductive TaskGenerator :=
| GriddedTaskGenerator (self : Gridded)
| NonGriddedTaskGenerator (input_region : option InputRegion)
    (storage : list (string * Value)) (self : NonGridded).

(** What the function calls outside [tasks.py]. *)
Class Externals := {
  (** [Geometry(geojson, CRS('EPSG:4326'))] *)
  Geometry : string → result string;
  (** [utils.tide_utility.features_from_file(filename, feature_id)] *)
  features_from_file : string → option string → result (list (option Feature));
  (** [boundary_polygon_from_file], which reads the file with [fiona]
      and [shapely] *)
  boundary_polygon_from_file : string → result string
}.

Section WithExternals.
Context `{Tasks.Externals} `{Externals}.

(** [GriddedTaskGenerator.__init__] *)
Definition Gridded_init (storage : list (string * Value)) (geopolygon : option string)
    (tile_indexes : option (list (Z * Z))) : result Gridded :=
  rbind (_make_grid_spec storage) (fun grid_spec =>
  Ok (mkGridded grid_spec geopolygon tile_indexes)).

(** [select_task_generator] *)
Definition select_task_generator (input_region : option InputRegion)
    (storage : list (string * Value)) (filter_product : option (list (string * string)))
  : result TaskGenerator :=
  match input_region with
  | None => rbind (Gridded_init storage None None) (fun g => Ok (GriddedTaskGenerator g))
  | Some region =>
      if is_empty_region region
      then rbind (Gridded_init storage None None) (fun g => Ok (GriddedTaskGenerator g))
      else
        match geometry region with
        | Some geojson =>
            rbind (Geometry geojson) (fun geometry =>
            rbind (Gridded_init storage (Some geometry) (tiles region)) (fun g =>
            Ok (GriddedTaskGenerator g)))
        | None =>
            match tile region with
            | Some index =>
                rbind (Gridded_init storage None (Some [index])) (fun g =>
                Ok (GriddedTaskGenerator g))
            | None =>
                match tiles region with
                | Some indexes =>
                    rbind (Gridded_init storage None (Some indexes)) (fun g =>
                    Ok (GriddedTaskGenerator g))
                | None =>
                    match from_file region with
                    | Some filename =>
                        if bool_decide (is_Some (region_feature_id region))
                           || bool_decide (gridded region = Some false)
                        then
                          rbind (features_from_file filename (region_feature_id region))
                                (fun features =>
                          Ok (NonGriddedTaskGenerator input_region storage
                                (mkNonGridded filter_product (Some features))))
                        else
                          rbind (boundary_polygon_from_file filename) (fun geometry =>
                          rbind (Gridded_init storage (Some geometry) None) (fun g =>
                          Ok (GriddedTaskGenerator g)))
                    | None =>
                        Ok (NonGriddedTaskGenerator input_region storage
                              (mkNonGridded filter_product None))
                    end
                end
            end
        end
  end.

End WithExternals.

End Select.

(** ** What the loops of the generators keep *)

Module Grouping.
Import Py Tasks.

Section WithExternals.
Context `{Externals}.

(** What holds of the entry for [tile] in the dictionary of
    [collect_tasks] for [time_period]: it is identified by the tile, has
    no feature, has the time range of the spec of its first source, and
    every source carries the position of its spec in [sources_spec]. *)
Definition grouped (sources_spec : list SourceSpec) (time_period : Z * Z)
    (tile : Z * Z) (t : StatsTask) : Prop :=
  spatial_id t = [("x", IdNum (fst tile)); ("y", IdNum (snd tile))]
  ∧ task_feature t = None
  ∧ (∃ d rest, sources t = d :: rest
       ∧ filter_time_by_source (time (ds_spec d)) time_period = Some (task_time_period t))
  ∧ Forall (fun d => sources_spec !! ds_source_index d = Some (ds_spec d)) (sources t).

(** [tile] is a key of the cells that the batched query returns for
    the primary product of one of [sources_spec]. *)
Definition returned_for (self : Gridded) (time_period : Z * Z)
    (tile_index : option (Z * Z)) (sources_spec : list SourceSpec) (tile : Z * Z) : Prop :=
  ∃ source_spec ep_range data mask_cells unmatched,
    source_spec ∈ sources_spec
    ∧ filter_time_by_source (time source_spec) time_period = Some ep_range
    ∧ multi_product_list_cells
        (product source_spec :: map mask_product (spec_masks source_spec))
        (grid_spec self) (source_filter source_spec) tile_index ep_range
        (default DEFAULT_GROUP_BY (group_by source_spec)) (geopolygon self)
      = Ok (data :: mask_cells, unmatched)
    ∧ tile ∈ map fst data.

(** The dictionary of [collect_tasks]: one entry per tile. *)
Definition acc_ok (sources_spec : list SourceSpec) (time_period : Z * Z)
    (tasks : list (Z * Z * StatsTask)) : Prop :=
  NoDup (map fst tasks)
  ∧ Forall (fun kt => grouped sources_spec time_period (fst kt) (snd kt)) tasks.

(** What holds of the task of [feature] and [time_period] in
    [NonGriddedTaskGenerator.__call__]. *)
Definition regional (sources_spec : list SourceSpec) (feature : option Feature)
    (time_period : Z * Z) (t : StatsTask) : Prop :=
  task_time_period t = time_period
  ∧ task_feature t = feature
  ∧ Forall (fun d => sources_spec !! ds_source_index d = Some (ds_spec d)) (sources t).

End WithExternals.

End Grouping.

(** ** The sources that [set_task] keeps *)

Module Filtering.
Import Py Tasks.

Section WithExternals.
Context `{Externals}.

(** The format in which [set_task] compares the times of a source with
    [filtered_times], by the method of the filter product; [None] for a
    method that is neither of the two. *)
Definition date_format (method : option string) : option (Z → string) :=
  if bool_decide (method = Some "by_hydrological_months") then Some strftime_day
  else if bool_decide (method = Some "by_tide_height") then Some strftime_second
  else None.

(** A source with a time among [filtered_times]. *)
Definition retained (fmt : Z → string) (filtered_times : list string)
    (sr : DataSource) : bool :=
  intersects (map fmt (times (ds_data sr))) filtered_times.

(** The source with only those of its times that are among
    [filtered_times]. *)
Definition narrowed (fmt : Z → string) (filtered_times : list string)
    (sr : DataSource) : DataSource :=
  set_data sr
    (mkTile (filter (fun x => fmt (fst x) ∈ filtered_times) (tile_sources (ds_data sr)))
            (tile_geobox (ds_data sr))).

(** The positions, counted from [i], of the sources that are not
    retained. *)
Fixpoint unretained (fmt : Z → string) (filtered_times : list string) (i : nat)
    (l : list DataSource) : list nat :=
  match l with
  | [] => []
  | sr :: rest =>
      (if retained fmt filtered_times sr then [] else [i])
      ++ unretained fmt filtered_times (S i) rest
  end.

End WithExternals.

End Filtering.

(** ** What a driver leaves of the handles and the files *)

Module Frames.
Import Py Drivers.

(** Nothing is closed, no call of [close_files] is made and the
    dictionary of handles is as it was. *)
Definition opening_frame (w w' : World) : Prop :=
  calls w' = calls w ∧ close_calls w' = close_calls w
  ∧ handles w' = handles w
  ∧ (next_fh w ≤ next_fh w')%nat
  ∧ ∀ i, i ∈ open_fhs w → i ∈ open_fhs w'.

(** Every handle that is a value of the dictionary is open. *)
Definition handles_open (w : World) : Prop :=
  ∀ fh, fh ∈ top_leaves (handles w) → fh_id fh ∈ open_fhs w.

(** Nothing is closed and no call of [close_files] is made; the handles
    of the dictionary are open if they were. *)
Definition opened (w w' : World) : Prop :=
  calls w' = calls w ∧ close_calls w' = close_calls w
  ∧ (∀ i, i ∈ open_fhs w → i ∈ open_fhs w')
  ∧ (handles_open w → handles_open w').

(** No handle is opened or closed. *)
Definition closing_frame (w w' : World) : Prop :=
  open_fhs w' = open_fhs w ∧ close_calls w' = close_calls w.

(** Files only grow: every file keeps what it held, no file appears or
    goes, and nothing else changes. *)
Definition appends_only (w w' : World) : Prop :=
  dirs w' = dirs w ∧ open_fhs w' = open_fhs w ∧ close_calls w' = close_calls w
  ∧ handles w' = handles w ∧ calls w' = calls w
  ∧ ∀ p, match files w !! p with
         | Some c => ∃ more, files w' !! p = Some (c ++ more)
         | None => files w' !! p = None
         end.

End Frames.

(** ** Further sample configurations *)

Module MoreSamples.
Import Py Tasks Samples.

(** No source has data in any time period, and every query fails. *)
Definition out_of_range : Tasks.Externals := {|
  crs_dimensions := fun _ => Raise ValueError;
  filter_time_by_source := fun _ _ => None;
  multi_product_list_cells := fun _ _ _ _ _ _ _ => Raise ValueError;
  make_arbitrary_tile := fun _ _ _ _ => Raise ValueError;
  get_filter_product := fun _ _ _ _ => Raise ValueError;
  strftime_day := fun _ => "";
  strftime_second := fun _ => ""
|}.

(** Two sources, of which the filter keeps the second only. *)
Definition one_to_remove : StatsTask :=
  mkStatsTask (0, 10)%Z [("feature_id", IdStr "(none)")] None
    [source_at 1 0; source_at 3 1].

(** A filter product whose method [set_task] does not know. *)
Definition by_season : NonGridded := mkNonGridded (Some [("method", "by_season")]) None.

Definition full_storage : list (string * Value) :=
  [("crs", VStr "EPSG:3577");
   ("tile_size", VDict [("x", VNum 100000); ("y", VNum 100000)]);
   ("resolution", VDict [("x", VNum 25); ("y", VNum (-25))])].

Definition no_files : Select.Externals := {|
  Select.Geometry := fun geojson => Ok geojson;
  Select.features_from_file := fun _ _ => Ok [];
  Select.boundary_polygon_from_file := fun _ => Ok "hull"
|}.

(** A region given by limits of latitude and longitude. *)
Definition lat_lon : Select.InputRegion :=
  Select.mkInputRegion None None None None None None [("lat", "-35"); ("lon", "149")].

(** Chunk sizes for the two dimensions of space, and none for the time
    dimension. *)
Definition chunked_in_space : Params.Storage :=
  Params.mkStorage (Some [("x", VNum 200); ("y", VNum 200)]) (Some ["time"; "y"; "x"]).

Definition compressed_mean : Params.DataMeasurement :=
  Params.mkDataMeasurement (Some "mean") [("dtype", VStr "float32"); ("zlib", VNum 1)].

(** *** Drivers *)

(** Nothing but the output directory. *)
Definition out_dir : World := mkWorld ∅ {["/out"]} ∅ [] 0 [] [].

(** The NetCDF driver with an output path that is relative. *)
Definition relative_driver : Drivers.Driver :=
  driver_of Registry.NetCDFCFOutputDriver
    [("stats", product_at "out/stats.nc" [("mean", float_measure)])].

(** The NetCDF driver with two products, the second of which is
    [nc_product]. *)
Definition two_products_driver : Drivers.Driver :=
  driver_of Registry.NetCDFCFOutputDriver
    [("first", product_at "/out/first.nc" [("mean", float_measure)]);
     ("stats", nc_product)].

Definition tif_driver : Drivers.Driver :=
  driver_of Registry.GeotiffOutputDriver [("stats", two_bands)].


(** A body that writes one tile. *)
Definition write_mean (d : Drivers.Driver) : M unit :=
  Drivers.write_data d "stats" "mean" whole_tile [1%Z].

(** Four sources, of which the filter keeps the second and the fourth. *)
Definition four_sources : StatsTask :=
  mkStatsTask (0, 10)%Z [("feature_id", IdStr "(none)")] None
    [source_at 1 0; source_at 3 1; source_at 2 2; source_at 3 3].

(** A file is where the directory of the output would be. *)
Definition parent_is_a_file : World :=
  mkWorld {["/out" := []]} ∅ ∅ [] 0 [] [].

End MoreSamples.

(** * Properties *)

Module RegistryFacts.
Import Registry.

Lemma stripped_names :
  map stripped_name class_statements
  = [""; "NetCDFCF"; "Geotiff"; "ENVIBIL"; "Test"; "Xarray"].
Proof. reflexivity. Qed.

Lemma class_name_suffix cls :
  class_name cls = stripped_name cls +:+ "OutputDriver".
Proof. destruct cls; reflexivity. Qed.

Lemma RegisterDriver_new_registers reg cls :
  stripped_name cls ≠ "" →
  RegisterDriver_new reg cls !! stripped_name cls = Some cls.
Proof.
  intros Hne. unfold RegisterDriver_new.
  destruct (stripped_name cls) eqn:E; [done|]. cbn [PyStr.is_empty].
  apply lookup_insert_eq.
Qed.

Lemma RegisterDriver_new_base reg :
  RegisterDriver_new reg OutputDriver = reg.
Proof. reflexivity. Qed.

Lemma registry_after_S n cls :
  class_statements !! n = Some cls →
  registry_after (S n) = RegisterDriver_new (registry_after n) cls.
Proof.
  intros H. unfold registry_after.
  rewrite (take_S_r _ _ _ H), fold_left_app. reflexivity.
Qed.

Lemma RegisterDriver_new_entries_ok reg cls :
  entries_ok reg → entries_ok (RegisterDriver_new reg cls).
Proof.
  intros Hreg k c. unfold RegisterDriver_new.
  destruct (PyStr.is_empty (stripped_name cls)) eqn:E; [apply Hreg|].
  rewrite lookup_insert. case_decide as Hk; [|apply Hreg].
  intros [= <-]. split; [|done]. intros ->. discriminate E.
Qed.

Lemma fold_entries_ok l reg :
  entries_ok reg → entries_ok (fold_left RegisterDriver_new l reg).
Proof.
  revert reg. induction l as [|c l IH]; intros reg H; [done|].
  cbn [fold_left]. apply IH. by apply RegisterDriver_new_entries_ok.
Qed.

Lemma registry_after_entries_ok n : entries_ok (registry_after n).
Proof. apply fold_entries_ok. intros k c. by rewrite lookup_empty. Qed.

Lemma registry_after_ge n :
  (length class_statements ≤ n)%nat → registry_after n = OUTPUT_DRIVERS.
Proof.
  intros H. unfold OUTPUT_DRIVERS, registry_after.
  by rewrite !firstn_all2 by lia.
Qed.

Ltac chain :=
  unfold OUTPUT_DRIVERS, registry_after;
  cbn [length class_statements firstn fold_left];
  unfold RegisterDriver_new;
  change (stripped_name OutputDriver) with "";
  change (stripped_name NetCDFCFOutputDriver) with "NetCDFCF";
  change (stripped_name GeotiffOutputDriver) with "Geotiff";
  change (stripped_name ENVIBILOutputDriver) with "ENVIBIL";
  change (stripped_name TestOutputDriver) with "Test";
  change (stripped_name XarrayOutputDriver) with "Xarray";
  cbn [PyStr.is_empty].

Lemma registry_after_chain :
  registry_after 1 = ∅
  ∧ registry_after 2 = <["NetCDFCF" := NetCDFCFOutputDriver]> (registry_after 1)
  ∧ registry_after 3 = <["Geotiff" := GeotiffOutputDriver]> (registry_after 2)
  ∧ registry_after 4 = <["ENVIBIL" := ENVIBILOutputDriver]> (registry_after 3)
  ∧ registry_after 5 = <["Test" := TestOutputDriver]> (registry_after 4)
  ∧ OUTPUT_DRIVERS = <["Xarray" := XarrayOutputDriver]> (registry_after 5).
Proof. chain. repeat split. Qed.

Ltac look :=
  chain;
  repeat first [rewrite lookup_insert_eq | rewrite lookup_insert_ne by done
               | rewrite lookup_empty];
  reflexivity.

Lemma OUTPUT_DRIVERS_lookups :
  OUTPUT_DRIVERS !! "NetCDFCF" = Some NetCDFCFOutputDriver
  ∧ OUTPUT_DRIVERS !! "Geotiff" = Some GeotiffOutputDriver
  ∧ OUTPUT_DRIVERS !! "ENVIBIL" = Some ENVIBILOutputDriver
  ∧ OUTPUT_DRIVERS !! "Test" = Some TestOutputDriver
  ∧ OUTPUT_DRIVERS !! "Xarray" = Some XarrayOutputDriver.
Proof. repeat split; look. Qed.

Lemma stripped_name_nonempty cls : cls ≠ OutputDriver → stripped_name cls ≠ "".
Proof. intros Hcls. destruct cls; [by destruct Hcls|..]; discriminate. Qed.

Lemma not_yet_registered cls :
  cls ≠ OutputDriver →
  registry_after (statement_index cls) !! stripped_name cls = None.
Proof.
  intros Hcls. destruct cls; [by destruct Hcls|..]; cbn [statement_index]; look.
Qed.

Lemma registered_finally cls :
  cls ≠ OutputDriver → OUTPUT_DRIVERS !! stripped_name cls = Some cls.
Proof. intros Hcls. destruct cls; [by destruct Hcls|..]; look. Qed.

Lemma registered_from_statement cls n :
  cls ≠ OutputDriver → (statement_index cls < n)%nat →
  registry_after n !! stripped_name cls = Some cls.
Proof.
  intros Hcls Hn.
  destruct (decide (length class_statements ≤ n)%nat) as [Hge|Hlt].
  - rewrite registry_after_ge by done. by apply registered_finally.
  - cbn [length class_statements] in Hlt.
    destruct cls; [by destruct Hcls|..]; cbn [statement_index] in Hn;
      do 6 (destruct n as [|n]; [first [lia | look]|]); lia.
Qed.

Lemma OUTPUT_DRIVERS_entries_ok k c :
  OUTPUT_DRIVERS !! k = Some c → c ≠ OutputDriver ∧ stripped_name c = k.
Proof. unfold OUTPUT_DRIVERS. apply registry_after_entries_ok. Qed.

Lemma stripped_name_cases c :
  c ≠ OutputDriver →
  stripped_name c ∈ ["NetCDFCF"; "Geotiff"; "ENVIBIL"; "Test"; "Xarray"].
Proof.
  intros Hb. destruct c; [by destruct Hb| ..].
  all: change (stripped_name NetCDFCFOutputDriver) with "NetCDFCF";
    change (stripped_name GeotiffOutputDriver) with "Geotiff";
    change (stripped_name ENVIBILOutputDriver) with "ENVIBIL";
    change (stripped_name TestOutputDriver) with "Test";
    change (stripped_name XarrayOutputDriver) with "Xarray".
  all: repeat first [apply list_elem_of_here | apply list_elem_of_further].
Qed.

Lemma OUTPUT_DRIVERS_keys k :
  is_Some (OUTPUT_DRIVERS !! k)
  ↔ k ∈ ["NetCDFCF"; "Geotiff"; "ENVIBIL"; "Test"; "Xarray"].
Proof.
  split.
  - intros [c Hc]. apply OUTPUT_DRIVERS_entries_ok in Hc as [Hb <-].
    by apply stripped_name_cases.
  - destruct OUTPUT_DRIVERS_lookups as (L1 & L2 & L3 & L4 & L5).
    rewrite !elem_of_cons, elem_of_nil.
    intros [->|[->|[->|[->|[->|[]]]]]];
      [rewrite L1|rewrite L2|rewrite L3|rewrite L4|rewrite L5];
      eapply mk_is_Some; reflexivity.
Qed.

(** C10: each of the five subclasses is in the registry from its own
    class statement on, under its class name without the
    ['OutputDriver'] suffix, the registry holds exactly these five
    names, and [OutputDriver] itself (stripped name empty) is at no time
    registered under any name. *)
Theorem C10_registry_contents :
  (∀ cls, cls ≠ OutputDriver →
      class_name cls = stripped_name cls +:+ "OutputDriver"
      ∧ stripped_name cls ≠ ""
      ∧ registry_after (statement_index cls) !! stripped_name cls = None
      ∧ ∀ n, (statement_index cls < n)%nat →
             registry_after n !! stripped_name cls = Some cls)
  ∧ stripped_name OutputDriver = ""
  ∧ (∀ n k, registry_after n !! k ≠ Some OutputDriver)
  ∧ OUTPUT_DRIVERS !! "NetCDFCF" = Some NetCDFCFOutputDriver
  ∧ OUTPUT_DRIVERS !! "Geotiff" = Some GeotiffOutputDriver
  ∧ OUTPUT_DRIVERS !! "ENVIBIL" = Some ENVIBILOutputDriver
  ∧ OUTPUT_DRIVERS !! "Test" = Some TestOutputDriver
  ∧ OUTPUT_DRIVERS !! "Xarray" = Some XarrayOutputDriver
  ∧ (∀ k, is_Some (OUTPUT_DRIVERS !! k)
          ↔ k ∈ ["NetCDFCF"; "Geotiff"; "ENVIBIL"; "Test"; "Xarray"]).
Proof.
  split; [|split; [reflexivity|split]].
  - intros cls Hcls. split; [apply class_name_suffix|].
    split; [by apply stripped_name_nonempty|].
    split; [by apply not_yet_registered|].
    intros n Hn. by apply registered_from_statement.
  - intros n k H. by destruct (registry_after_entries_ok n k _ H).
  - destruct OUTPUT_DRIVERS_lookups as (L1 & L2 & L3 & L4 & L5).
    do 5 (split; [assumption|]). apply OUTPUT_DRIVERS_keys.
Qed.

End RegistryFacts.

Module TasksFacts.
Import Py Tasks.

Lemma gen_for_yields {A B} (body : A → Gen B) (l : list A) (y : B) :
  y ∈ fst (gen_for body l) → ∃ a, a ∈ l ∧ y ∈ fst (body a).
Proof.
  induction l as [|a l IH]; cbn [gen_for].
  - cbn. by intros ?%elem_of_nil.
  - destruct (body a) as [ys [e|]] eqn:E.
    + cbn. intros Hy. exists a. rewrite E. split; [left|done].
    + destruct (gen_for body l) as [zs r]. cbn [fst] in *.
      intros [Hy|Hy]%elem_of_app.
      * exists a. rewrite E. split; [left|done].
      * destruct (IH Hy) as (a' & Ha' & Hy'). exists a'. split; [by right|done].
Qed.

Lemma yield_all_yields {A} (r : result (list A)) (y : A) :
  y ∈ fst (yield_all r) → ∃ l, r = Ok l ∧ y ∈ l.
Proof.
  destruct r as [l|e]; cbn.
  - intros Hy. by exists l.
  - by intros ?%elem_of_nil.
Qed.

Section WithExternals.
Context `{Externals}.

(** C8: a storage description without the key ['tile_size'] makes
    [_make_grid_spec] fail, whatever else it holds; the failure is the
    [AssertionError] of its first statement. *)
Theorem C8_missing_tile_size_fails (storage : list (string * Value)) :
  dict_get "tile_size" storage = None →
  _make_grid_spec storage = Raise AssertionError.
Proof.
  intros Habsent. unfold _make_grid_spec. rewrite Habsent.
  rewrite bool_decide_eq_false_2; [reflexivity|].
  intros [v Hv]. discriminate Hv.
Qed.

(** *** The gridded generator *)

Lemma append_source_inv self time_period tile_index tile t d :
  spatial_id t = [("x", IdNum (fst tile)); ("y", IdNum (snd tile))] →
  Forall (masks_looked_up_in_order self time_period tile_index tile) (sources t) →
  masks_looked_up_in_order self time_period tile_index tile d →
  Inv self time_period tile_index tile (append_source t d).
Proof.
  intros Hid Ht Hd. split; [|split]; cbn.
  - intros Hnil. by apply app_eq_nil in Hnil as [_ ?].
  - done.
  - apply Forall_app. split; [done|]. by constructor.
Qed.

Lemma add_source_inv self time_period tile_index tile fresh d tasks :
  sources fresh = [] →
  spatial_id fresh = [("x", IdNum (fst tile)); ("y", IdNum (snd tile))] →
  masks_looked_up_in_order self time_period tile_index tile d →
  Forall (fun kt => Inv self time_period tile_index (fst kt) (snd kt)) tasks →
  Forall (fun kt => Inv self time_period tile_index (fst kt) (snd kt))
         (add_source tile fresh d tasks).
Proof.
  intros Hfresh Hid Hd.
  induction 1 as [|[k t] rest (Hne & Hk & Ht) Hrest IH]; cbn [add_source].
  - constructor; [|constructor]. cbn [fst snd]. apply append_source_inv; [done| |done].
    rewrite Hfresh. constructor.
  - case_bool_decide as Hkey.
    + constructor; [|done]. cbn [fst snd] in *. subst k. by apply append_source_inv.
    + constructor; [by split|done].
Qed.

Lemma collect_source_inv self time_period tile_index i source_spec acc acc' :
  Forall (fun kt => Inv self time_period tile_index (fst kt) (snd kt)) (fst acc) →
  collect_source self time_period tile_index i source_spec acc = Ok acc' →
  Forall (fun kt => Inv self time_period tile_index (fst kt) (snd kt)) (fst acc').
Proof.
  intros Hacc. unfold collect_source.
  destruct (filter_time_by_source _ _) as [ep_range|] eqn:Erange; [|by intros [= <-]].
  destruct (multi_product_list_cells _ _ _ _ _ _ _) as [[cells unmatched_]|e] eqn:Eq;
    [|discriminate]. cbn [rbind].
  destruct cells as [|data mask_cells]; [discriminate|].
  destruct unmatched_ as [|count rest]; [discriminate|].
  intros [= <-]. cbn [fst].
  assert (G : ∀ cells tasks,
    Forall (fun kt => Inv self time_period tile_index (fst kt) (snd kt)) tasks →
    Forall (fun kt => Inv self time_period tile_index (fst kt) (snd kt))
      (fold_left
         (fun tasks '(tile, sources) =>
            add_source tile
              (new_task ep_range [("x", IdNum (fst tile)); ("y", IdNum (snd tile))] None)
              (mkDataSource sources (map (fun mask => cell_get tile mask) mask_cells)
                 source_spec i) tasks) cells tasks)).
  { induction cells as [|[tile srcs] cells IH]; intros tasks Ht; [done|].
    cbn [fold_left]. apply IH. apply add_source_inv; [done|done| |done].
    exists ep_range, data, mask_cells, (count :: rest).
    cbn [ds_spec ds_masks]. by repeat split. }
  by apply G.
Qed.

Lemma collect_loop_inv self time_period tile_index sources_spec :
  ∀ i acc acc',
    Forall (fun kt => Inv self time_period tile_index (fst kt) (snd kt)) (fst acc) →
    collect_loop self time_period tile_index i sources_spec acc = Ok acc' →
    Forall (fun kt => Inv self time_period tile_index (fst kt) (snd kt)) (fst acc').
Proof.
  induction sources_spec as [|source_spec rest IH]; intros i acc acc' Hacc;
    cbn [collect_loop].
  - by intros [= <-].
  - destruct (collect_source _ _ _ _ _ _) as [acc1|e] eqn:E; [|discriminate].
    cbn [rbind]. apply IH. by eapply collect_source_inv.
Qed.

Lemma collect_tasks_inv self time_period sources_spec tile_index tasks t :
  collect_tasks self time_period sources_spec tile_index = Ok tasks →
  t ∈ tasks → ∃ tile, Inv self time_period tile_index tile t.
Proof.
  unfold collect_tasks.
  destruct (collect_loop _ _ _ _ _ _) as [[acc n]|e] eqn:E; [|discriminate].
  cbn [rbind]. intros [= <-] Ht.
  apply collect_loop_inv in E; [|constructor]. cbn [fst] in E.
  apply list_elem_of_fmap in Ht as ([k t'] & -> & Hin).
  rewrite Forall_forall in E. exists k. by apply (E (k, t')).
Qed.

Lemma Gridded_call_inv self sources_spec date_ranges t :
  t ∈ fst (Gridded_call self sources_spec date_ranges) →
  ∃ time_period tile_index tile,
    time_period ∈ date_ranges
    ∧ passed_index self tile_index
    ∧ Inv self time_period tile_index tile t.
Proof.
  unfold Gridded_call, passed_index. intros (time_period & Hperiod & Ht)%gen_for_yields.
  destruct (tile_indexes self) as [indexes|].
  - apply gen_for_yields in Ht as (tile_index & Hindex & Ht).
    apply yield_all_yields in Ht as (l & Hl & Ht).
    destruct (collect_tasks_inv _ _ _ _ _ _ Hl Ht) as [tile Hinv].
    exists time_period, (Some tile_index), tile. split; [done|]. split; [|done].
    by exists tile_index.
  - apply yield_all_yields in Ht as (l & Hl & Ht).
    destruct (collect_tasks_inv _ _ _ _ _ _ Hl Ht) as [tile Hinv].
    by exists time_period, None, tile.
Qed.

(** *** The generator for arbitrary regions *)

Lemma made_in_order_rmap feature ep_range grp (masks : list MaskSpec) tiles :
  rmap (fun mask => make_arbitrary_tile feature (mask_product mask) ep_range grp) masks
  = Ok tiles →
  Forall2 (fun mask slot =>
             ∃ tile, slot = Some tile ∧
               make_arbitrary_tile feature (mask_product mask) ep_range grp = Ok tile)
          masks (map Some tiles).
Proof.
  revert tiles. induction masks as [|mask masks IH]; intros tiles; cbn [rmap].
  - intros [= <-]. constructor.
  - destruct (make_arbitrary_tile _ _ _ _) as [tile|e] eqn:E; [|discriminate].
    cbn [rbind]. destruct (rmap _ masks) as [rest|e]; [|discriminate].
    cbn [rbind]. intros [= <-]. cbn [map]. constructor; [eauto|]. by apply IH.
Qed.

Lemma add_spec_inv feature time_period i source_spec task task' :
  add_spec feature time_period i source_spec task = Ok task' →
  Forall (masks_made_in_order feature time_period) (sources task) →
  Forall (masks_made_in_order feature time_period) (sources task')
  ∧ (sources task ≠ [] → sources task' ≠ []).
Proof.
  unfold add_spec.
  destruct (filter_time_by_source _ _) as [ep_range|] eqn:Erange; [|by intros [= <-]].
  destruct (make_arbitrary_tile _ _ _ _) as [data|e]; [|discriminate].
  cbn [rbind]. destruct (rmap _ _) as [tiles|e] eqn:E; [|discriminate].
  cbn [rbind]. destruct (length (times data) =? 0)%nat; intros [= <-] Hall; [done|].
  split; cbn.
  - apply Forall_app. split; [done|]. constructor; [|constructor].
    exists ep_range. cbn [ds_spec ds_masks]. split; [done|]. by apply made_in_order_rmap.
  - intros _ Hnil. by apply app_eq_nil in Hnil as [_ ?].
Qed.

Lemma add_specs_inv feature time_period sources_spec :
  ∀ i task task',
    add_specs feature time_period i sources_spec task = Ok task' →
    Forall (masks_made_in_order feature time_period) (sources task) →
    Forall (masks_made_in_order feature time_period) (sources task').
Proof.
  induction sources_spec as [|source_spec rest IH]; intros i task task';
    cbn [add_specs].
  - by intros [= <-].
  - destruct (add_spec _ _ _ _ _) as [task1|e] eqn:E; [|discriminate].
    cbn [rbind]. intros Hrest Hall. eapply IH; [done|].
    by eapply add_spec_inv.
Qed.

(** The loop over the specs leaves the feature and the time period of
    the task as they are. *)
Lemma add_specs_identity feature time_period sources_spec :
  ∀ i task task',
    add_specs feature time_period i sources_spec task = Ok task' →
    task_feature task' = task_feature task
    ∧ task_time_period task' = task_time_period task.
Proof.
  induction sources_spec as [|source_spec rest IH]; intros i task task';
    cbn [add_specs].
  - by intros [= <-].
  - destruct (add_spec _ _ _ _ _) as [task1|e] eqn:E; [|discriminate].
    cbn [rbind]. intros Hrest. destruct (IH _ _ _ Hrest) as [-> ->].
    revert E. unfold add_spec.
    destruct (filter_time_by_source _ _) as [ep_range|]; [|by intros [= <-]].
    destruct (make_arbitrary_tile _ _ _ _) as [data|e]; [|discriminate].
    cbn [rbind]. destruct (rmap _ _) as [tiles|e]; [|discriminate].
    cbn [rbind]. by destruct (length (times data) =? 0)%nat; intros [= <-].
Qed.

Lemma masks_made_in_order_set_data feature time_period sr v :
  masks_made_in_order feature time_period sr →
  masks_made_in_order feature time_period (set_data sr v).
Proof. done. Qed.

Lemma set_task_loop_inv (P : DataSource → Prop) method filtered_times todo :
  (∀ sr v, P sr → P (set_data sr v)) →
  ∀ i visited all_dates removed visited' removed',
    set_task_loop method filtered_times i todo visited all_dates removed
    = Ok (visited', removed') →
    Forall P todo →
    Forall P visited →
    Forall P visited'.
Proof.
  intros Hset.
  induction todo as [|sr rest IH]; intros i visited all_dates removed visited' removed';
    cbn [set_task_loop].
  - by intros [= <- <-].
  - intros Hloop Htodo Hvisited. inversion Htodo as [|? ? Hsr Hrest]; subst.
    destruct (if bool_decide (method = Some "by_hydrological_months") then _ else _)
      as [dates|]; [|discriminate].
    destruct (intersects dates filtered_times).
    + destruct (isel _ _) as [v'|e]; [|discriminate]. cbn [rbind] in Hloop.
      eapply IH; [done|done|]. apply Forall_app. split; [done|].
      constructor; [|constructor]. by apply Hset.
    + eapply IH; [done|done|]. apply Forall_app. split; [done|]. by constructor.
Qed.

Lemma del_loop_inv {A} (P : A → Prop) removed :
  ∀ l l', del_loop removed l = Ok l' → Forall P l → Forall P l'.
Proof.
  induction removed as [|i rest IH]; intros l l'; cbn [del_loop].
  - by intros [= <-].
  - unfold del_item. destruct (i <? length l)%nat; [|discriminate]. cbn [rbind].
    intros Hrest Hall. eapply IH; [done|]. apply Forall_app. split.
    + by apply Forall_take.
    + by apply Forall_drop.
Qed.

Lemma set_task_inv (P : DataSource → Prop) self task filtered_times task' :
  (∀ sr v, P sr → P (set_data sr v)) →
  set_task self task filtered_times = Ok task' →
  Forall P (sources task) →
  Forall P (sources task')
  ∧ task_feature task' = task_feature task
  ∧ task_time_period task' = task_time_period task.
Proof.
  intros Hset. unfold set_task.
  destruct (set_task_loop _ _ _ _ _ _ _) as [[visited removed]|e] eqn:E; [|discriminate].
  cbn [rbind]. intros Hdel Hall.
  apply (set_task_loop_inv P) in E; [|done|done|constructor].
  destruct (0 <? length removed)%nat.
  - destruct (del_loop removed visited) as [kept|e] eqn:Ed; [|discriminate].
    cbn [rbind] in Hdel. injection Hdel as <-. cbn. split; [|done].
    by eapply del_loop_inv.
  - cbn [rbind] in Hdel. by injection Hdel as <-.
Qed.

Lemma filter_task_inv (P : DataSource → Prop) self task feature date_ranges task' :
  (∀ sr v, P sr → P (set_data sr v)) →
  filter_task self task feature date_ranges = Ok task' →
  Forall P (sources task) →
  Forall P (sources task')
  ∧ task_feature task' = task_feature task
  ∧ task_time_period task' = task_time_period task.
Proof.
  intros Hset. unfold filter_task. destruct (filter_configured self); [|by intros [= <-]].
  destruct (get_filter_product _ _ _ _) as [[extra filtered]|e]; [|discriminate].
  cbn [rbind]. destruct (set_task _ _ _) as [task1|e] eqn:E; [|discriminate].
  cbn [rbind]. destruct extra as [|a0 [|a1 ?]]; try discriminate.
  intros [= <-] Hall. cbn. by eapply set_task_inv.
Qed.

(** A task that the generator yields is what [filter_task] made of a
    task that had sources after the loop over the specs. *)
Lemma NonGridded_call_yields self sources_spec date_ranges t :
  t ∈ fst (NonGridded_call self sources_spec date_ranges) →
  ∃ feature time_period matched,
    add_specs feature time_period 0 sources_spec
      (new_task time_period [("feature_id", IdStr (feature_id_of feature))] feature)
    = Ok matched
    ∧ sources matched ≠ []
    ∧ filter_task self matched feature date_ranges = Ok t.
Proof.
  unfold NonGridded_call. intros (feature & _ & Ht)%gen_for_yields.
  apply gen_for_yields in Ht as (time_period & _ & Ht).
  unfold NonGridded_period in Ht.
  destruct (add_specs _ _ _ _ _) as [matched|e] eqn:E;
    [|by apply elem_of_nil in Ht].
  destruct (0 <? length (sources matched))%nat eqn:El;
    [|by apply elem_of_nil in Ht].
  destruct (filter_task _ _ _ _) as [t'|e] eqn:Ef; [|by apply elem_of_nil in Ht].
  cbn in Ht. apply list_elem_of_singleton in Ht as ->.
  exists feature, time_period, matched. split; [done|]. split; [|done].
  intros Hnil. rewrite Hnil in El. discriminate El.
Qed.

Lemma filter_task_without_filter self task feature date_ranges :
  filter_configured self = false →
  filter_task self task feature date_ranges = Ok task.
Proof. intros Hno. unfold filter_task. by rewrite Hno. Qed.

(** What [filter_task] does to [spatial_id] when a filter is configured. *)
Lemma filter_task_spatial_id self task feature date_ranges task' :
  filter_configured self = true →
  filter_task self task feature date_ranges = Ok task' →
  ∃ a0 a1 rest filtered_times,
    get_filter_product (default [] (filter_product self)) feature
      (merge_sort Z.le (concat (map (fun sr => times (ds_data sr)) (sources task))))
      date_ranges = Ok (a0 :: a1 :: rest, filtered_times)
    ∧ spatial_id task' = [("x", a0); ("y", a1)].
Proof.
  intros Hyes. unfold filter_task. rewrite Hyes.
  destruct (get_filter_product _ _ _ _) as [[extra filtered]|e]; [|discriminate].
  cbn [rbind]. destruct (set_task _ _ _) as [task1|e]; [|discriminate].
  cbn [rbind]. destruct extra as [|a0 [|a1 rest]]; try discriminate.
  intros [= <-]. by exists a0, a1, rest, filtered.
Qed.

(** C4, amended: every task that the gridded generator yields has
    sources; every task that the generator for arbitrary regions yields
    is what [filter_task] returned for a task that had sources after the
    loop over the source specs, and has sources itself when no filter
    product is configured. *)
Theorem C4_sources_nonempty_after_matching :
  (∀ self sources_spec date_ranges t,
      t ∈ fst (Gridded_call self sources_spec date_ranges) → sources t ≠ [])
  ∧ (∀ self sources_spec date_ranges t,
      t ∈ fst (NonGridded_call self sources_spec date_ranges) →
      (∃ feature time_period matched,
          add_specs feature time_period 0 sources_spec
            (new_task time_period [("feature_id", IdStr (feature_id_of feature))] feature)
          = Ok matched
          ∧ sources matched ≠ []
          ∧ filter_task self matched feature date_ranges = Ok t)
      ∧ (filter_configured self = false → sources t ≠ [])).
Proof.
  split.
  - intros self sources_spec date_ranges t Ht.
    by destruct (Gridded_call_inv _ _ _ _ Ht) as (? & ? & ? & _ & _ & ? & _).
  - intros self sources_spec date_ranges t Ht.
    destruct (NonGridded_call_yields _ _ _ _ Ht)
      as (feature & time_period & matched & Hm & Hne & Hf).
    split; [by exists feature, time_period, matched|].
    intros Hno. rewrite filter_task_without_filter in Hf by done.
    by injection Hf as <-.
Qed.

(** C7: when the batched query returns one dictionary per product, every
    [DataSource] of a yielded task has as many mask slots as its spec
    declares masks, in the order of the declarations.  In the gridded
    generator the task is the one of a tile, whose two indexes are its
    [spatial_id], and slot [i] is the entry at that tile of the
    dictionary returned for mask [i] by the query for the spec, or
    [None] where that dictionary has no entry at the tile; in the other
    generator slot [i] is the tile made for mask [i], for the feature of
    the task and the range of the spec within the time period of the
    task. *)
Theorem C7_one_mask_slot_per_declared_mask :
  one_slot_per_product →
  (∀ self sources_spec date_ranges t,
      t ∈ fst (Gridded_call self sources_spec date_ranges) →
      ∃ time_period tile_index tile,
        time_period ∈ date_ranges
        ∧ passed_index self tile_index
        ∧ spatial_id t = [("x", IdNum (fst tile)); ("y", IdNum (snd tile))]
        ∧ ∀ d, d ∈ sources t →
            length (ds_masks d) = length (spec_masks (ds_spec d))
            ∧ masks_looked_up_in_order self time_period tile_index tile d)
  ∧ (∀ self sources_spec date_ranges t d,
      t ∈ fst (NonGridded_call self sources_spec date_ranges) → d ∈ sources t →
      length (ds_masks d) = length (spec_masks (ds_spec d))
      ∧ masks_made_in_order (task_feature t) (task_time_period t) d).
Proof.
  intros Hslots. split.
  - intros self sources_spec date_ranges t Ht.
    destruct (Gridded_call_inv _ _ _ _ Ht)
      as (time_period & tile_index & tile & Hperiod & Hindex & _ & Hid & Hall).
    exists time_period, tile_index, tile. do 3 (split; [done|]). intros d Hd.
    rewrite Forall_forall in Hall. specialize (Hall d Hd). split; [|done].
    destruct Hall as (ep & data & mask_cells & un & _ & Hq & ->).
    apply Hslots in Hq. cbn [length] in Hq. rewrite length_map in *. lia.
  - intros self sources_spec date_ranges t d Ht Hd.
    destruct (NonGridded_call_yields _ _ _ _ Ht)
      as (feature & time_period & matched & Hm & Hne & Hf).
    destruct (add_specs_identity _ _ _ _ _ _ Hm) as [Hfeature Hperiod].
    cbn [new_task task_feature task_time_period] in Hfeature, Hperiod.
    apply add_specs_inv in Hm; [|constructor].
    apply (filter_task_inv (masks_made_in_order feature time_period)) in Hf
      as (Hf & Hfeature' & Hperiod'); [|done|done].
    rewrite Hfeature', Hperiod', Hfeature, Hperiod.
    rewrite Forall_forall in Hf. specialize (Hf d Hd). split; [|done].
    destruct Hf as (ep & _ & Hall). symmetry. by eapply Forall2_length.
Qed.

End WithExternals.

End TasksFacts.

(** ** The operations on the sample configurations *)

Module TasksRuns.
Import Py Tasks Samples.

Lemma C8_witness :
  dict_get "tile_size" storage_without_tile_size = None
  ∧ @_make_grid_spec plain storage_without_tile_size = Raise AssertionError.
Proof.
  split; [reflexivity|].
  apply (@TasksFacts.C8_missing_tile_size_fails plain storage_without_tile_size).
  reflexivity.
Defined.

Lemma plain_one_slot_per_product : @one_slot_per_product plain.
Proof.
  intros products grid sf ci ep g gp cells unmatched [= <- _]. by rewrite length_map.
Qed.

Example gridded_run :
  @Gridded_call plain grid_of_one_tile [spec_with_mask] [(0, 10)%Z]
  = ([mkStatsTask (0, 10)%Z [("x", IdNum 0); ("y", IdNum 0)] None
        [mkDataSource one_tile [Some one_tile] spec_with_mask 0]], None).
Proof. reflexivity. Qed.

Lemma tiled_one_slot_per_product : @one_slot_per_product tiled.
Proof.
  intros products grid sf ci ep g gp cells unmatched [= <- _]. by rewrite length_map.
Qed.

(** Two masks are declared, and the first has no cell at tile (1, 2):
    its slot there is [None], before the slot of the second. *)
Example masked_run :
  @Gridded_call tiled whole_grid [spec_with_two_masks] [(0, 10)%Z]
  = ([mkStatsTask (0, 10)%Z [("x", IdNum 1); ("y", IdNum 2)] None
        [mkDataSource one_tile [None; Some one_tile] spec_with_two_masks 0];
      mkStatsTask (0, 10)%Z [("x", IdNum 3); ("y", IdNum 4)] None
        [mkDataSource one_tile [Some pq_tile; Some one_tile] spec_with_two_masks 0]],
     None).
Proof. reflexivity. Qed.

Lemma C7_witness :
  @one_slot_per_product tiled
  ∧ ∃ tile mask_cells,
      [("x", IdNum 1); ("y", IdNum 2)] = [("x", IdNum (fst tile)); ("y", IdNum (snd tile))]
      ∧ [None; Some one_tile] = map (@cell_get tile) mask_cells
      ∧ length [None; Some one_tile] = length (spec_masks spec_with_two_masks).
Proof.
  split; [apply tiled_one_slot_per_product|].
  destruct (proj1 (@TasksFacts.C7_one_mask_slot_per_declared_mask tiled
                     tiled_one_slot_per_product)
              whole_grid [spec_with_two_masks] [(0, 10)%Z]
              (mkStatsTask (0, 10)%Z [("x", IdNum 1); ("y", IdNum 2)] None
                 [mkDataSource one_tile [None; Some one_tile] spec_with_two_masks 0]))
    as (time_period & tile_index & tile & _ & _ & Hid & Hall).
  - rewrite masked_run. cbn [fst]. apply list_elem_of_here.
  - destruct (Hall (mkDataSource one_tile [None; Some one_tile] spec_with_two_masks 0))
      as (Hlength & ep_range & data & mask_cells & unmatched & _ & _ & Hmasks).
    + cbn [sources]. apply list_elem_of_here.
    + exists tile, mask_cells. split; [exact Hid|]. split; [exact Hmasks|exact Hlength].
Defined.

Example nongridded_filtered_run :
  @NonGridded_call plain by_tide_height [spec_without_masks] [(0, 10)%Z]
  = ([mkStatsTask (0, 10)%Z [("x", IdStr "a"); ("y", IdStr "b")] None []], None).
Proof. reflexivity. Qed.

(** The generator for arbitrary regions yields a task without sources
    when the filter keeps none of the timestamps of the matched sources. *)
Lemma C4_counterexample :
  ¬ (∀ t, t ∈ fst (@NonGridded_call plain by_tide_height [spec_without_masks] [(0, 10)%Z]) →
          sources t ≠ []).
Proof.
  intros Hclaim. rewrite nongridded_filtered_run in Hclaim.
  apply (Hclaim _ (list_elem_of_here _ _)). reflexivity.
Qed.

(** C5, at three sources of which only the third has a retained
    timestamp: the indexes 0 and 1 are deleted one after the other from
    the list as it shrinks, so what stays is the second source, which has
    no retained timestamp, and the third, which has one, is gone. *)
Theorem C5_set_task_keeps_the_wrong_source :
  @intersects (map (@strftime_second tide) (times (ds_data (source_at 2 1))))
     ["1970-01-01T00:00:03"] = false
  ∧ @intersects (map (@strftime_second tide) (times (ds_data (source_at 3 2))))
     ["1970-01-01T00:00:03"] = true
  ∧ @set_task tide by_tide_height three_sources ["1970-01-01T00:00:03"]
    = Ok (set_sources three_sources [source_at 2 1]).
Proof. repeat split. Qed.

(** At two sources without a retained timestamp the second deletion is
    out of range. *)
Lemma set_task_raises_at_two_removals :
  @set_task tide by_tide_height two_sources ["1970-01-01T00:00:03"] = Raise IndexError.
Proof. reflexivity. Qed.

End TasksRuns.

Module PathFacts.
Import PyStr.

Lemma append_empty (b : string) : "" +:+ b = b.
Proof. reflexivity. Qed.

Lemma append_String x (a b : string) : String x a +:+ b = String x (a +:+ b).
Proof. reflexivity. Qed.

Lemma append_assoc (a b c : string) : (a +:+ b) +:+ c = a +:+ (b +:+ c).
Proof.
  induction a as [|x a IH]; [by rewrite !append_empty|].
  rewrite !append_String. by rewrite IH.
Qed.

Lemma append_nil_r (a : string) : a +:+ "" = a.
Proof.
  induction a as [|x a IH]; [done|]. rewrite append_String. by rewrite IH.
Qed.

Lemma length_append (a b : string) :
  String.length (a +:+ b) = (String.length a + String.length b)%nat.
Proof.
  induction a as [|x a IH]; [done|]. rewrite append_String. cbn. by rewrite IH.
Qed.

Lemma take_append (a b : string) : take (String.length a) (a +:+ b) = a.
Proof.
  induction a as [|x a IH]; [by destruct b|]. rewrite append_String. cbn.
  by rewrite IH.
Qed.

(** [(a + b)[:-len(b)] = a] *)
Lemma drop_last_append (a b : string) : drop_last (String.length b) (a +:+ b) = a.
Proof.
  unfold drop_last. rewrite length_append.
  replace (String.length a + String.length b - String.length b)%nat
    with (String.length a) by lia.
  apply take_append.
Qed.

(** Dropping the last four characters undoes the ['.tmp'] that
    [_prepare_output_file] appends. *)
Lemma drop_last_tmp (q : string) : drop_last 4 (q +:+ ".tmp") = q.
Proof. apply (drop_last_append q ".tmp"). Qed.

Lemma append_inj_l (a b c : string) : a +:+ c = b +:+ c → a = b.
Proof.
  intros Heq.
  rewrite <- (drop_last_append a c), <- (drop_last_append b c). by rewrite Heq.
Qed.

Lemma last_char_append (a b : string) :
  b ≠ "" → last_char (a +:+ b) = last_char b.
Proof.
  intros Hb. induction a as [|x a IH]; [done|].
  rewrite append_String. cbn [last_char]. rewrite IH.
  destruct (a +:+ b) eqn:E; [|done].
  destruct a; [|discriminate E]. rewrite append_empty in E. by subst b.
Qed.

Lemma rsplit_Some c s b t :
  rsplit c s = Some (b, t) → s = b +:+ String c t.
Proof.
  revert b t. induction s as [|a s IH]; intros b t; cbn [rsplit]; [done|].
  destruct (rsplit c s) as [[b' t']|].
  - intros [= <- <-]. rewrite append_String. by rewrite (IH b' t').
  - destruct (Ascii.eqb a c) eqn:E; [|done].
    apply Ascii.eqb_eq in E as ->. by intros [= <- <-].
Qed.

(** A path ends with its suffix. *)
Lemma ends_with_suffix (p : string) : ∃ pre, p = pre +:+ Path.suffix p.
Proof.
  unfold Path.suffix, Path.name.
  assert (Hn : ∃ d, p = d +:+ match rsplit Path.slash p with
                              | Some (_, n) => n | None => p end).
  { destruct (rsplit Path.slash p) as [[d n]|] eqn:E.
    - apply rsplit_Some in E. exists (d +:+ "/"). by rewrite append_assoc.
    - by exists "". }
  destruct Hn as [d Hd]. set (n := match rsplit Path.slash p with
                                    | Some (_, n) => n | None => p end) in *.
  destruct (rsplit Path.dot n) as [[b t]|] eqn:E.
  - destruct (is_empty b || is_empty t).
    + exists p. by rewrite append_nil_r.
    + apply rsplit_Some in E. exists (d +:+ b).
      rewrite append_assoc. by rewrite <- E.
  - exists p. by rewrite append_nil_r.
Qed.

Lemma with_suffix_tmp (p : string) :
  Path.suffix p ∈ [".nc"; ".tif"; ".tiff"; ".bil"] →
  Path.with_suffix p (Path.suffix p +:+ ".tmp") = Some (p +:+ ".tmp").
Proof.
  intros Hvalid. unfold Path.with_suffix.
  assert (Hname : is_empty (Path.name p) = false).
  { unfold Path.suffix in Hvalid. destruct (Path.name p); [|done].
    cbn in Hvalid. by repeat (apply elem_of_cons in Hvalid as [?|Hvalid]; [done|]);
      apply elem_of_nil in Hvalid. }
  destruct (ends_with_suffix p) as [pre Hpre].
  assert (Hchecks : occurs Path.slash (Path.suffix p +:+ ".tmp")
                    || (negb (is_empty (Path.suffix p +:+ ".tmp"))
                        && negb (startswith "." (Path.suffix p +:+ ".tmp")))
                    || String.eqb (Path.suffix p +:+ ".tmp") "." = false).
  { repeat (apply elem_of_cons in Hvalid as [->|Hvalid]; [reflexivity|]).
    by apply elem_of_nil in Hvalid. }
  rewrite Hchecks, Hname. f_equal.
  rewrite Hpre at 2 4. rewrite drop_last_append.
  by rewrite append_assoc.
Qed.

(** A path with one of the accepted extensions does not end in ['.tmp']. *)
Lemma valid_extension_not_tmp (p q : string) :
  Path.suffix p ∈ [".nc"; ".tif"; ".tiff"; ".bil"] → p ≠ q +:+ ".tmp".
Proof.
  intros Hvalid Heq.
  destruct (ends_with_suffix p) as [pre Hpre].
  assert (Hlast : last_char p ≠ Some "p"%char).
  { rewrite Hpre.
    repeat (apply elem_of_cons in Hvalid as [->|Hvalid];
            [rewrite last_char_append by done; cbn; congruence|]).
    by apply elem_of_nil in Hvalid. }
  apply Hlast. rewrite Heq. by rewrite last_char_append.
Qed.

(** A path at which a file can be: not empty, neither the root nor
    the current directory, and without a slash at its end. *)
Definition file_name (p : string) : Prop :=
  p ≠ "" ∧ p ≠ "/" ∧ p ≠ "." ∧ last_char p ≠ Some Path.slash.

Lemma file_name_last_char (p : string) (c : ascii) :
  last_char p = Some c → c ≠ Path.slash → c ≠ Path.dot → file_name p.
Proof.
  intros Hlast Hslash Hdot. unfold file_name, Path.slash, Path.dot in *.
  repeat split; intros Hp; rewrite Hp in Hlast; cbn in Hlast; congruence.
Qed.

Lemma valid_extension_file_name (p : string) :
  Path.suffix p ∈ [".nc"; ".tif"; ".tiff"; ".bil"] → file_name p.
Proof.
  intros Hvalid. destruct (ends_with_suffix p) as [pre Hpre].
  repeat (apply elem_of_cons in Hvalid as [Hs|Hvalid];
          [rewrite Hs in Hpre;
           eapply file_name_last_char;
             [rewrite Hpre; by rewrite last_char_append|done|done]|]).
  by apply elem_of_nil in Hvalid.
Qed.

Lemma file_name_tmp (q : string) : file_name (q +:+ ".tmp").
Proof. eapply file_name_last_char; [by rewrite last_char_append|done|done]. Qed.

Lemma file_name_tif (q : string) : file_name (q +:+ ".tif").
Proof. eapply file_name_last_char; [by rewrite last_char_append|done|done]. Qed.

(** *** The paths of the conversion step *)

Lemma rsplit_None c s : rsplit c s = None → occurs c s = false.
Proof.
  induction s as [|a s IH]; cbn [rsplit occurs]; [done|].
  destruct (rsplit c s) as [[b t]|]; [done|].
  destruct (Ascii.eqb a c); [done|]. intros _. by rewrite IH.
Qed.

Lemma rsplit_rest_free c s b t : rsplit c s = Some (b, t) → occurs c t = false.
Proof.
  revert b t. induction s as [|a s IH]; intros b t; cbn [rsplit]; [done|].
  destruct (rsplit c s) as [[b' t']|] eqn:E.
  - intros [= <- <-]. by eapply IH.
  - destruct (Ascii.eqb a c); [|done]. intros [= <- <-]. by apply rsplit_None.
Qed.

Lemma occurs_append c s t : occurs c (s +:+ t) = occurs c s || occurs c t.
Proof.
  induction s as [|a s IH]; [done|]. rewrite append_String. cbn [occurs].
  rewrite IH. by rewrite orb_assoc.
Qed.

(** Appending text without the separator leaves the split point. *)
Lemma rsplit_append_free c s t :
  occurs c t = false →
  rsplit c (s +:+ t)
  = match rsplit c s with
    | Some (b, u) => Some (b, u +:+ t)
    | None => None
    end.
Proof.
  intros Hfree. induction s as [|a s IH].
  - rewrite append_empty. cbn [rsplit].
    destruct (rsplit c t) as [[b u]|] eqn:E; [|done].
    apply rsplit_Some in E. rewrite E, occurs_append in Hfree. cbn [occurs] in Hfree.
    rewrite Ascii.eqb_refl in Hfree. cbn in Hfree. by rewrite orb_true_r in Hfree.
  - rewrite append_String. cbn [rsplit]. rewrite IH.
    destruct (rsplit c s) as [[b u]|] eqn:E; [done|].
    by destruct (Ascii.eqb a c).
Qed.

Lemma rsplit_at_last c s t :
  occurs c t = false → rsplit c (s +:+ String c t) = Some (s, t).
Proof.
  intros Hfree. induction s as [|a s IH].
  - rewrite append_empty. cbn [rsplit].
    destruct (rsplit c t) as [[b u]|] eqn:E.
    + apply rsplit_Some in E. rewrite E, occurs_append in Hfree. cbn [occurs] in Hfree.
      rewrite Ascii.eqb_refl in Hfree. cbn in Hfree. by rewrite orb_true_r in Hfree.
    + by rewrite Ascii.eqb_refl.
  - rewrite append_String. cbn [rsplit]. by rewrite IH.
Qed.

Lemma name_free (p : string) : occurs Path.slash (Path.name p) = false.
Proof.
  unfold Path.name. destruct (rsplit Path.slash p) as [[d n]|] eqn:E.
  - by eapply rsplit_rest_free.
  - by apply rsplit_None.
Qed.

Lemma ends_with_name (p : string) : ∃ d, p = d +:+ Path.name p.
Proof.
  unfold Path.name. destruct (rsplit Path.slash p) as [[d n]|] eqn:E.
  - apply rsplit_Some in E. exists (d +:+ "/"). by rewrite append_assoc.
  - by exists "".
Qed.

Lemma name_append_free (p t : string) :
  occurs Path.slash t = false → Path.name p ≠ "" → Path.name (p +:+ t) = Path.name p +:+ t.
Proof.
  intros Hfree Hname. unfold Path.name in *. rewrite rsplit_append_free by done.
  by destruct (rsplit Path.slash p) as [[d n]|].
Qed.

Lemma suffix_bil_name (q : string) :
  Path.suffix q = ".bil" → ∃ b, b ≠ "" ∧ Path.name q = b +:+ ".bil".
Proof.
  unfold Path.suffix. destruct (rsplit Path.dot (Path.name q)) as [[b t]|] eqn:E; [|done].
  destruct b as [|x b]; [done|]. destruct t as [|y t]; [done|]. cbn [is_empty orb].
  intros Heq. injection Heq as -> ->. apply rsplit_Some in E. by exists (String x b).
Qed.

(** For an output [q] with the extension of the ENVI driver: the name,
    the stem and the sibling paths that [_tif_to_envi] computes from
    [q.tmp]. *)
Lemma envi_paths (q : string) :
  Path.suffix q = ".bil" →
  Path.with_name (q +:+ ".tmp") (Path.stem (q +:+ ".tmp")) = Some q
  ∧ Path.with_suffix (q +:+ ".tmp") ".tif" = Some (q +:+ ".tif").
Proof.
  intros Hbil. destruct (suffix_bil_name q Hbil) as (b & Hb & Hname).
  assert (Hne : Path.name q ≠ "").
  { rewrite Hname. destruct b; [done|]. by rewrite append_String. }
  assert (Hname' : Path.name (q +:+ ".tmp") = Path.name q +:+ ".tmp").
  { by apply name_append_free. }
  assert (Hsuffix : Path.suffix (q +:+ ".tmp") = ".tmp").
  { unfold Path.suffix. rewrite Hname'.
    change (Path.name q +:+ ".tmp") with (Path.name q +:+ String Path.dot "tmp").
    rewrite (rsplit_at_last Path.dot (Path.name q) "tmp") by done.
    destruct (Path.name q); [done|]. reflexivity. }
  assert (Hfull : is_empty (Path.name (q +:+ ".tmp")) = false).
  { rewrite Hname'. destruct (Path.name q); [done|]. by rewrite append_String. }
  assert (Hstem : Path.stem (q +:+ ".tmp") = Path.name q).
  { unfold Path.stem. rewrite Hsuffix, Hname'. apply (drop_last_append _ ".tmp"). }
  split.
  - unfold Path.with_name. rewrite Hfull, Hstem.
    assert (Hok : is_empty (Path.name q) || occurs Path.slash (Path.name q)
                  || String.eqb (Path.name q) "." = false).
    { rewrite name_free. destruct (Path.name q) as [|x n] eqn:En; [done|].
      cbn [is_empty orb]. apply String.eqb_neq. intros Hdot.
      rewrite Hdot in Hname. destruct b as [|y b]; [done|].
      rewrite append_String in Hname. injection Hname as _ Hrest.
      destruct b; discriminate Hrest. }
    rewrite Hok. f_equal. destruct (ends_with_name q) as [d Hd].
    rewrite Hname'. clear -Hd. set (n := Path.name q) in *. clearbody n. subst q.
    by rewrite append_assoc, drop_last_append.
  - unfold Path.with_suffix. cbn [occurs is_empty startswith negb andb orb String.eqb
      Ascii.eqb Path.slash].
    replace (occurs Path.slash ".tif" || negb (is_empty ".tif") && negb (startswith "." ".tif")
             || String.eqb ".tif" ".") with false by reflexivity.
    rewrite Hfull, Hsuffix. f_equal. by rewrite (drop_last_append q ".tmp").
Qed.

Lemma bil_last_char (q : string) : Path.suffix q = ".bil" → last_char q = Some "l"%char.
Proof.
  intros Hbil. destruct (ends_with_suffix q) as [pre Hpre]. rewrite Hbil in Hpre.
  rewrite Hpre. by rewrite last_char_append.
Qed.

(** The three paths of two different outputs are all different. *)
Lemma envi_paths_disjoint (q q' : string) :
  Path.suffix q = ".bil" → Path.suffix q' = ".bil" → q ≠ q' →
  ∀ p, p ∈ [q; q +:+ ".tmp"; q +:+ ".tif"] → p ∉ [q'; q' +:+ ".tmp"; q' +:+ ".tif"].
Proof.
  intros Hq Hq' Hne p Hp Hp'.
  apply bil_last_char in Hq, Hq'.
  assert (Htmp : ∀ x, last_char (x +:+ ".tmp") = Some "p"%char)
    by (intros; by rewrite last_char_append).
  assert (Htif : ∀ x, last_char (x +:+ ".tif") = Some "f"%char)
    by (intros; by rewrite last_char_append).
  rewrite !elem_of_cons, elem_of_nil in Hp, Hp'.
  destruct Hp as [->|[->|[->|[]]]]; destruct Hp' as [Heq|[Heq|[Heq|[]]]];
    try (by apply Hne);
    try (apply append_inj_l in Heq; by apply Hne);
    apply (f_equal last_char) in Heq; rewrite ?Htmp, ?Htif, ?Hq, ?Hq' in Heq;
    discriminate Heq.
Qed.

Lemma envi_paths_distinct (q : string) :
  Path.suffix q = ".bil" →
  q ≠ q +:+ ".tmp" ∧ q ≠ q +:+ ".tif" ∧ q +:+ ".tmp" ≠ q +:+ ".tif".
Proof.
  intros Hq. apply bil_last_char in Hq.
  repeat split; intros Heq; apply (f_equal last_char) in Heq;
    rewrite ?last_char_append in Heq by done; rewrite ?Hq in Heq; discriminate Heq.
Qed.

End PathFacts.

Module DriversWalk.
Import Py Drivers.
Local Open Scope py_scope.

Lemma _walk_dict_nil {A} (func : Handle → M A) :
  _walk_dict func (Dict []) = ret [].
Proof. reflexivity. Qed.

Lemma _walk_dict_leaf {A} (func : Handle → M A) k fh rest w :
  _walk_dict func (Dict ((k, Leaf fh) :: rest)) w
  = match func fh w with
    | (w', Ok a) => (let! more := _walk_dict func (Dict rest) in ret (a :: more))%py w'
    | (w', Raise TypeError) => _walk_dict func (Dict rest) w'
    | (w', Raise e) => (w', Raise e)
    end.
Proof. reflexivity. Qed.

(** The values below a nested dictionary are skipped. *)
Lemma _walk_dict_nested {A} (func : Handle → M A) k sub rest :
  _walk_dict func (Dict ((k, Dict sub) :: rest)) = _walk_dict func (Dict rest).
Proof. reflexivity. Qed.

End DriversWalk.

Module FrameFacts.
Import Py.
Local Open Scope py_scope.

Section Frame.
Variable R : World → World → Prop.
Hypothesis R_refl : ∀ w, R w w.
Hypothesis R_trans : ∀ w1 w2 w3, R w1 w2 → R w2 w3 → R w1 w3.

Lemma keeps_ret {A} (Q : A → Prop) a : Q a → keeps R Q (ret a).
Proof. intros Ha w w' r [= <- <-]. split; [done|]. by intros ? [= <-]. Qed.

Lemma keeps_raise {A} (Q : A → Prop) e : keeps R Q (raise e).
Proof. intros w w' r [= <- <-]. split; [done|]. by intros ? [=]. Qed.

Lemma keeps_gets {A} (Q : A → Prop) (f : World → A) :
  (∀ w, Q (f w)) → keeps R Q (gets f).
Proof. intros Hf w w' r [= <- <-]. split; [done|]. by intros ? [= <-]. Qed.

Lemma keeps_modify (f : World → World) :
  (∀ w, R w (f w)) → keeps R (fun _ => True) (modify f).
Proof. intros Hf w w' r [= <- <-]. split; [apply Hf|done]. Qed.

Lemma keeps_weaken {A} (Q Q' : A → Prop) m :
  (∀ a, Q a → Q' a) → keeps R Q m → keeps R Q' m.
Proof.
  intros Himp Hm w w' r Hrun. destruct (Hm _ _ _ Hrun) as [HR HQ].
  split; [done|]. intros a Ha. by apply Himp, HQ.
Qed.

Lemma keeps_bind {A B} (Q : A → Prop) (Q' : B → Prop) (m : M A) (k : A → M B) :
  keeps R Q m → (∀ a, Q a → keeps R Q' (k a)) → keeps R Q' (bind m k).
Proof.
  intros Hm Hk w w' r. unfold bind.
  destruct (m w) as [w1 [a|e]] eqn:Em; destruct (Hm _ _ _ Em) as [HR HQ].
  - intros Hrun. destruct (Hk a (HQ a eq_refl) _ _ _ Hrun) as [HR' HQ'].
    split; [by eapply R_trans|done].
  - intros [= <- <-]. split; [done|]. by intros ? [=].
Qed.

Lemma keeps_lift {A} (Q : A → Prop) (r : result A) :
  (∀ a, r = Ok a → Q a) → keeps R Q (lift r).
Proof. intros Hr w w' r' [= <- <-]. by split. Qed.

Lemma keeps_of_option {A} (Q : A → Prop) e (o : option A) :
  (∀ a, o = Some a → Q a) → keeps R Q (of_option e o).
Proof.
  intros Ho. destruct o as [a|]; [apply keeps_ret; by apply Ho|apply keeps_raise].
Qed.

Lemma keeps_for_each {A B} (f : A → M B) (l : list A) :
  (∀ a, a ∈ l → keeps R (fun _ => True) (f a)) →
  keeps R (fun _ => True) (for_each f l).
Proof.
  induction l as [|a l IH]; intros Hf; cbn [for_each].
  - by apply keeps_ret.
  - eapply keeps_bind; [apply Hf; left|]. intros b _.
    eapply keeps_bind; [apply IH; intros; apply Hf; by right|].
    intros bs _. by apply keeps_ret.
Qed.

Lemma keeps_except_OSError_pass (m : M unit) :
  keeps R (fun _ => True) m → keeps R (fun _ => True) (except_OSError_pass m).
Proof.
  intros Hm w w' r. unfold except_OSError_pass.
  destruct (m w) as [w1 [[]|e]] eqn:Em; destruct (Hm _ _ _ Em) as [HR _].
  - by intros [= <- <-].
  - destruct e; intros [= <- <-]; by split.
Qed.

Lemma keeps_walk_dict {A} (func : Handle → M A) items :
  (∀ fh, keeps R (fun _ => True) (func fh)) →
  keeps R (fun _ => True) (Drivers._walk_dict func (Dict items)).
Proof.
  intros Hfunc. induction items as [|[k [fh|sub]] rest IH].
  - by apply keeps_ret.
  - intros w w' r. rewrite DriversWalk._walk_dict_leaf.
    destruct (func fh w) as [w1 [a|e]] eqn:Ef; destruct (Hfunc _ _ _ _ Ef) as [HR _].
    + intros Hrun.
      assert (Hk : keeps R (fun _ => True)
                     (let! more := Drivers._walk_dict func (Dict rest) in ret (a :: more))).
      { eapply keeps_bind; [apply IH|]. intros; by apply keeps_ret. }
      destruct (Hk _ _ _ Hrun) as [HR' _]. split; [by eapply R_trans|done].
    + destruct e; try (intros [= <- <-]; by split).
      intros Hrun. destruct (IH _ _ _ Hrun) as [HR' _].
      split; [by eapply R_trans|done].
  - rewrite DriversWalk._walk_dict_nested. apply IH.
Qed.

End Frame.

(** *** Only ['.tmp'] files change *)

Lemma tmp_frame_refl w : tmp_frame w w.
Proof. by intros p _. Qed.

Lemma tmp_frame_trans w1 w2 w3 : tmp_frame w1 w2 → tmp_frame w2 w3 → tmp_frame w1 w3.
Proof. intros H12 H23 p Hp. by rewrite H23, H12. Qed.

Lemma tmp_frame_same_files w w' : files w' = files w → tmp_frame w w'.
Proof. intros Hf p _. by rewrite Hf. Qed.

Lemma keeps_tmp_mkdir_parents d : keeps tmp_frame (fun _ => True) (mkdir_parents d).
Proof.
  intros w w' r. unfold mkdir_parents.
  destruct (exists_ d w); [|destruct (existsb _ _)];
    intros [= <- <-]; (split; [by apply tmp_frame_same_files|done]).
Qed.

Lemma keeps_tmp_unlink q : keeps tmp_frame (fun _ => True) (unlink (q +:+ ".tmp")).
Proof.
  intros w w' r. unfold unlink. destruct (files w !! _);
    intros [= <- <-]; (split; [|done]); [|apply tmp_frame_refl].
  intros p Hp. cbn. by rewrite lookup_delete_ne.
Qed.

Lemma keeps_tmp_open_w kind q variables count :
  keeps tmp_frame (fun fh => fh_name fh = q +:+ ".tmp")
        (open_w kind (q +:+ ".tmp") variables count).
Proof.
  intros w w' r. unfold open_w. destruct (_ || _); intros [= <- <-].
  - split; [apply tmp_frame_refl|done].
  - split; [|by intros ? [= <-]]. intros p Hp. cbn. by rewrite lookup_insert_ne.
Qed.

Lemma keeps_tmp_write_item fh q item :
  fh_name fh = q +:+ ".tmp" → keeps tmp_frame (fun _ => True) (write_item fh item).
Proof.
  intros Hname w w' r. unfold write_item. rewrite Hname. destruct (files w !! _);
    intros [= <- <-]; (split; [|done]); [|apply tmp_frame_refl].
  intros p Hp. cbn. by rewrite lookup_insert_ne.
Qed.

Lemma keeps_tmp_set_handles f : keeps tmp_frame (fun _ => True) (modify (set_handles f)).
Proof. apply keeps_modify. intros w. by apply tmp_frame_same_files. Qed.

(** *** No call of [close_files] is recorded *)

Lemma calls_frame_refl w : calls_frame w w.
Proof. done. Qed.

Lemma calls_frame_trans w1 w2 w3 :
  calls_frame w1 w2 → calls_frame w2 w3 → calls_frame w1 w3.
Proof. unfold calls_frame. congruence. Qed.

Lemma keeps_calls_unlink p : keeps calls_frame (fun _ => True) (unlink p).
Proof.
  intros w w' r. unfold unlink. destruct (files w !! _); by intros [= <- <-].
Qed.

Lemma keeps_calls_rename p target : keeps calls_frame (fun _ => True) (rename p target).
Proof.
  intros w w' r. unfold rename.
  destruct (files w !! _); [destruct (_ || _)|]; by intros [= <- <-].
Qed.

Lemma keeps_calls_close fh : keeps calls_frame (fun _ => True) (close fh).
Proof. by intros w w' r [= <- <-]. Qed.

Lemma keeps_calls_set_files f : keeps calls_frame (fun _ => True) (modify (set_files f)).
Proof. by apply keeps_modify. Qed.

(** *** No file is created *)

Lemma no_new_files_refl w : no_new_files w w.
Proof. by intros p. Qed.

Lemma no_new_files_trans w1 w2 w3 :
  no_new_files w1 w2 → no_new_files w2 w3 → no_new_files w1 w3.
Proof. intros H12 H23 p Hp. by apply H23, H12. Qed.

Lemma keeps_no_new_write_item fh item :
  keeps no_new_files (fun _ => True) (write_item fh item).
Proof.
  intros w w' r. unfold write_item. destruct (files w !! fh_name fh) as [c|] eqn:E;
    intros [= <- <-]; (split; [|done]); [|apply no_new_files_refl].
  intros p Hp. cbn. rewrite lookup_insert_ne; [done|]. intros <-. congruence.
Qed.

End FrameFacts.

Module DriversFacts.
Import Py Registry Drivers DriversWalk FrameFacts.
Local Open Scope py_scope.

Section WithExternals.
Context `{Externals}.

(** *** The monad *)

Lemma bind_Ok {A B} (m : M A) (k : A → M B) w w' a :
  m w = (w', Ok a) → bind m k w = k a w'.
Proof. intros Hm. unfold bind. by rewrite Hm. Qed.

Lemma bind_Raise {A B} (m : M A) (k : A → M B) w w' e :
  m w = (w', Raise e) → bind m k w = (w', Raise e).
Proof. intros Hm. unfold bind. by rewrite Hm. Qed.

(** *** [_walk_dict] visits the handles at the top of the dictionary *)

Lemma _walk_dict_pure {A} (f : Handle → A) items w :
  _walk_dict (fun fh => ret (f fh)) (Dict items) w = (w, Ok (map f (top_leaves items))).
Proof.
  induction items as [|[k [fh|sub]] rest IH]; cbn [top_leaves map].
  - reflexivity.
  - rewrite _walk_dict_leaf. unfold ret at 1. unfold bind. rewrite IH. reflexivity.
  - rewrite _walk_dict_nested. apply IH.
Qed.

Lemma close_all_fields fhs w :
  files (close_all fhs w) = files w ∧ dirs (close_all fhs w) = dirs w
  ∧ calls (close_all fhs w) = calls w ∧ handles (close_all fhs w) = handles w
  ∧ next_fh (close_all fhs w) = next_fh w
  ∧ close_calls (close_all fhs w) = close_calls w ++ map fh_id fhs
  ∧ ∀ i, i ∈ open_fhs (close_all fhs w) ↔ i ∈ open_fhs w ∧ i ∉ map fh_id fhs.
Proof.
  revert w. induction fhs as [|fh rest IH]; intros w; cbn [close_all map].
  - rewrite app_nil_r. do 6 (split; [done|]). intros i. split.
    + intros Hi. split; [done|]. apply not_elem_of_nil.
    + by intros [Hi _].
  - destruct (IH (fst (close fh w))) as (Hf & Hd & Hc & Hh & Hn & Hcc & Ho).
    rewrite Hf, Hd, Hc, Hh, Hn, Hcc. unfold close. cbn [fst files dirs calls handles
      next_fh close_calls open_fhs]. rewrite <- app_assoc.
    do 6 (split; [done|]). intros i.
    rewrite Ho. unfold close. cbn [fst open_fhs].
    rewrite elem_of_difference, not_elem_of_cons, elem_of_singleton. tauto.
Qed.

Lemma close_result fh w :
  close fh w
  = (close_all [fh] w,
     match fh_kind fh with
     | Dataset =>
         if bool_decide (fh_id fh ∈ open_fhs w) then Ok tt else Raise RuntimeError
     | Raster => Ok tt
     end).
Proof. reflexivity. Qed.

(** A handle that is a raster dataset, or is open, can be closed. *)
Lemma close_Ok fh w :
  (fh_kind fh = Dataset → fh_id fh ∈ open_fhs w) →
  close fh w = (close_all [fh] w, Ok tt).
Proof.
  intros Hopen. rewrite close_result. destruct (fh_kind fh); [|done].
  by rewrite bool_decide_eq_true_2 by (by apply Hopen).
Qed.

Lemma close_all_app fhs1 fhs2 w :
  close_all (fhs1 ++ fhs2) w = close_all fhs2 (close_all fhs1 w).
Proof. revert w. induction fhs1 as [|fh fhs1 IH]; intros w; [done|]. cbn. apply IH. Qed.

(** Different file objects, the netCDF datasets among them open, are
    closed one after the other. *)
Lemma _walk_dict_close items w :
  NoDup (map fh_id (top_leaves items)) →
  (∀ fh, fh ∈ top_leaves items → fh_kind fh = Dataset → fh_id fh ∈ open_fhs w) →
  _walk_dict close (Dict items) w
  = (close_all (top_leaves items) w, Ok (map (fun _ => tt) (top_leaves items))).
Proof.
  revert w.
  induction items as [|[k [fh|sub]] rest IH]; intros w Hnodup Hopen;
    cbn [top_leaves map close_all] in *.
  - reflexivity.
  - apply NoDup_cons in Hnodup as [Hfresh Hnodup].
    rewrite _walk_dict_leaf, close_Ok by (apply Hopen; left).
    cbn [close_all]. unfold bind. rewrite IH; [reflexivity|done|].
    intros fh' Hfh' Hkind. unfold close. cbn [fst open_fhs].
    apply elem_of_difference. split; [apply Hopen; [by right|done]|].
    intros Heq%elem_of_singleton. apply Hfresh. rewrite <- Heq.
    apply list_elem_of_fmap. by exists fh'.
  - rewrite _walk_dict_nested. by apply IH.
Qed.

(** However the walk ends, [close()] has been called on the first so
    many of the handles at the top, and on all of them when it returns. *)
Lemma _walk_dict_close_prefix items :
  ∀ w w' r,
    _walk_dict close (Dict items) w = (w', r) →
    ∃ n, w' = close_all (take n (top_leaves items)) w
         ∧ (is_Ok r = true → take n (top_leaves items) = top_leaves items).
Proof.
  induction items as [|[k [fh|sub]] rest IH]; intros w w' r; cbn [top_leaves].
  - intros [= <- <-]. by exists 0%nat.
  - rewrite _walk_dict_leaf, close_result.
    destruct (match fh_kind fh with Dataset => _ | Raster => _ end) as [[]|e] eqn:Eclose.
    + unfold bind.
      destruct (_walk_dict close (Dict rest) (close_all [fh] w)) as [w1 [more|e]] eqn:Erest;
        destruct (IH _ _ _ Erest) as (n & -> & Hall); intros [= <- <-];
        exists (S n); (split; [done|]); cbn [is_Ok] in *.
      * intros _. cbn [take]. by rewrite Hall.
      * done.
    + assert (He : e = RuntimeError).
      { destruct (fh_kind fh); [|done]. destruct (bool_decide _); congruence. }
      subst e. intros [= <- <-]. by exists 1%nat.
  - rewrite _walk_dict_nested. apply IH.
Qed.

(** *** The paths of the handles *)

Lemma _handle_to_path_own self fh w :
  fh_kind fh = opens (cls self) →
  (fh_kind fh = Dataset → fh_id fh ∈ open_fhs w) →
  _handle_to_path self fh w = (w, Ok (fh_name fh)).
Proof.
  intros Hkind Hopen. unfold _handle_to_path, filepath, name_of.
  destruct (cls self); cbn [opens] in Hkind; rewrite Hkind; try done.
  by rewrite bool_decide_eq_true_2 by (by apply Hopen).
Qed.

(** [_handle_to_path] changes nothing, however it ends. *)
Lemma _handle_to_path_world self fh w w' r :
  _handle_to_path self fh w = (w', r) → w' = w.
Proof.
  unfold _handle_to_path, filepath, name_of.
  destruct (cls self), (fh_kind fh); try destruct (bool_decide _); by intros [= <- _].
Qed.

Lemma _walk_dict_paths self items w :
  (∀ fh, fh ∈ top_leaves items →
         fh_kind fh = opens (cls self) ∧ (fh_kind fh = Dataset → fh_id fh ∈ open_fhs w)) →
  _walk_dict (_handle_to_path self) (Dict items) w
  = (w, Ok (map fh_name (top_leaves items))).
Proof.
  induction items as [|[k [fh|sub]] rest IH]; intros Hown; cbn [top_leaves map] in *.
  - reflexivity.
  - destruct (Hown fh (list_elem_of_here _ _)) as [Hkind Hopen].
    rewrite _walk_dict_leaf, _handle_to_path_own by done.
    unfold bind. rewrite IH; [reflexivity|]. intros fh' Hfh'. apply Hown. by right.
  - rewrite _walk_dict_nested. by apply IH.
Qed.

Lemma _walk_dict_paths_world self items :
  ∀ w w' r, _walk_dict (_handle_to_path self) (Dict items) w = (w', r) → w' = w.
Proof.
  induction items as [|[k [fh|sub]] rest IH]; intros w w' r.
  - by intros [= <- _].
  - rewrite _walk_dict_leaf.
    destruct (_handle_to_path self fh w) as [w1 [a|e]] eqn:Epath;
      apply _handle_to_path_world in Epath as ->.
    + unfold bind. destruct (_walk_dict _ (Dict rest) w) as [w1 [more|e]] eqn:Erest;
        apply IH in Erest as ->; by intros [= <- _].
    + destruct e; try by intros [= <- _]. apply IH.
  - rewrite _walk_dict_nested. apply IH.
Qed.

(** *** Files and directories *)

Lemma is_dir_file_name p w :
  PathFacts.file_name p → is_dir p w = bool_decide (p ∈ dirs w).
Proof.
  intros (_ & Hroot & Hhere & _). unfold is_dir.
  rewrite (proj2 (String.eqb_neq _ _) Hroot), (proj2 (String.eqb_neq _ _) Hhere).
  by rewrite !orb_false_r.
Qed.

Lemma is_dir_false p w :
  PathFacts.file_name p → p ∉ dirs w → is_dir p w = false.
Proof. intros Hp Hdir. rewrite is_dir_file_name by done. by apply bool_decide_eq_false_2. Qed.

Lemma is_dir_true p w : p ∈ dirs w → is_dir p w = true.
Proof. intros Hdir. unfold is_dir. by rewrite bool_decide_eq_true_2. Qed.

Lemma exists_false p w :
  exists_ p w = false → files w !! p = None ∧ p ∉ dirs w.
Proof.
  unfold exists_, is_dir. intros Hp.
  apply orb_false_elim in Hp as [Hfile Hdir].
  apply orb_false_elim in Hdir as [Hdir _]. apply orb_false_elim in Hdir as [Hdir _].
  apply bool_decide_eq_false_1 in Hfile, Hdir. split; [|done].
  destruct (files w !! p) eqn:E; [|done]. destruct Hfile. eauto.
Qed.

Lemma rename_run p target c w :
  files w !! p = Some c →
  PathFacts.file_name target →
  target ∉ dirs w →
  rename p target w = (set_files (fun fs => <[target := c]> (delete p fs)) w, Ok target).
Proof.
  intros Hp Hname Hdir. unfold rename. rewrite Hp, is_dir_false by done.
  destruct Hname as (Hne & _ & _ & Hlast).
  rewrite (bool_decide_eq_false_2 _ Hlast). by destruct target.
Qed.

(** *** Renaming the temporary files *)

Lemma rename_tmps finals :
  ∀ w,
    NoDup finals →
    (∀ q, q ∈ finals →
          is_Some (files w !! (q +:+ ".tmp")) ∧ (q ∉ dirs w) ∧ PathFacts.file_name q
          ∧ (∀ q', q ≠ q' +:+ ".tmp")) →
    ∃ w',
      for_each (fun path => rename path (PyStr.drop_last 4 path))
               (map (fun q => q +:+ ".tmp") finals) w = (w', Ok finals)
      ∧ dirs w' = dirs w ∧ open_fhs w' = open_fhs w ∧ close_calls w' = close_calls w
      ∧ calls w' = calls w ∧ handles w' = handles w
      ∧ (∀ q, q ∈ finals →
              files w' !! q = files w !! (q +:+ ".tmp")
              ∧ files w' !! (q +:+ ".tmp") = None)
      ∧ (∀ p, p ∉ finals → p ∉ map (fun q => q +:+ ".tmp") finals →
              files w' !! p = files w !! p).
Proof.
  induction finals as [|q rest IH]; intros w Hnodup Hall; cbn [map for_each].
  - exists w. do 6 (split; [done|]). split; [|done].
    intros q0 Hq0. by apply elem_of_nil in Hq0.
  - apply NoDup_cons in Hnodup as [Hq Hnodup].
    destruct (Hall q (list_elem_of_here _ _)) as ([c Hc] & Hdir & Hname & Hnt).
    set (w1 := set_files (fun fs => <[q := c]> (delete (q +:+ ".tmp") fs)) w).
    assert (Hren : rename (q +:+ ".tmp") (PyStr.drop_last 4 (q +:+ ".tmp")) w = (w1, Ok q)).
    { rewrite PathFacts.drop_last_tmp. by apply rename_run. }
    assert (Hother : ∀ p, p ≠ q → p ≠ q +:+ ".tmp" → files w1 !! p = files w !! p).
    { intros p Hp1 Hp2. cbn. rewrite lookup_insert_ne by done.
      by rewrite lookup_delete_ne. }
    destruct (IH w1 Hnodup) as (w' & Hfor & Hd & Ho & Hcc & Hcl & Hh & Hin & Hout).
    { intros q' Hq'.
      destruct (Hall q' (list_elem_of_further _ _ _ Hq')) as (Hs & Hd & Hfn & Hn).
      split; [|by split]. rewrite Hother; [done|apply not_eq_sym, Hnt|].
      intros Heq%PathFacts.append_inj_l. by subst q'. }
    exists w'. rewrite (bind_Ok _ _ _ _ _ Hren), (bind_Ok _ _ _ _ _ Hfor).
    split; [reflexivity|]. do 5 (split; [done|]). split.
    + intros q0 [->|Hq0]%elem_of_cons.
      * assert (Hnotin : q +:+ ".tmp" ∉ rest).
        { intros Hin'.
          by destruct (Hall _ (list_elem_of_further _ _ _ Hin')) as (_ & _ & _ & Hn);
            eapply Hn. }
        assert (Hnotin' : q +:+ ".tmp" ∉ map (fun q => q +:+ ".tmp") rest).
        { intros (q' & Heq%PathFacts.append_inj_l & Hq')%list_elem_of_fmap. by subst q'. }
        assert (Hqt : q ∉ map (fun q => q +:+ ".tmp") rest).
        { intros (q' & Heq & _)%list_elem_of_fmap. by eapply Hnt. }
        rewrite (Hout q Hq Hqt), (Hout _ Hnotin Hnotin'). cbn.
        rewrite lookup_insert_eq. split; [done|].
        rewrite lookup_insert_ne by apply Hnt. by rewrite lookup_delete_eq.
      * destruct (Hin q0 Hq0) as [H1 H2]. split; [|done]. rewrite H1.
        destruct (Hall q0 (list_elem_of_further _ _ _ Hq0)) as (_ & _ & _ & Hn).
        apply Hother; [apply not_eq_sym, Hnt|].
        intros Heq%PathFacts.append_inj_l. by subst q0.
    + intros p Hp Hpt. apply not_elem_of_cons in Hp as [Hp1 Hp2].
      cbn [map] in Hpt. apply not_elem_of_cons in Hpt as [Hp3 Hp4].
      rewrite (Hout p Hp2 Hp4). by apply Hother.
Qed.

(** *** [close_files] *)

Lemma own_handles_fields self w w1 :
  handles w1 = handles w → open_fhs w1 = open_fhs w →
  own_handles self w → own_handles self w1.
Proof. unfold own_handles. by intros -> ->. Qed.

Lemma OutputDriver_close_files_in_place self completed_successfully rename_tmps w :
  own_handles self w →
  completed_successfully && rename_tmps = false →
  OutputDriver_close_files self completed_successfully rename_tmps w
  = (close_all (top_leaves (handles w)) w, Ok (map fh_name (top_leaves (handles w)))).
Proof.
  intros [Hnodup Hown] Hflags. unfold OutputDriver_close_files, bind, gets.
  rewrite _walk_dict_paths by done.
  rewrite _walk_dict_close; [by rewrite Hflags|done|].
  intros fh Hfh. by apply Hown.
Qed.

(** Without the renaming step, and however it ends, the method has
    done nothing but close the first so many of the handles at the
    top. *)
Lemma OutputDriver_close_files_world self completed_successfully rename_tmps w w' r :
  completed_successfully && rename_tmps = false →
  OutputDriver_close_files self completed_successfully rename_tmps w = (w', r) →
  ∃ n, w' = close_all (take n (top_leaves (handles w))) w.
Proof.
  intros Hflags. unfold OutputDriver_close_files, bind, gets. rewrite Hflags.
  destruct (_walk_dict (_handle_to_path self) (Dict (handles w)) w) as [w1 [paths|e]]
    eqn:Epaths; apply _walk_dict_paths_world in Epaths as ->.
  2:{ intros [= <- _]. by exists 0%nat. }
  destruct (_walk_dict close (Dict (handles w)) w) as [w1 [closed|e]] eqn:Eclose;
    destruct (_walk_dict_close_prefix _ _ _ _ Eclose) as (n & -> & _);
    intros [= <- _]; by exists n.
Qed.

Lemma OutputDriver_close_files_rename self w finals :
  own_handles self w →
  map fh_name (top_leaves (handles w)) = map (fun q => q +:+ ".tmp") finals →
  NoDup finals →
  (∀ q, q ∈ finals →
        is_Some (files w !! (q +:+ ".tmp")) ∧ (q ∉ dirs w) ∧ PathFacts.file_name q
        ∧ (∀ q', q ≠ q' +:+ ".tmp")) →
  ∃ w',
    OutputDriver_close_files self true true w = (w', Ok finals)
    ∧ dirs w' = dirs w ∧ calls w' = calls w ∧ handles w' = handles w
    ∧ close_calls w' = close_calls w ++ map fh_id (top_leaves (handles w))
    ∧ (∀ i, i ∈ open_fhs w' ↔ i ∈ open_fhs w ∧ i ∉ map fh_id (top_leaves (handles w)))
    ∧ (∀ q, q ∈ finals →
            files w' !! q = files w !! (q +:+ ".tmp") ∧ files w' !! (q +:+ ".tmp") = None)
    ∧ (∀ p, p ∉ finals → p ∉ map (fun q => q +:+ ".tmp") finals →
            files w' !! p = files w !! p).
Proof.
  intros [Hnodup' Hown] Hpaths Hnodup Hall.
  destruct (close_all_fields (top_leaves (handles w)) w)
    as (Hf & Hd & Hc & Hh & Hn & Hcc & Ho).
  destruct (rename_tmps finals (close_all (top_leaves (handles w)) w) Hnodup)
    as (w' & Hfor & Hd' & Ho' & Hcc' & Hc' & Hh' & Hin & Hout).
  { intros q Hq. rewrite Hf, Hd. by apply Hall. }
  exists w'. split.
  - unfold OutputDriver_close_files, bind, gets.
    rewrite _walk_dict_paths by done.
    rewrite _walk_dict_close; [|done|intros fh Hfh; by apply Hown]. cbn [andb].
    by rewrite Hpaths, Hfor.
  - rewrite Hd', Hc', Hh', Hcc', Hd, Hc, Hh, Hcc. do 4 (split; [done|]).
    split; [intros i; by rewrite Ho'|]. rewrite <- Hf. by split.
Qed.

Lemma log_call_fields e w :
  ∃ w1, log_call e w = (w1, Ok tt)
    ∧ files w1 = files w ∧ dirs w1 = dirs w ∧ handles w1 = handles w
    ∧ open_fhs w1 = open_fhs w ∧ close_calls w1 = close_calls w
    ∧ calls w1 = calls w ++ [e].
Proof. eexists. split; [reflexivity|]. by repeat split. Qed.

(** *** The conversion step of the ENVI driver *)

Lemma _tif_to_envi_run q w c :
  Path.suffix q = ".bil" →
  files w !! (q +:+ ".tmp") = Some c →
  q ∉ dirs w →
  q +:+ ".tif" ∉ dirs w →
  ∃ w',
    _tif_to_envi (q +:+ ".tmp") w = (w', Ok tt)
    ∧ dirs w' = dirs w ∧ open_fhs w' = open_fhs w ∧ close_calls w' = close_calls w
    ∧ calls w' = calls w ∧ handles w' = handles w
    ∧ files w' !! (q +:+ ".tmp") = None
    ∧ match gdal_translate c with
      | Some converted =>
          files w' !! q = Some converted ∧ files w' !! (q +:+ ".tif") = None
      | None =>
          files w' !! (q +:+ ".tif") = Some c ∧ files w' !! q = files w !! q
      end
    ∧ (∀ p, p ∉ [q; q +:+ ".tmp"; q +:+ ".tif"] → files w' !! p = files w !! p).
Proof.
  intros Hbil Hsrc Hfree Hdir.
  destruct (PathFacts.envi_paths q Hbil) as [Hdest Htif].
  destruct (PathFacts.envi_paths_distinct q Hbil) as (Hne1 & Hne2 & Hne3).
  assert (Hq : PathFacts.file_name q).
  { apply PathFacts.valid_extension_file_name. rewrite Hbil.
    rewrite !elem_of_cons. tauto. }
  set (w1 := set_files (fun fs => <[q +:+ ".tif" := c]> (delete (q +:+ ".tmp") fs)) w).
  assert (Hren : rename (q +:+ ".tmp") (q +:+ ".tif") w = (w1, Ok (q +:+ ".tif"))).
  { apply rename_run; [done|apply PathFacts.file_name_tif|done]. }
  assert (Hsrc1 : files w1 !! (q +:+ ".tif") = Some c) by apply lookup_insert_eq.
  assert (Hfree1 : is_dir q w1 = false) by (by apply is_dir_false).
  unfold _tif_to_envi. rewrite Hdest, Htif. cbn [of_option].
  unfold bind at 1. unfold ret at 1. unfold bind at 1. unfold ret at 1.
  rewrite (bind_Ok _ _ _ _ _ Hren). unfold bind at 1. unfold gets at 1.
  unfold bind at 1. unfold gets at 1.
  rewrite Hsrc1, Hfree1. cbn [mbind option_bind].
  destruct (gdal_translate c) as [converted|] eqn:Egdal.
  - set (w2 := set_files (<[q := converted]>) w1).
    assert (Hunlink : unlink (q +:+ ".tif") w2
                      = (set_files (delete (q +:+ ".tif")) w2, Ok tt)).
    { unfold unlink. cbn [w2 set_files files].
      rewrite lookup_insert_ne by done. by rewrite Hsrc1. }
    exists (set_files (delete (q +:+ ".tif")) w2).
    split; [by unfold bind, modify; fold w2; rewrite Hunlink|].
    do 5 (split; [done|]). cbn [set_files files w2 w1]. split; [|split; [split|]].
    + rewrite lookup_delete_ne by done. rewrite lookup_insert_ne by done.
      rewrite lookup_insert_ne by done. apply lookup_delete_eq.
    + rewrite lookup_delete_ne by done. apply lookup_insert_eq.
    + apply lookup_delete_eq.
    + intros p Hp. rewrite !not_elem_of_cons in Hp. destruct Hp as (Hp1 & Hp2 & Hp3 & _).
      rewrite lookup_delete_ne by done. rewrite lookup_insert_ne by done.
      rewrite lookup_insert_ne by done. by rewrite lookup_delete_ne.
  - exists w1. split; [done|]. do 5 (split; [done|]).
    cbn [set_files files w1]. split; [|split; [split|]].
    + rewrite lookup_insert_ne by done. apply lookup_delete_eq.
    + apply lookup_insert_eq.
    + rewrite lookup_insert_ne by done. by rewrite lookup_delete_ne.
    + intros p Hp. rewrite !not_elem_of_cons in Hp. destruct Hp as (Hp1 & Hp2 & Hp3 & _).
      rewrite lookup_insert_ne by done. by rewrite lookup_delete_ne.
Qed.

Lemma tif_to_envi_all finals :
  ∀ w,
    NoDup finals →
    (∀ q, q ∈ finals →
          Path.suffix q = ".bil" ∧ is_Some (files w !! (q +:+ ".tmp"))
          ∧ (q ∉ dirs w) ∧ (q +:+ ".tif" ∉ dirs w)) →
    ∃ w',
      for_each _tif_to_envi (map (fun q => q +:+ ".tmp") finals) w
      = (w', Ok (map (fun _ => tt) finals))
      ∧ dirs w' = dirs w ∧ open_fhs w' = open_fhs w ∧ close_calls w' = close_calls w
      ∧ calls w' = calls w ∧ handles w' = handles w
      ∧ (∀ q, q ∈ finals →
              files w' !! (q +:+ ".tmp") = None
              ∧ match files w !! (q +:+ ".tmp") ≫= gdal_translate with
                | Some converted =>
                    files w' !! q = Some converted ∧ files w' !! (q +:+ ".tif") = None
                | None =>
                    files w' !! (q +:+ ".tif") = files w !! (q +:+ ".tmp")
                    ∧ files w' !! q = files w !! q
                end)
      ∧ (∀ p, (∀ q, q ∈ finals → p ∉ [q; q +:+ ".tmp"; q +:+ ".tif"]) →
              files w' !! p = files w !! p).
Proof.
  induction finals as [|q rest IH]; intros w Hnodup Hall; cbn [map for_each].
  - exists w. do 6 (split; [done|]). split; [|done].
    intros q0 Hq0. by apply elem_of_nil in Hq0.
  - apply NoDup_cons in Hnodup as [Hq Hnodup].
    destruct (Hall q (list_elem_of_here _ _)) as (Hbil & [c Hc] & Hfree & Hdir).
    destruct (_tif_to_envi_run q w c Hbil Hc Hfree Hdir)
      as (w1 & Hrun & Hd1 & Ho1 & Hcc1 & Hc1 & Hh1 & Htmp1 & Hres1 & Hout1).
    assert (Hapart : ∀ q', q' ∈ rest →
              ∀ p, p ∈ [q'; q' +:+ ".tmp"; q' +:+ ".tif"] → files w1 !! p = files w !! p).
    { intros q' Hq' p Hp. apply Hout1.
      destruct (Hall q' (list_elem_of_further _ _ _ Hq')) as (Hbil' & _).
      eapply PathFacts.envi_paths_disjoint; [exact Hbil'|exact Hbil| |exact Hp].
      intros ->. done. }
    destruct (IH w1 Hnodup) as (w' & Hfor & Hd & Ho & Hcc & Hcl & Hh & Hin & Hout).
    { intros q' Hq'.
      destruct (Hall q' (list_elem_of_further _ _ _ Hq')) as (Hb & Hs & Hfr & Hdr).
      split; [done|]. split; [|by rewrite Hd1].
      rewrite (Hapart q' Hq'); [done|]. apply list_elem_of_further, list_elem_of_here. }
    exists w'. rewrite (bind_Ok _ _ _ _ _ Hrun), (bind_Ok _ _ _ _ _ Hfor).
    split; [reflexivity|].
    split; [congruence|]. split; [congruence|]. split; [congruence|].
    split; [congruence|]. split; [congruence|]. split.
    + intros q0 [->|Hq0]%elem_of_cons.
      * assert (Hmine : ∀ p, p ∈ [q; q +:+ ".tmp"; q +:+ ".tif"] →
                  files w' !! p = files w1 !! p).
        { intros p Hp. apply Hout. intros q' Hq' Hp'.
          destruct (Hall q' (list_elem_of_further _ _ _ Hq')) as (Hbil' & _).
          eapply PathFacts.envi_paths_disjoint; [exact Hbil|exact Hbil'| |exact Hp|exact Hp'].
          intros ->. done. }
        rewrite Hc. cbn [mbind option_bind].
        rewrite !Hmine by (rewrite !elem_of_cons; tauto).
        split; [done|]. destruct (gdal_translate c); [done|].
        by destruct Hres1 as [-> ->].
      * destruct (Hin q0 Hq0) as [Htmp Hres]. split; [done|].
        rewrite (Hapart q0 Hq0 (q0 +:+ ".tmp")) in Hres by (rewrite !elem_of_cons; tauto).
        destruct (files w !! (q0 +:+ ".tmp") ≫= gdal_translate); [done|].
        destruct Hres as [-> ->]. split; [done|].
        apply (Hapart q0 Hq0). left.
    + intros p Hp. rewrite Hout.
      * apply Hout1. apply Hp. left.
      * intros q' Hq'. apply Hp. by right.
Qed.

Lemma close_files_unsuccessful self w :
  own_handles self w →
  ∃ w' r,
    close_files self false w = (w', Ok r)
    ∧ (cls self ≠ ENVIBILOutputDriver → r = Some (map fh_name (top_leaves (handles w))))
    ∧ files w' = files w ∧ dirs w' = dirs w
    ∧ close_calls w' = close_calls w ++ map fh_id (top_leaves (handles w))
    ∧ (∀ i, i ∈ open_fhs w' ↔ i ∈ open_fhs w ∧ i ∉ map fh_id (top_leaves (handles w))).
Proof.
  intros Hown.
  destruct (log_call_fields (CloseFiles false) w)
    as (w1 & Hlog & Hf1 & Hd1 & Hh1 & Ho1 & Hcc1 & Hc1).
  assert (Hown1 : own_handles self w1) by (by eapply own_handles_fields).
  destruct (close_all_fields (top_leaves (handles w1)) w1)
    as (Hf & Hd & Hc & Hh & Hn & Hcc & Ho).
  exists (close_all (top_leaves (handles w1)) w1).
  exists (if decide (cls self = ENVIBILOutputDriver) then None
          else Some (map fh_name (top_leaves (handles w)))).
  split.
  - unfold close_files. rewrite (bind_Ok _ _ _ _ _ Hlog).
    rewrite <- Hh1.
    destruct (cls self) eqn:Hcls; cbn [decide_rel];
      try (by erewrite bind_Ok by (by apply OutputDriver_close_files_in_place));
      unfold ENVIBIL_close_files;
      by erewrite bind_Ok
        by (by erewrite bind_Ok by (by apply OutputDriver_close_files_in_place)).
  - split; [intros Hbase; by destruct (decide _)|].
    split; [by rewrite Hf|]. split; [by rewrite Hd|].
    split; [by rewrite Hcc, Hcc1, Hh1|].
    intros i. by rewrite Ho, Ho1, Hh1.
Qed.

(** [close_files(False)] moves no file and makes no directory, however
    it ends. *)
Lemma close_files_unsuccessful_files self w w' r :
  close_files self false w = (w', r) → files w' = files w ∧ dirs w' = dirs w.
Proof.
  destruct (log_call_fields (CloseFiles false) w)
    as (w1 & Hlog & Hf1 & Hd1 & _).
  unfold close_files. rewrite (bind_Ok _ _ _ _ _ Hlog).
  assert (Hbase : ∀ rename_tmps w2 r2,
            OutputDriver_close_files self false rename_tmps w1 = (w2, r2) →
            files w2 = files w ∧ dirs w2 = dirs w).
  { intros rename_tmps w2 r2 Hrun.
    apply OutputDriver_close_files_world in Hrun as [n ->]; [|done].
    destruct (close_all_fields (take n (top_leaves (handles w1))) w1) as (Hf & Hd & _).
    by rewrite Hf, Hd. }
  destruct (cls self);
    try (unfold bind;
         destruct (OutputDriver_close_files self false true w1) as [w2 [paths|e]] eqn:Erun;
         intros [= <- _]; by eapply Hbase).
  unfold ENVIBIL_close_files, bind.
  destruct (OutputDriver_close_files self false false w1) as [w2 [paths|e]] eqn:Erun;
    intros [= <- _]; by eapply Hbase.
Qed.

Lemma valid_extensions_known c e :
  e ∈ valid_extensions c → e ∈ [".nc"; ".tif"; ".tiff"; ".bil"].
Proof.
  destruct c; cbn [valid_extensions]; rewrite ?elem_of_cons, ?elem_of_nil; tauto.
Qed.

Lemma close_files_successful self w finals :
  own_handles self w →
  cls self ≠ ENVIBILOutputDriver →
  map fh_name (top_leaves (handles w)) = map (fun q => q +:+ ".tmp") finals →
  NoDup finals →
  (∀ q, q ∈ finals →
        Path.suffix q ∈ valid_extensions (cls self)
        ∧ is_Some (files w !! (q +:+ ".tmp")) ∧ (q ∉ dirs w)) →
  ∃ w',
    close_files self true w = (w', Ok (Some finals))
    ∧ close_calls w' = close_calls w ++ map fh_id (top_leaves (handles w))
    ∧ (∀ i, i ∈ open_fhs w' ↔ i ∈ open_fhs w ∧ i ∉ map fh_id (top_leaves (handles w)))
    ∧ (∀ q, q ∈ finals →
            files w' !! q = files w !! (q +:+ ".tmp")
            ∧ files w' !! (q +:+ ".tmp") = None)
    ∧ (∀ p, p ∉ finals → p ∉ map (fun q => q +:+ ".tmp") finals →
            files w' !! p = files w !! p).
Proof.
  intros Hown Hbase Hpaths Hnodup Hall.
  destruct (log_call_fields (CloseFiles true) w)
    as (w1 & Hlog & Hf1 & Hd1 & Hh1 & Ho1 & Hcc1 & Hc1).
  destruct (OutputDriver_close_files_rename self w1 finals)
    as (w' & Hclose & Hd' & Hc' & Hh' & Hcc' & Ho' & Hin & Hout).
  { by eapply own_handles_fields. }
  { by rewrite Hh1. }
  { done. }
  { intros q Hq. rewrite Hf1, Hd1. destruct (Hall q Hq) as (Hvalid & Hfile & Hdir).
    apply valid_extensions_known in Hvalid. do 2 (split; [done|]).
    split; [by apply PathFacts.valid_extension_file_name|].
    intros q'. by apply PathFacts.valid_extension_not_tmp. }
  exists w'. split.
  - unfold close_files. rewrite (bind_Ok _ _ _ _ _ Hlog).
    destruct (cls self) eqn:Hcls; try done;
      by rewrite (bind_Ok _ _ _ _ _ Hclose).
  - rewrite Hcc', Hcc1, Hh1. split; [done|]. split.
    + intros i. by rewrite Ho', Ho1, Hh1.
    + rewrite <- Hf1. by split.
Qed.

Lemma close_files_converted self w finals :
  own_handles self w →
  cls self = ENVIBILOutputDriver →
  map fh_name (top_leaves (handles w)) = map (fun q => q +:+ ".tmp") finals →
  NoDup finals →
  (∀ q, q ∈ finals →
        Path.suffix q = ".bil" ∧ is_Some (files w !! (q +:+ ".tmp"))
        ∧ (q ∉ dirs w) ∧ (q +:+ ".tif" ∉ dirs w)) →
  ∃ w' r,
    close_files self true w = (w', Ok r)
    ∧ close_calls w' = close_calls w ++ map fh_id (top_leaves (handles w))
    ∧ (∀ i, i ∈ open_fhs w' ↔ i ∈ open_fhs w ∧ i ∉ map fh_id (top_leaves (handles w)))
    ∧ (∀ q, q ∈ finals →
            files w' !! (q +:+ ".tmp") = None
            ∧ match files w !! (q +:+ ".tmp") ≫= gdal_translate with
              | Some converted =>
                  files w' !! q = Some converted ∧ files w' !! (q +:+ ".tif") = None
              | None =>
                  files w' !! (q +:+ ".tif") = files w !! (q +:+ ".tmp")
                  ∧ files w' !! q = files w !! q
              end).
Proof.
  intros Hown Hcls Hpaths Hnodup Hall.
  destruct (log_call_fields (CloseFiles true) w)
    as (w1 & Hlog & Hf1 & Hd1 & Hh1 & Ho1 & Hcc1 & Hc1).
  assert (Hown1 : own_handles self w1) by (by eapply own_handles_fields).
  destruct (close_all_fields (top_leaves (handles w1)) w1)
    as (Hf & Hd & Hc & Hh & Hn & Hcc & Ho).
  destruct (tif_to_envi_all finals (close_all (top_leaves (handles w1)) w1) Hnodup)
    as (w' & Hfor & Hd' & Ho' & Hcc' & Hc' & Hh' & Hin & Hout).
  { intros q Hq. rewrite Hf, Hd, Hf1, Hd1. by apply Hall. }
  assert (Hpaths1 : map fh_name (top_leaves (handles w1))
                    = map (fun q => q +:+ ".tmp") finals) by (by rewrite Hh1).
  assert (Henvi : ENVIBIL_close_files self true w1 = (w', Ok tt)).
  { unfold ENVIBIL_close_files.
    rewrite (bind_Ok _ _ _ _ _
               (OutputDriver_close_files_in_place self true false w1 Hown1 eq_refl)).
    cbn beta. rewrite Hpaths1. by rewrite (bind_Ok _ _ _ _ _ Hfor). }
  exists w', None. split.
  - unfold close_files. rewrite (bind_Ok _ _ _ _ _ Hlog), Hcls.
    by rewrite (bind_Ok _ _ _ _ _ Henvi).
  - split; [by rewrite Hcc', Hcc, Hcc1, Hh1|]. split.
    + intros i. by rewrite Ho', Ho, Ho1, Hh1.
    + rewrite Hf, Hf1 in Hin. done.
Qed.

(** C1, amended.  The handles are those that are values of the
    dictionary itself, and they are the driver's own: different file
    objects of the class that the driver opens, the netCDF datasets
    among them open.  Then [close_files(False)] returns, having called
    [close()] once on each of them, in their order; it renames nothing
    and leaves every file where it is, and, for the drivers other than
    the ENVI driver, what it returns are the paths of these handles.
    When the handles are at paths [q.tmp] that exist, for different
    outputs [q] with an extension that the driver accepts, at none of
    which there is a directory, [close_files(True)] closes them in the
    same way and then: for the drivers other than the ENVI driver,
    moves each [q.tmp] to [q], touches no other path and returns the
    paths [q]; for the ENVI driver, where there is no directory at
    [q.tif] either, leaves no [q.tmp], with the converted file at [q]
    and nothing at [q.tif] where [gdal_translate] succeeds, and the
    unconverted file at [q.tif] and [q] as it was where it fails. *)
Theorem C1_close_files self w :
  let fhs := top_leaves (handles w) in
  own_handles self w →
  (∃ w' r,
      close_files self false w = (w', Ok r)
      ∧ (cls self ≠ ENVIBILOutputDriver → r = Some (map fh_name fhs))
      ∧ files w' = files w ∧ dirs w' = dirs w
      ∧ close_calls w' = close_calls w ++ map fh_id fhs
      ∧ (∀ i, i ∈ open_fhs w' ↔ i ∈ open_fhs w ∧ i ∉ map fh_id fhs))
  ∧ (cls self ≠ ENVIBILOutputDriver →
     ∀ finals,
       map fh_name fhs = map (fun q => q +:+ ".tmp") finals →
       NoDup finals →
       (∀ q, q ∈ finals →
             Path.suffix q ∈ valid_extensions (cls self)
             ∧ is_Some (files w !! (q +:+ ".tmp")) ∧ (q ∉ dirs w)) →
       ∃ w',
         close_files self true w = (w', Ok (Some finals))
         ∧ close_calls w' = close_calls w ++ map fh_id fhs
         ∧ (∀ i, i ∈ open_fhs w' ↔ i ∈ open_fhs w ∧ i ∉ map fh_id fhs)
         ∧ (∀ q, q ∈ finals →
                 files w' !! q = files w !! (q +:+ ".tmp")
                 ∧ files w' !! (q +:+ ".tmp") = None)
         ∧ (∀ p, p ∉ finals → p ∉ map (fun q => q +:+ ".tmp") finals →
                 files w' !! p = files w !! p))
  ∧ (cls self = ENVIBILOutputDriver →
     ∀ finals,
       map fh_name fhs = map (fun q => q +:+ ".tmp") finals →
       NoDup finals →
       (∀ q, q ∈ finals →
             Path.suffix q ∈ valid_extensions (cls self)
             ∧ is_Some (files w !! (q +:+ ".tmp")) ∧ (q ∉ dirs w)
             ∧ (q +:+ ".tif" ∉ dirs w)) →
       ∃ w' r,
         close_files self true w = (w', Ok r)
         ∧ close_calls w' = close_calls w ++ map fh_id fhs
         ∧ (∀ i, i ∈ open_fhs w' ↔ i ∈ open_fhs w ∧ i ∉ map fh_id fhs)
         ∧ (∀ q, q ∈ finals →
                 files w' !! (q +:+ ".tmp") = None
                 ∧ match files w !! (q +:+ ".tmp") ≫= gdal_translate with
                   | Some converted =>
                       files w' !! q = Some converted ∧ files w' !! (q +:+ ".tif") = None
                   | None =>
                       files w' !! (q +:+ ".tif") = files w !! (q +:+ ".tmp")
                       ∧ files w' !! q = files w !! q
                   end)).
Proof.
  intros fhs Hown. subst fhs. split; [by apply close_files_unsuccessful|]. split.
  - intros Hbase finals. by apply close_files_successful.
  - intros Henvi finals Hpaths Hnodup Hall. apply close_files_converted; try done.
    intros q Hq. destruct (Hall q Hq) as (Hvalid & Hrest).
    rewrite Henvi in Hvalid. cbn [valid_extensions] in Hvalid.
    by apply list_elem_of_singleton in Hvalid.
Qed.

(** *** [_prepare_output_file] *)

(** The directory is made if it can be; nothing else changes, and
    nothing at all when it is there already. *)
Lemma mkdir_parents_pass d w :
  ∃ w1, except_OSError_pass (mkdir_parents d) w = (w1, Ok tt)
    ∧ files w1 = files w ∧ handles w1 = handles w ∧ calls w1 = calls w
    ∧ open_fhs w1 = open_fhs w ∧ close_calls w1 = close_calls w
    ∧ next_fh w1 = next_fh w
    ∧ (∀ x, x ∈ dirs w → x ∈ dirs w1)
    ∧ (d ∈ dirs w → w1 = w).
Proof.
  unfold except_OSError_pass, mkdir_parents.
  destruct (exists_ d w) eqn:Ed.
  - exists w. by repeat split.
  - destruct (existsb _ _).
    + exists w. by repeat split.
    + eexists. split; [reflexivity|]. cbn. do 6 (split; [done|]). split.
      * intros x Hx. set_solver.
      * intros Hd. unfold exists_ in Ed. rewrite (is_dir_true _ _ Hd) in Ed.
        by rewrite orb_true_r in Ed.
Qed.

Lemma _prepare_output_file_invalid self stat kwargs w :
  Path.suffix (_generate_output_filename self kwargs stat) ∉ valid_extensions (cls self) →
  _prepare_output_file self stat kwargs w
  = (w, Raise (StatsOutputError (InvalidFilename (_generate_output_filename self kwargs stat)))).
Proof.
  intros Hinvalid. unfold _prepare_output_file.
  by rewrite bool_decide_eq_false_2.
Qed.

Lemma _prepare_output_file_exists self stat kwargs w :
  Path.suffix (_generate_output_filename self kwargs stat) ∈ valid_extensions (cls self) →
  exists_ (_generate_output_filename self kwargs stat) w = true →
  _prepare_output_file self stat kwargs w
  = (w, Raise (OutputFileAlreadyExists (_generate_output_filename self kwargs stat))).
Proof.
  intros Hvalid Hthere. unfold _prepare_output_file.
  rewrite bool_decide_eq_true_2 by done. cbn [negb]. unfold bind, gets.
  by rewrite Hthere.
Qed.

(** A new output: after the directory step the stale temporary file, if
    there is one, is removed, and the temporary path is returned. *)
Lemma _prepare_output_file_new self stat kwargs w :
  Path.suffix (_generate_output_filename self kwargs stat) ∈ valid_extensions (cls self) →
  exists_ (_generate_output_filename self kwargs stat) w = false →
  ∃ w1,
    except_OSError_pass
      (mkdir_parents (Path.parent (_generate_output_filename self kwargs stat))) w
    = (w1, Ok tt)
    ∧ _prepare_output_file self stat kwargs w
      = match files w1 !! (_generate_output_filename self kwargs stat +:+ ".tmp") with
        | Some _ =>
            (set_files (delete (_generate_output_filename self kwargs stat +:+ ".tmp")) w1,
             Ok (_generate_output_filename self kwargs stat +:+ ".tmp"))
        | None =>
            if bool_decide (_generate_output_filename self kwargs stat +:+ ".tmp" ∈ dirs w1)
            then (w1, Raise (OSError (_generate_output_filename self kwargs stat +:+ ".tmp")))
            else (w1, Ok (_generate_output_filename self kwargs stat +:+ ".tmp"))
        end.
Proof.
  intros Hvalid Hnew. set (p := _generate_output_filename self kwargs stat) in *.
  destruct (mkdir_parents_pass (Path.parent p) w) as (w1 & Hmk & _).
  exists w1. split; [done|].
  unfold _prepare_output_file. fold p.
  rewrite bool_decide_eq_true_2 by done. cbn [negb]. unfold bind at 1. unfold gets at 1.
  rewrite Hnew. rewrite (bind_Ok _ _ _ _ _ Hmk).
  rewrite PathFacts.with_suffix_tmp by (by eapply valid_extensions_known).
  cbn [of_option]. unfold bind, ret, gets, exists_, unlink.
  rewrite (is_dir_file_name _ _ (PathFacts.file_name_tmp p)).
  destruct (files w1 !! (p +:+ ".tmp")) as [c|] eqn:Etmp.
  - rewrite bool_decide_eq_true_2 by eauto. cbn [orb]. by rewrite Etmp.
  - rewrite (bool_decide_eq_false_2 (is_Some None)) by (by intros [? ?]). cbn [orb].
    destruct (bool_decide _); [by rewrite Etmp|done].
Qed.

Lemma _prepare_output_file_keeps_tmp self stat kwargs :
  keeps tmp_frame (fun t => t = _generate_output_filename self kwargs stat +:+ ".tmp")
        (_prepare_output_file self stat kwargs).
Proof.
  intros w w' r.
  destruct (decide (Path.suffix (_generate_output_filename self kwargs stat)
                    ∈ valid_extensions (cls self))) as [Hvalid|Hinvalid].
  - destruct (exists_ (_generate_output_filename self kwargs stat) w) eqn:Ethere.
    + rewrite _prepare_output_file_exists by done. intros [= <- <-].
      split; [apply tmp_frame_refl|done].
    + destruct (_prepare_output_file_new self stat kwargs w Hvalid Ethere)
        as (w1 & Hmk & ->).
      destruct (mkdir_parents_pass
                  (Path.parent (_generate_output_filename self kwargs stat)) w)
        as (w1' & Hmk' & Hfiles & _).
      rewrite Hmk in Hmk'. injection Hmk' as <-.
      destruct (files w1 !! _) eqn:Etmp; [|destruct (bool_decide _)];
        intros [= <- <-].
      * split; [|by intros ? [= <-]]. intros p Hp. cbn.
        rewrite lookup_delete_ne by (apply not_eq_sym, Hp). by rewrite Hfiles.
      * split; [by apply tmp_frame_same_files|done].
      * split; [by apply tmp_frame_same_files|by intros ? [= <-]].
  - rewrite _prepare_output_file_invalid by done. intros [= <- <-].
    split; [apply tmp_frame_refl|done].
Qed.

(** When [_prepare_output_file] returns, the output was not there, its
    extension is accepted, and the dictionary of handles is as before. *)
Lemma _prepare_output_file_Ok self stat kwargs w w' t :
  _prepare_output_file self stat kwargs w = (w', Ok t) →
  t = _generate_output_filename self kwargs stat +:+ ".tmp"
  ∧ Path.suffix (_generate_output_filename self kwargs stat) ∈ valid_extensions (cls self)
  ∧ files w !! _generate_output_filename self kwargs stat = None
  ∧ handles w' = handles w ∧ calls w' = calls w.
Proof.
  destruct (decide (Path.suffix (_generate_output_filename self kwargs stat)
                    ∈ valid_extensions (cls self))) as [Hvalid|Hinvalid];
    [|by rewrite _prepare_output_file_invalid].
  destruct (exists_ (_generate_output_filename self kwargs stat) w) eqn:Ethere;
    [by rewrite _prepare_output_file_exists|].
  destruct (_prepare_output_file_new self stat kwargs w Hvalid Ethere) as (w1 & Hmk & ->).
  destruct (mkdir_parents_pass
              (Path.parent (_generate_output_filename self kwargs stat)) w)
    as (w1' & Hmk' & Hfiles & Hh & Hc & _).
  rewrite Hmk in Hmk'. injection Hmk' as <-.
  assert (Hnone : files w !! _generate_output_filename self kwargs stat = None).
  { by apply exists_false in Ethere as [? _]. }
  destruct (files w1 !! _) eqn:Etmp; [|destruct (bool_decide _)];
    intros [= <- <-]; by repeat split.
Qed.

(** *** Opening the files of the GeoTiff driver *)

(** The first statement of the loop body reads [output_filename], which
    no statement before it has bound. *)
Lemma Geotiff_open_output_files_unbound self w :
  _output_products self ≠ [] →
  Geotiff_open_output_files self w = (w, Raise (UnboundLocalError "output_filename")).
Proof.
  unfold Geotiff_open_output_files.
  destruct (_output_products self) as [|[prod_name stat] rest]; [done|].
  intros _. reflexivity.
Qed.

Lemma Geotiff_open_output_files_nothing self w :
  _output_products self = [] → Geotiff_open_output_files self w = (w, Ok tt).
Proof. unfold Geotiff_open_output_files. by intros ->. Qed.

(** *** Opening the files of the NetCDF driver *)

Lemma for_each_app {A B} (f : A → M B) (l1 l2 : list A) w :
  for_each f (l1 ++ l2) w
  = match for_each f l1 w with
    | (w1, Ok bs1) =>
        match for_each f l2 w1 with
        | (w2, Ok bs2) => (w2, Ok (bs1 ++ bs2))
        | (w2, Raise e) => (w2, Raise e)
        end
    | (w1, Raise e) => (w1, Raise e)
    end.
Proof.
  revert w. induction l1 as [|a l1 IH]; intros w; cbn [app for_each].
  - unfold ret. by destruct (for_each f l2 w) as [w2 [bs2|e]].
  - unfold bind. destruct (f a w) as [w1 [b|e]]; [|done].
    rewrite IH. destruct (for_each f l1 w1) as [w2 [bs1|e]]; [|done].
    unfold ret. by destruct (for_each f l2 w2) as [w3 [bs2|e]].
Qed.

Lemma _create_storage_unit_Ok self stat t w w' nco :
  _create_storage_unit self stat t w = (w', Ok nco) →
  fh_name nco = t ∧ handles w' = handles w ∧ calls w' = calls w.
Proof.
  unfold _create_storage_unit, as_uri, _nco_from_sources, bind, lift, open_w, write_item,
    ret, raise.
  destruct (Path.is_absolute t); [|discriminate].
  destruct (_find_source_datasets self stat _) as [datasets|e]; [|discriminate].
  destruct (_create_netcdf_var_params self stat) as [params|e]; [|discriminate].
  destruct (netcdf_refuses _ _); [discriminate|].
  destruct (_ || _); [discriminate|]. cbn [fh_name files].
  destruct (_ !! t); [|discriminate]. by intros [= <- <-].
Qed.

Lemma _create_storage_unit_keeps_tmp self stat q :
  keeps tmp_frame (fun _ => True) (_create_storage_unit self stat (q +:+ ".tmp")).
Proof.
  unfold _create_storage_unit.
  eapply (keeps_bind tmp_frame tmp_frame_trans _ _ _ _).
  { unfold as_uri. destruct (Path.is_absolute _);
      [apply (keeps_ret tmp_frame tmp_frame_refl (fun _ => True)); done
      |apply (keeps_raise tmp_frame tmp_frame_refl)]. }
  intros uri _. eapply (keeps_bind tmp_frame tmp_frame_trans _ _ _ _).
  { apply (keeps_lift tmp_frame tmp_frame_refl (fun _ => True)). done. }
  intros datasets _. eapply (keeps_bind tmp_frame tmp_frame_trans _ _ _ _).
  { apply (keeps_lift tmp_frame tmp_frame_refl (fun _ => True)). done. }
  intros variable_params _. eapply (keeps_bind tmp_frame tmp_frame_trans _ _ _ _).
  { unfold _nco_from_sources. destruct (netcdf_refuses _ _);
      [apply (keeps_raise tmp_frame tmp_frame_refl)|apply keeps_tmp_open_w]. }
  intros nco Hnco. eapply (keeps_bind tmp_frame tmp_frame_trans _ _ _ _).
  { eapply keeps_tmp_write_item. exact Hnco. }
  intros _ _. by apply (keeps_ret tmp_frame tmp_frame_refl).
Qed.

Lemma NetCDFCF_open_product_keeps_tmp self entry :
  keeps tmp_frame (fun _ => True) (NetCDFCF_open_product self entry).
Proof.
  destruct entry as [prod_name stat]. unfold NetCDFCF_open_product.
  eapply (keeps_bind tmp_frame tmp_frame_trans _ _ _ _).
  { apply _prepare_output_file_keeps_tmp. }
  intros t ->. eapply (keeps_bind tmp_frame tmp_frame_trans _ _ _ _).
  { apply _create_storage_unit_keeps_tmp. }
  intros nco _. apply keeps_tmp_set_handles.
Qed.

Lemma NetCDFCF_open_product_Ok self prod_name stat w w' :
  NetCDFCF_open_product self (prod_name, stat) w = (w', Ok tt) →
  Path.suffix (_generate_output_filename self [] stat) ∈ valid_extensions (cls self)
  ∧ files w !! _generate_output_filename self [] stat = None
  ∧ calls w' = calls w
  ∧ ∃ nco, fh_name nco = _generate_output_filename self [] stat +:+ ".tmp"
           ∧ handles w' = dict_set prod_name (Leaf nco) (handles w).
Proof.
  unfold NetCDFCF_open_product. unfold bind at 1.
  destruct (_prepare_output_file self stat [] w) as [w1 [t|e]] eqn:Eprep; [|discriminate].
  apply _prepare_output_file_Ok in Eprep as (-> & Hvalid & Hnone & Hh & Hc).
  unfold bind.
  destruct (_create_storage_unit _ _ _ w1) as [w2 [nco|e]] eqn:Ecreate; [|discriminate].
  apply _create_storage_unit_Ok in Ecreate as (Hname & Hh2 & Hc2).
  intros [= <-]. do 2 (split; [done|]). split; [cbn; congruence|].
  exists nco. split; [done|]. cbn. congruence.
Qed.

Lemma top_leaves_dict_set k fh items x :
  x ∈ top_leaves (dict_set k (Leaf fh) items) → x = fh ∨ x ∈ top_leaves items.
Proof.
  induction items as [|[k' [fh'|sub]] rest IH]; cbn [dict_set top_leaves].
  - intros ?%list_elem_of_singleton. by left.
  - destruct (String.eqb k k'); cbn [top_leaves]; rewrite !elem_of_cons; tauto.
  - destruct (String.eqb k k'); cbn [top_leaves]; rewrite ?elem_of_cons; tauto.
Qed.

(** After a loop over products that ran to its end: none of their outputs
    is a file, and every handle that was added is at the temporary path
    of one of them. *)
Lemma NetCDFCF_open_loop_Ok self products :
  ∀ w w' done,
    for_each (NetCDFCF_open_product self) products w = (w', Ok done) →
    calls w' = calls w
    ∧ (∀ prod_name stat, (prod_name, stat) ∈ products →
         files w' !! _generate_output_filename self [] stat = None)
    ∧ (∀ fh, fh ∈ top_leaves (handles w') →
         fh ∈ top_leaves (handles w)
         ∨ ∃ prod_name stat, (prod_name, stat) ∈ products
             ∧ fh_name fh = _generate_output_filename self [] stat +:+ ".tmp").
Proof.
  induction products as [|[prod_name stat] rest IH]; intros w w' done; cbn [for_each].
  - intros [= <- <-]. split; [done|]. split; [|by left].
    intros ? ? ?%elem_of_nil. done.
  - unfold bind at 1.
    destruct (NetCDFCF_open_product self (prod_name, stat) w) as [w1 [[]|e]] eqn:Estep;
      [|discriminate].
    unfold bind.
    destruct (for_each _ rest w1) as [w2 [done'|e]] eqn:Erest; [|discriminate].
    intros [= <- <-].
    destruct (NetCDFCF_open_product_Ok _ _ _ _ _ Estep)
      as (Hvalid & Hnone & Hc & nco & Hname & Hh).
    destruct (IH _ _ _ Erest) as (Hc' & Hnone' & Hleaves).
    assert (Hframe : tmp_frame w1 w2).
    { eapply (keeps_for_each tmp_frame tmp_frame_refl tmp_frame_trans); [|done].
      intros; apply NetCDFCF_open_product_keeps_tmp. }
    assert (Hstep : tmp_frame w w1) by (by eapply NetCDFCF_open_product_keeps_tmp).
    split; [congruence|]. split.
    + intros n s [[= -> ->]|Hin]%elem_of_cons; [|by eapply Hnone'].
      rewrite Hframe, Hstep; [done| |];
        intros q; apply PathFacts.valid_extension_not_tmp;
        by eapply valid_extensions_known.
    + intros fh Hfh. destruct (Hleaves fh Hfh) as [Hold|(n & s & Hin & Hn)].
      * rewrite Hh in Hold. apply top_leaves_dict_set in Hold as [->|Hold]; [|by left].
        right. exists prod_name, stat. split; [left|done].
      * right. exists n, s. split; [by right|done].
Qed.

Lemma open_output_files_keeps_tmp self :
  keeps tmp_frame (fun _ => True) (open_output_files self).
Proof.
  unfold open_output_files. destruct (cls self).
  - apply (keeps_raise tmp_frame tmp_frame_refl).
  - unfold NetCDFCF_open_output_files.
    eapply (keeps_bind tmp_frame tmp_frame_trans _ _ _ _).
    { apply (keeps_for_each tmp_frame tmp_frame_refl tmp_frame_trans).
      intros; apply NetCDFCF_open_product_keeps_tmp. }
    intros; by apply (keeps_ret tmp_frame tmp_frame_refl).
  - intros w w' r. destruct (decide (_output_products self = [])) as [He|Hne].
    + rewrite Geotiff_open_output_files_nothing by done. intros [= <- <-].
      split; [apply tmp_frame_refl|done].
    + rewrite Geotiff_open_output_files_unbound by done. intros [= <- <-].
      split; [apply tmp_frame_refl|done].
  - intros w w' r. destruct (decide (_output_products self = [])) as [He|Hne].
    + rewrite Geotiff_open_output_files_nothing by done. intros [= <- <-].
      split; [apply tmp_frame_refl|done].
    + rewrite Geotiff_open_output_files_unbound by done. intros [= <- <-].
      split; [apply tmp_frame_refl|done].
  - by apply (keeps_ret tmp_frame tmp_frame_refl).
  - by apply (keeps_ret tmp_frame tmp_frame_refl).
Qed.

(** C3, amended.  [_prepare_output_file], which every driver that writes
    files runs for each of them before it opens anything: an extension
    that the driver does not accept is an error before the path is looked
    at; with an accepted extension, an output that is there already makes
    it raise [OutputFileAlreadyExists] with nothing created, removed or
    written; with the parent directory there already and the output not,
    and no directory at the ['.tmp'] path, it returns the ['.tmp'] path,
    having removed what was left at it.  [open_output_files] of the
    NetCDF driver therefore raises [OutputFileAlreadyExists] at the first
    product whose output is there when its turn comes, and no run of
    [open_output_files] of any driver changes a file whose name does not
    end in ['.tmp'].  [open_output_files] of the test and xarray drivers
    returns at once, with nothing opened, created or changed, whatever
    is there. *)
Theorem C3_output_already_exists self stat kwargs w :
  let output_path := _generate_output_filename self kwargs stat in
  (Path.suffix output_path ∉ valid_extensions (cls self) →
   _prepare_output_file self stat kwargs w
   = (w, Raise (StatsOutputError (InvalidFilename output_path))))
  ∧ (Path.suffix output_path ∈ valid_extensions (cls self) →
     exists_ output_path w = true →
     _prepare_output_file self stat kwargs w
     = (w, Raise (OutputFileAlreadyExists output_path)))
  ∧ (Path.suffix output_path ∈ valid_extensions (cls self) →
     exists_ output_path w = false →
     Path.parent output_path ∈ dirs w →
     output_path +:+ ".tmp" ∉ dirs w →
     ∃ w', _prepare_output_file self stat kwargs w = (w', Ok (output_path +:+ ".tmp"))
        ∧ files w' = delete (output_path +:+ ".tmp") (files w)
        ∧ dirs w' = dirs w)
  ∧ (cls self = NetCDFCFOutputDriver → kwargs = [] →
     ∀ before prod_name rest w0 done,
       _output_products self = before ++ (prod_name, stat) :: rest →
       for_each (NetCDFCF_open_product self) before w0 = (w, Ok done) →
       Path.suffix output_path ∈ valid_extensions (cls self) →
       exists_ output_path w = true →
       open_output_files self w0 = (w, Raise (OutputFileAlreadyExists output_path)))
  ∧ (∀ w' r, open_output_files self w = (w', r) →
       ∀ p, (∀ q, p ≠ q +:+ ".tmp") → files w' !! p = files w !! p)
  ∧ (cls self = TestOutputDriver ∨ cls self = XarrayOutputDriver →
     open_output_files self w = (w, Ok tt)).
Proof.
  intros output_path. subst output_path.
  split; [apply _prepare_output_file_invalid|].
  split; [apply _prepare_output_file_exists|]. split; [|split; [|split]].
  - intros Hvalid Hnew Hparent Htmp.
    destruct (_prepare_output_file_new self stat kwargs w Hvalid Hnew) as (w1 & Hmk & ->).
    destruct (mkdir_parents_pass
                (Path.parent (_generate_output_filename self kwargs stat)) w)
      as (w1' & Hmk' & _ & _ & _ & _ & _ & _ & _ & Hsame).
    rewrite Hmk in Hmk'. injection Hmk' as <-. rewrite (Hsame Hparent).
    destruct (files w !! _) eqn:Etmp.
    + eexists. split; [reflexivity|]. by split.
    + rewrite bool_decide_eq_false_2 by done. exists w. split; [done|].
      split; [|done]. by rewrite delete_id.
  - intros Hcls -> before prod_name rest w0 done Hproducts Hbefore Hvalid Hthere.
    unfold open_output_files. rewrite Hcls. unfold NetCDFCF_open_output_files.
    rewrite Hproducts. unfold bind. rewrite for_each_app, Hbefore. cbn [for_each].
    unfold bind. unfold NetCDFCF_open_product at 1. unfold bind.
    by rewrite _prepare_output_file_exists.
  - intros w' r Hrun. by apply (open_output_files_keeps_tmp self _ _ _ Hrun).
  - unfold open_output_files. by intros [-> | ->].
Qed.

(** *** [write_data] writes into files that are there *)

Lemma product_measurements_keeps R self out_prod_name :
  (∀ w, R w w) → keeps R (fun _ => True) (product_measurements self out_prod_name).
Proof.
  intros Hrefl. unfold product_measurements. destruct (dict_get _ _);
    [by apply keeps_ret|by apply keeps_raise].
Qed.

Lemma _get_dtype_keeps R self out_prod_name measurement_name :
  (∀ w, R w w) → (∀ w1 w2 w3, R w1 w2 → R w2 w3 → R w1 w3) →
  keeps R (fun _ => True) (_get_dtype self out_prod_name measurement_name).
Proof.
  intros Hrefl Htrans. unfold _get_dtype. destruct (truthy measurement_name).
  - eapply (keeps_bind R Htrans _ _ _ _); [by apply product_measurements_keeps|].
    intros ms _. destruct (_ ≫= _); [by apply keeps_ret|by apply keeps_raise].
  - eapply (keeps_bind R Htrans _ _ _ _); [by apply product_measurements_keeps|].
    intros ms _. destruct (distinct _) as [|d [|]];
      [by apply keeps_raise|by apply keeps_ret|by apply keeps_raise].
Qed.

Lemma write_data_creates_nothing self prod_name measurement_name tile_index values :
  keeps no_new_files (fun _ => True)
        (write_data self prod_name measurement_name tile_index values).
Proof.
  pose proof no_new_files_refl as Hrefl. pose proof no_new_files_trans as Htrans.
  assert (Hbase : keeps no_new_files (fun _ => True) (OutputDriver_write_data self)).
  { unfold OutputDriver_write_data.
    eapply (keeps_bind _ Htrans _ _ _ _);
      [apply (keeps_gets _ Hrefl (fun _ => True)); done|].
    intros hs _. destruct (_ <=? _)%nat; [by apply keeps_raise|by apply keeps_ret]. }
  assert (Hgeotiff : keeps no_new_files (fun _ => True)
            (Geotiff_write_data self prod_name measurement_name tile_index values)).
  { unfold Geotiff_write_data.
    eapply (keeps_bind _ Htrans _ _ _ _); [apply Hbase|]. intros _ _.
    eapply (keeps_bind _ Htrans _ _ _ _);
      [apply (keeps_gets _ Hrefl (fun _ => True)); done|]. intros hs _.
    eapply (keeps_bind _ Htrans _ _ _ _);
      [apply (keeps_of_option _ Hrefl (fun _ => True)); done|]. intros prod _.
    eapply (keeps_bind _ Htrans (fun _ => True) _ _ _).
    { destruct prod as [fh|sub].
      - eapply (keeps_bind _ Htrans _ _ _ _); [by apply product_measurements_keeps|].
        intros ms _. eapply (keeps_bind _ Htrans _ _ _ _);
          [apply (keeps_of_option _ Hrefl (fun _ => True)); done|].
        intros i _. by apply keeps_ret.
      - eapply (keeps_bind _ Htrans _ _ _ _);
          [apply (keeps_of_option _ Hrefl (fun _ => True)); done|].
        intros output_fh _. by apply keeps_ret. }
    intros target _. destruct tile_index as [|t [|y [|x [|]]]]; try by apply keeps_raise.
    eapply (keeps_bind _ Htrans _ _ _ _); [by apply _get_dtype_keeps|].
    intros dtype _. destruct (fst target);
      [apply keeps_no_new_write_item|by apply keeps_raise]. }
  unfold write_data. destruct (cls self); try done; try by apply keeps_ret.
  unfold NetCDFCF_write_data.
  eapply (keeps_bind _ Htrans _ _ _ _);
    [apply (keeps_gets _ Hrefl (fun _ => True)); done|].
  intros hs _. destruct (dict_get prod_name hs) as [[nco|sub]|].
  - destruct (bool_decide _); [apply keeps_no_new_write_item|by apply keeps_raise].
  - destruct (dict_get _ sub); by apply keeps_raise.
  - by apply keeps_raise.
Qed.

(** *** Leaving the guarded block *)

Lemma _handle_to_path_keeps R self fh :
  (∀ w, R w w) → keeps R (fun _ => True) (_handle_to_path self fh).
Proof.
  intros Hrefl w w' r Hrun. apply _handle_to_path_world in Hrun as ->. by split.
Qed.

Lemma OutputDriver_close_files_keeps_calls self completed_successfully rename_tmps :
  keeps calls_frame (fun _ => True)
        (OutputDriver_close_files self completed_successfully rename_tmps).
Proof.
  unfold OutputDriver_close_files.
  eapply (keeps_bind calls_frame calls_frame_trans _ _ _ _).
  { apply (keeps_gets calls_frame calls_frame_refl (fun _ => True)). done. }
  intros hs _. eapply (keeps_bind calls_frame calls_frame_trans _ _ _ _).
  { apply (keeps_walk_dict calls_frame calls_frame_refl calls_frame_trans).
    intros fh. by apply _handle_to_path_keeps. }
  intros paths _. eapply (keeps_bind calls_frame calls_frame_trans _ _ _ _).
  { apply (keeps_gets calls_frame calls_frame_refl (fun _ => True)). done. }
  intros hs' _. eapply (keeps_bind calls_frame calls_frame_trans _ _ _ _).
  { apply (keeps_walk_dict calls_frame calls_frame_refl calls_frame_trans).
    apply keeps_calls_close. }
  intros closed _. destruct (_ && _).
  - apply (keeps_for_each calls_frame calls_frame_refl calls_frame_trans).
    intros; apply keeps_calls_rename.
  - by apply (keeps_ret calls_frame calls_frame_refl).
Qed.

Lemma _tif_to_envi_keeps_calls source_file :
  keeps calls_frame (fun _ => True) (_tif_to_envi source_file).
Proof.
  unfold _tif_to_envi.
  eapply (keeps_bind calls_frame calls_frame_trans _ _ _ _).
  { apply (keeps_of_option calls_frame calls_frame_refl (fun _ => True)). done. }
  intros dest_file _. eapply (keeps_bind calls_frame calls_frame_trans _ _ _ _).
  { apply (keeps_of_option calls_frame calls_frame_refl (fun _ => True)). done. }
  intros tmp_tif _. eapply (keeps_bind calls_frame calls_frame_trans _ _ _ _).
  { apply keeps_calls_rename. }
  intros _ _. eapply (keeps_bind calls_frame calls_frame_trans _ _ _ _).
  { apply (keeps_gets calls_frame calls_frame_refl (fun _ => True)). done. }
  intros src _. eapply (keeps_bind calls_frame calls_frame_trans _ _ _ _).
  { apply (keeps_gets calls_frame calls_frame_refl (fun _ => True)). done. }
  intros blocked _. destruct (if blocked then None else src ≫= gdal_translate).
  - eapply (keeps_bind calls_frame calls_frame_trans _ _ _ _).
    { apply keeps_calls_set_files. }
    intros _ _. apply keeps_calls_unlink.
  - by apply (keeps_ret calls_frame calls_frame_refl).
Qed.

Lemma ENVIBIL_close_files_keeps_calls self completed_successfully :
  keeps calls_frame (fun _ => True) (ENVIBIL_close_files self completed_successfully).
Proof.
  unfold ENVIBIL_close_files.
  eapply (keeps_bind calls_frame calls_frame_trans _ _ _ _).
  { apply OutputDriver_close_files_keeps_calls. }
  intros paths _. destruct completed_successfully.
  - eapply (keeps_bind calls_frame calls_frame_trans _ _ _ _).
    { apply (keeps_for_each calls_frame calls_frame_refl calls_frame_trans).
      intros; apply _tif_to_envi_keeps_calls. }
    intros; by apply (keeps_ret calls_frame calls_frame_refl).
  - by apply (keeps_ret calls_frame calls_frame_refl).
Qed.

(** Every call of [close_files] is recorded once, with its flag,
    however it ends. *)
Lemma close_files_recorded self completed_successfully w w' r :
  close_files self completed_successfully w = (w', r) →
  calls w' = calls w ++ [CloseFiles completed_successfully].
Proof.
  unfold close_files.
  destruct (log_call_fields (CloseFiles completed_successfully) w)
    as (w1 & Hlog & _ & _ & _ & _ & _ & Hc1).
  rewrite (bind_Ok _ _ _ _ _ Hlog). intros Hrun. rewrite <- Hc1.
  assert (Hkeeps : keeps calls_frame (fun _ => True)
            (match cls self with
             | ENVIBILOutputDriver =>
                 do! ENVIBIL_close_files self completed_successfully in ret None
             | _ =>
                 let! paths := OutputDriver_close_files self completed_successfully true in
                 ret (Some paths)
             end)).
  { destruct (cls self);
      (eapply (keeps_bind calls_frame calls_frame_trans _ _ _ _);
       [first [apply ENVIBIL_close_files_keeps_calls
              |apply OutputDriver_close_files_keeps_calls]
       |intros; by apply (keeps_ret calls_frame calls_frame_refl)]). }
  by destruct (Hkeeps _ _ _ Hrun).
Qed.

(** When [open_output_files] has returned for a new driver, every handle
    in the dictionary is at a path [q.tmp] such that there is no file at
    [q]; for the NetCDF driver there is no file at the output of any
    product. *)
Lemma open_output_files_Ok self w w1 :
  handles w = [] →
  open_output_files self w = (w1, Ok tt) →
  (∀ fh, fh ∈ top_leaves (handles w1) →
         ∃ q, fh_name fh = q +:+ ".tmp" ∧ files w1 !! q = None)
  ∧ (cls self = NetCDFCFOutputDriver →
     ∀ prod_name stat, (prod_name, stat) ∈ _output_products self →
       files w1 !! _generate_output_filename self [] stat = None).
Proof.
  intros Hnone. unfold open_output_files.
  assert (Hsame : ∀ w', w' = w →
            (∀ fh, fh ∈ top_leaves (handles w') →
                   ∃ q, fh_name fh = q +:+ ".tmp" ∧ files w' !! q = None)).
  { intros w' -> fh. rewrite Hnone. by intros ?%elem_of_nil. }
  destruct (cls self) eqn:Hcls.
  - discriminate.
  - unfold NetCDFCF_open_output_files, bind.
    destruct (for_each _ _ w) as [w' [done|e]] eqn:Eloop; [|discriminate].
    intros [= <-]. destruct (NetCDFCF_open_loop_Ok _ _ _ _ _ Eloop) as (_ & Hfinal & Hleaves).
    split; [|by intros _].
    intros fh Hfh. destruct (Hleaves fh Hfh) as [Hold|(n & stat & Hin & Hname)].
    + rewrite Hnone in Hold. by apply elem_of_nil in Hold.
    + eexists. split; [done|]. by eapply Hfinal.
  - intros Hrun. split; [|done]. apply Hsame.
    destruct (decide (_output_products self = [])) as [He|Hne].
    + rewrite Geotiff_open_output_files_nothing in Hrun by done. congruence.
    + by rewrite Geotiff_open_output_files_unbound in Hrun.
  - intros Hrun. split; [|done]. apply Hsame.
    destruct (decide (_output_products self = [])) as [He|Hne].
    + rewrite Geotiff_open_output_files_nothing in Hrun by done. congruence.
    + by rewrite Geotiff_open_output_files_unbound in Hrun.
  - intros [= <-]. split; [by apply Hsame|done].
  - intros [= <-]. split; [by apply Hsame|done].
Qed.

(** C2.  For a new driver whose [open_output_files] returned, leaving the
    guarded block calls [close_files] once, with [True] exactly when the
    body returned; the block ends as the body did unless [close_files]
    itself raises.  When the body raised, no file is moved, and,
    provided the body has not itself created a file, there is no file at
    the final name of any handle, nor, for the NetCDF driver, at the
    output of any product; when the body has left the handles at the
    top of the dictionary the driver's own, [close_files(False)]
    returns and the exception of the body is raised again. *)
Theorem C2_exit_calls_close_files {A} self (body : Driver → M A) w w1 w2 r :
  handles w = [] →
  open_output_files self w = (w1, Ok tt) →
  body self w1 = (w2, r) →
  ∃ w3 closed,
    close_files self (is_Ok r) w2 = (w3, closed)
    ∧ calls w3 = calls w2 ++ [CloseFiles (is_Ok r)]
    ∧ with_block self body w
      = (w3, match closed with Raise e' => Raise e' | Ok _ => r end)
    ∧ (∀ e, r = Raise e →
         (own_handles self w2 → with_block self body w = (w3, Raise e))
         ∧ files w3 = files w2
         ∧ ((∀ p, files w1 !! p = None → files w2 !! p = None) →
            (∀ fh, fh ∈ top_leaves (handles w1) →
                   ∃ q, fh_name fh = q +:+ ".tmp" ∧ files w3 !! q = None)
            ∧ (cls self = NetCDFCFOutputDriver →
               ∀ prod_name stat, (prod_name, stat) ∈ _output_products self →
                 files w3 !! _generate_output_filename self [] stat = None))).
Proof.
  intros Hnone Hopen Hbody.
  destruct (close_files self (is_Ok r) w2) as [w3 closed] eqn:Hclose.
  exists w3, closed. split; [done|].
  split; [by eapply close_files_recorded|].
  assert (Hblock : with_block self body w
                   = (w3, match closed with Raise e' => Raise e' | Ok _ => r end)).
  { unfold with_block, __enter__, __exit__.
    rewrite (bind_Ok _ _ _ _ _ Hopen). unfold ret at 1. rewrite Hbody.
    destruct r as [a|e]; cbn [is_Ok] in Hclose; unfold bind; rewrite Hclose;
      by destruct closed. }
  split; [done|]. intros e ->. cbn [is_Ok] in Hclose.
  destruct (close_files_unsuccessful_files _ _ _ _ Hclose) as [Hfiles _].
  split; [|split; [done|]].
  - intros Hown. destruct (close_files_unsuccessful self w2 Hown) as (w3' & r' & Hfalse & _).
    rewrite Hclose in Hfalse. injection Hfalse as <- ->. by rewrite Hblock.
  - intros Hbodyfiles. destruct (open_output_files_Ok self w w1 Hnone Hopen) as [Hh Hp].
    split.
    + intros fh Hfh. destruct (Hh fh Hfh) as (q & Hq & Hfile). exists q.
      split; [done|]. rewrite Hfiles. by apply Hbodyfiles.
    + intros Hcls n stat Hin. rewrite Hfiles. apply Hbodyfiles. by eapply Hp.
Qed.

(** *** Writing before anything is open *)

Lemma OutputDriver_write_data_not_open self w :
  handles w = [] →
  OutputDriver_write_data self w = (w, Raise (StatsOutputError NoFilesOpened)).
Proof. intros Hnone. unfold OutputDriver_write_data, bind, gets. by rewrite Hnone. Qed.

(** C9, amended: with no handle in the dictionary, [write_data] of the
    GeoTiff and ENVI drivers raises the [StatsOutputError] of the base
    class ('No files opened for writing.') and changes nothing, and
    [write_data] of the test and xarray drivers returns and changes
    nothing. *)
Theorem C9_write_data_before_open self prod_name measurement_name tile_index values w :
  handles w = [] →
  (cls self = GeotiffOutputDriver ∨ cls self = ENVIBILOutputDriver →
   write_data self prod_name measurement_name tile_index values w
   = (w, Raise (StatsOutputError NoFilesOpened)))
  ∧ (cls self = TestOutputDriver ∨ cls self = XarrayOutputDriver →
     write_data self prod_name measurement_name tile_index values w = (w, Ok tt)).
Proof.
  intros Hnone. unfold write_data. split.
  - intros [-> | ->]; unfold Geotiff_write_data, bind;
      by rewrite OutputDriver_write_data_not_open.
  - by intros [-> | ->].
Qed.

(** The NetCDF driver does not run the check of the base class: the
    lookup of the product in the empty dictionary fails. *)
Lemma NetCDFCF_write_data_before_open self prod_name measurement_name tile_index values w :
  handles w = [] →
  cls self = NetCDFCFOutputDriver →
  write_data self prod_name measurement_name tile_index values w
  = (w, Raise (KeyError prod_name)).
Proof.
  intros Hnone Hcls. unfold write_data. rewrite Hcls.
  unfold NetCDFCF_write_data, bind, gets. by rewrite Hnone.
Qed.

(** [_get_dtype] without a measurement name, which [_open_geotiff] calls
    for a file of several bands. *)
Lemma _get_dtype_of_product self out_prod_name stat w :
  dict_get out_prod_name (_output_products self) = Some stat →
  _get_dtype self out_prod_name None w
  = (w, match distinct (map (fun m => dtype (snd m)) (measurements stat)) with
        | [d] => Ok d
        | _ => Raise (StatsOutputError (DtypesDiffer out_prod_name))
        end).
Proof.
  intros Hstat. unfold _get_dtype, product_measurements, bind. cbn [truthy].
  rewrite Hstat. cbn. by destruct (distinct _) as [|d [|]].
Qed.

End WithExternals.

End DriversFacts.

Module DriversRuns.
Import Py Registry Drivers Samples.
Local Open Scope string_scope.

Lemma C9_witness :
  handles empty_world = []
  ∧ write_data (driver_of GeotiffOutputDriver [("stats", two_bands)])
      "stats" "mean" whole_tile [1%Z] empty_world
    = (empty_world, Raise (StatsOutputError NoFilesOpened)).
Proof.
  split; [reflexivity|].
  refine (proj1 (DriversFacts.C9_write_data_before_open
                   (driver_of GeotiffOutputDriver [("stats", two_bands)])
                   "stats" "mean" whole_tile [1%Z] empty_world _) _).
  - reflexivity.
  - left. reflexivity.
Defined.

(** The test driver accepts a write before anything is open. *)
Lemma C9_counterexample :
  handles empty_world = []
  ∧ ¬ ∃ w, write_data (driver_of TestOutputDriver [("stats", two_bands)])
             "stats" "mean" whole_tile [1%Z] empty_world
           = (w, Raise (StatsOutputError NoFilesOpened)).
Proof. split; [reflexivity|]. intros [w Hw]. discriminate Hw. Qed.

(** C6, at one product with two measurements of one dtype and one
    no-data value and a template without [var_name]: [open_output_files]
    of the GeoTiff driver raises [UnboundLocalError] at the first
    statement of its loop, before any file is prepared or opened. *)
Theorem C6_open_output_files_unbound_local :
  Drivers.distinct (map (fun m => dtype (snd m)) (measurements two_bands)) = ["float32"]
  ∧ Drivers.distinct (map (fun m => nodata (snd m)) (measurements two_bands)) = [(-999)%Z]
  ∧ @open_output_files literal (driver_of GeotiffOutputDriver [("stats", two_bands)])
      empty_world
    = (empty_world, Raise (UnboundLocalError "output_filename")).
Proof. repeat split. Qed.

Example nc_opened_handles :
  handles nc_opened
  = [("stats", Leaf (mkHandle 0 Dataset "/out/stats.nc.tmp" ["mean"; "dataset"] 0))].
Proof. vm_compute. reflexivity. Qed.

(** The handle of [nc_opened] is the driver's own. *)
Lemma nc_opened_own : @own_handles nc_driver nc_opened.
Proof.
  unfold own_handles. rewrite nc_opened_handles. cbn [top_leaves map fh_id]. split.
  - apply NoDup_singleton.
  - intros fh ->%list_elem_of_singleton. split; [reflexivity|].
    intros _. apply (bool_decide_unpack _). vm_compute. exact I.
Qed.

Lemma C1_witness :
  ∃ w', @close_files literal nc_driver true nc_opened = (w', Ok (Some ["/out/stats.nc"]))
    ∧ files w' !! "/out/stats.nc" = files nc_opened !! "/out/stats.nc.tmp"
    ∧ files w' !! "/out/stats.nc.tmp" = None.
Proof.
  destruct (proj1 (proj2 (@DriversFacts.C1_close_files literal nc_driver nc_opened
                            nc_opened_own)))
    with (finals := ["/out/stats.nc"]) as (w' & Hrun & _ & _ & Hmoved & _).
  - discriminate.
  - vm_compute. reflexivity.
  - apply NoDup_singleton.
  - intros q ->%list_elem_of_singleton. split; [|split].
    + vm_compute. left.
    + vm_compute. eauto.
    + apply (bool_decide_unpack _). vm_compute. exact I.
  - exists w'. split; [exact Hrun|]. apply Hmoved. left.
Defined.

(** The ENVI driver, with a [gdal_translate] that fails: after
    [close_files(True)] there is no file at the final name, the
    temporary file has become [/out/stats.bil.tif], and nothing is
    returned. *)
Lemma C1_counterexample :
  ∃ w', @close_files failing_gdal envi_driver true envi_opened = (w', Ok None)
    ∧ files w' !! "/out/stats.bil" = None
    ∧ files w' !! "/out/stats.bil.tmp" = None
    ∧ files w' !! "/out/stats.bil.tif" = Some [Tag 0 "created" "datacube-stats"].
Proof.
  exists (fst (@close_files failing_gdal envi_driver true envi_opened)).
  split; [vm_compute; reflexivity|]. repeat split; vm_compute; reflexivity.
Qed.

(** With a [gdal_translate] that succeeds the converted file is at the
    final name and the two others are gone. *)
Example envi_converted :
  ∃ w', @close_files literal envi_driver true envi_opened = (w', Ok None)
    ∧ files w' !! "/out/stats.bil" = Some [Tag 0 "created" "datacube-stats"]
    ∧ files w' !! "/out/stats.bil.tmp" = None
    ∧ files w' !! "/out/stats.bil.tif" = None.
Proof.
  exists (fst (@close_files literal envi_driver true envi_opened)).
  split; [vm_compute; reflexivity|]. repeat split; vm_compute; reflexivity.
Qed.

(** Handles below a nested dictionary: [close_files(True)] returns no
    path, closes nothing and renames nothing. *)
Example nested_handles_are_skipped :
  ∃ w', @close_files literal (driver_of GeotiffOutputDriver []) true per_measurement_opened
        = (w', Ok (Some []))
    ∧ close_calls w' = [] ∧ open_fhs w' = open_fhs per_measurement_opened
    ∧ files w' = files per_measurement_opened.
Proof.
  exists (fst (@close_files literal (driver_of GeotiffOutputDriver []) true
                 per_measurement_opened)).
  split; [vm_compute; reflexivity|]. repeat split; vm_compute; reflexivity.
Qed.

Lemma C3_witness :
  exists_ "/out/stats.nc" nc_finished = true
  ∧ @open_output_files literal nc_driver nc_finished
    = (nc_finished, Raise (OutputFileAlreadyExists "/out/stats.nc")).
Proof.
  split; [vm_compute; reflexivity|].
  refine (proj1 (proj2 (proj2 (proj2
            (@DriversFacts.C3_output_already_exists literal nc_driver nc_product []
               nc_finished))))
          _ _ [] "stats" [] nc_finished [] _ _ _ _).
  - reflexivity.
  - reflexivity.
  - reflexivity.
  - reflexivity.
  - vm_compute. left.
  - vm_compute. reflexivity.
Defined.

(** An output that is there, with an extension that the driver does not
    accept, is reported as an invalid file name; the test driver opens
    nothing and reports nothing. *)
Lemma C3_counterexample :
  exists_ "/out/stats.tif" tif_finished = true
  ∧ @open_output_files literal
      (driver_of NetCDFCFOutputDriver [("stats", two_bands)]) tif_finished
    = (tif_finished, Raise (StatsOutputError (InvalidFilename "/out/stats.tif")))
  ∧ @open_output_files literal
      (driver_of TestOutputDriver [("stats", two_bands)]) tif_finished
    = (tif_finished, Ok tt).
Proof. repeat split; vm_compute; reflexivity. Qed.

(** The body that fails leaves the handle as it was. *)
Lemma failed_write_own : @own_handles nc_driver (fst (failing_body nc_driver nc_opened)).
Proof.
  unfold own_handles.
  replace (handles (fst (failing_body nc_driver nc_opened))) with (handles nc_opened)
    by (vm_compute; reflexivity).
  rewrite nc_opened_handles. cbn [top_leaves map fh_id]. split.
  - apply NoDup_singleton.
  - intros fh ->%list_elem_of_singleton. split; [reflexivity|].
    intros _. apply (bool_decide_unpack _). vm_compute. exact I.
Qed.

(** Where the body has closed the dataset, [close_files(False)] raises
    from [filepath()], and the block ends with that exception and not
    with the one of the body; no file is at the output all the same. *)
Example closed_dataset_hides_the_failure :
  ∃ w3, @with_block literal unit nc_driver closing_body empty_world
        = (w3, Raise RuntimeError)
    ∧ calls w3 = [CloseFiles false]
    ∧ files w3 !! "/out/stats.nc" = None.
Proof.
  exists (fst (@with_block literal unit nc_driver closing_body empty_world)).
  split; [vm_compute; reflexivity|]. split; vm_compute; reflexivity.
Qed.

Lemma C2_witness :
  ∃ w3, @with_block literal unit nc_driver failing_body empty_world = (w3, Raise ValueError)
    ∧ calls w3 = [CloseFiles false]
    ∧ files w3 !! "/out/stats.nc" = None.
Proof.
  destruct (@DriversFacts.C2_exit_calls_close_files literal unit nc_driver failing_body
              empty_world nc_opened (fst (failing_body nc_driver nc_opened))
              (Raise ValueError))
    as (w3 & closed & _ & Hcalls & _ & Hraised).
  - reflexivity.
  - vm_compute. reflexivity.
  - vm_compute. reflexivity.
  - destruct (Hraised ValueError eq_refl) as (Hblock & _ & Hfinal).
    exists w3. split; [apply Hblock, failed_write_own|]. split; [exact Hcalls|].
    refine (proj2 (Hfinal _) eq_refl "stats" nc_product _); [|left].
    unfold failing_body. intros p Hp.
    destruct (DriversFacts.write_data_creates_nothing nc_driver "stats" "mean"
                whole_tile [1%Z] nc_opened
                (fst (write_data nc_driver "stats" "mean" whole_tile [1%Z] nc_opened))
                (snd (write_data nc_driver "stats" "mean" whole_tile [1%Z] nc_opened)))
      as [Hnew _]; [by destruct (write_data _ _ _ _ _ _)|].
    apply Hnew in Hp. revert Hp. unfold bind.
    by destruct (write_data _ _ _ _ _ _) as [w [[]|e]].
Defined.

End DriversRuns.

(** * Further properties *)

(** ** Dictionaries and lists of results *)

Module DictFacts.
Import Py Tasks.

Lemma dict_get_set_eq {V} k (v : V) d : dict_get k (dict_set k v d) = Some v.
Proof.
  induction d as [|[k' v'] d IH]; cbn [dict_set dict_get].
  - by rewrite String.eqb_refl.
  - destruct (String.eqb k k') eqn:E; cbn [dict_get]; [by rewrite String.eqb_refl|].
    by rewrite E.
Qed.

Lemma dict_get_set_ne {V} k k' (v : V) d :
  k ≠ k' → dict_get k (dict_set k' v d) = dict_get k d.
Proof.
  intros Hne. induction d as [|[k'' v''] d IH]; cbn [dict_set dict_get].
  - by rewrite (proj2 (String.eqb_neq k k') Hne).
  - destruct (String.eqb k' k'') eqn:E; cbn [dict_get].
    + apply String.eqb_eq in E as <-. by rewrite (proj2 (String.eqb_neq k k') Hne).
    + by rewrite IH.
Qed.

Lemma dict_get_map {V W} (f : V → W) k (d : list (string * V)) :
  dict_get k (map (fun kv => (fst kv, f (snd kv))) d) = f <$> dict_get k d.
Proof.
  induction d as [|[k' v] d IH]; cbn [map dict_get fst snd]; [done|].
  by destruct (String.eqb k k').
Qed.

Lemma dict_get_filter {V} (P : string → bool) k (d : list (string * V)) :
  dict_get k (List.filter (fun kv => P (fst kv)) d)
  = if P k then dict_get k d else None.
Proof.
  induction d as [|[k' v] d IH]; cbn [List.filter dict_get fst]; [by destruct (P k)|].
  destruct (P k') eqn:Ek'; cbn [dict_get].
  - destruct (String.eqb k k') eqn:E; [|done].
    apply String.eqb_eq in E as ->. by rewrite Ek'.
  - rewrite IH. destruct (String.eqb k k') eqn:E; [|done].
    apply String.eqb_eq in E as ->. by rewrite Ek'.
Qed.

Lemma NoDup_filter_keys {V} (P : string * V → bool) (d : list (string * V)) :
  NoDup (map fst d) → NoDup (map fst (List.filter P d)).
Proof.
  induction d as [|kv d IH]; cbn [List.filter map]; [done|].
  intros [Hk Hnd]%NoDup_cons. destruct (P kv); cbn [map]; [|by apply IH].
  apply NoDup_cons. split; [|by apply IH].
  intros (kv' & Heq & Hin)%list_elem_of_fmap. apply Hk.
  apply list_elem_of_fmap. exists kv'. split; [done|].
  apply list_elem_of_In. apply list_elem_of_In in Hin.
  by apply filter_In in Hin as [? _].
Qed.

Lemma rmap_Ok {A B} (f : A → result B) l bs :
  rmap f l = Ok bs → Forall2 (fun a b => f a = Ok b) l bs.
Proof.
  revert bs. induction l as [|a l IH]; intros bs; cbn [rmap].
  - intros [= <-]. constructor.
  - destruct (f a) as [b|e] eqn:E; [|discriminate]. cbn [rbind].
    destruct (rmap f l) as [bs'|e]; [|discriminate]. cbn [rbind].
    intros [= <-]. constructor; [done|]. by apply IH.
Qed.

End DictFacts.

(** ** The generators: what every yielded task carries *)

Module TasksMore.
Import Py Tasks Grouping.

Lemma gen_for_nothing {A B} (body : A → Gen B) (l : list A) :
  (∀ a, a ∈ l → body a = ([], None)) → gen_for body l = ([], None).
Proof.
  induction l as [|a l IH]; intros Hall; cbn [gen_for]; [done|].
  rewrite (Hall a) by left. rewrite IH; [done|].
  intros a' Ha'. apply Hall. by right.
Qed.

Section WithExternals.
Context `{Externals}.

Lemma collect_loop_skips self time_period tile_index sources_spec :
  (∀ s, s ∈ sources_spec → filter_time_by_source (time s) time_period = None) →
  ∀ i acc, collect_loop self time_period tile_index i sources_spec acc = Ok acc.
Proof.
  induction sources_spec as [|s rest IH]; intros Hall i acc; cbn [collect_loop]; [done|].
  unfold collect_source. rewrite (Hall s) by left. cbn [rbind].
  apply IH. intros s' Hs'. apply Hall. by right.
Qed.

Lemma add_specs_skips feature time_period sources_spec :
  (∀ s, s ∈ sources_spec → filter_time_by_source (time s) time_period = None) →
  ∀ i task, add_specs feature time_period i sources_spec task = Ok task.
Proof.
  induction sources_spec as [|s rest IH]; intros Hall i task; cbn [add_specs]; [done|].
  unfold add_spec. rewrite (Hall s) by left. cbn [rbind].
  apply IH. intros s' Hs'. apply Hall. by right.
Qed.

(** X1.  When [filter_time_by_source] excludes every source spec from
    every time period, neither generator yields a task or raises, and
    the index is not queried: the result does not depend on what the
    queries would return. *)
Theorem X1_nothing_in_range_nothing_yielded (gridded : Gridded) (nongridded : NonGridded)
    (sources_spec : list SourceSpec) (date_ranges : list (Z * Z)) :
  (∀ s time_period, s ∈ sources_spec → time_period ∈ date_ranges →
     filter_time_by_source (time s) time_period = None) →
  Gridded_call gridded sources_spec date_ranges = ([], None)
  ∧ NonGridded_call nongridded sources_spec date_ranges = ([], None).
Proof.
  intros Hout. split.
  - unfold Gridded_call. apply gen_for_nothing. intros time_period Hin.
    assert (Hnone : ∀ tile_index,
              collect_tasks gridded time_period sources_spec tile_index = Ok []).
    { intros tile_index. unfold collect_tasks.
      rewrite collect_loop_skips; [done|]. intros s Hs. by apply Hout. }
    destruct (tile_indexes gridded) as [indexes|].
    + apply gen_for_nothing. intros tile_index _. by rewrite Hnone.
    + by rewrite Hnone.
  - unfold NonGridded_call. apply gen_for_nothing. intros feature _.
    apply gen_for_nothing. intros time_period Hin. unfold NonGridded_period.
    rewrite add_specs_skips; [done|]. intros s Hs. by apply Hout.
Qed.

(** *** The gridded generator *)

Lemma add_source_keys tile fresh d tasks :
  map fst (add_source tile fresh d tasks)
  = if decide (tile ∈ map fst tasks) then map fst tasks else map fst tasks ++ [tile].
Proof.
  induction tasks as [|[k t] rest IH]; cbn [add_source map fst].
  - rewrite decide_False; [done|]. by intros ?%elem_of_nil.
  - case_bool_decide as Hk; cbn [map fst].
    + subst k. rewrite decide_True; [done|]. left.
    + rewrite IH. destruct (decide (tile ∈ map fst rest)) as [Hin|Hout].
      * rewrite decide_True; [done|]. by right.
      * rewrite decide_False; [done|]. intros [->|?]%elem_of_cons; done.
Qed.

Lemma add_source_NoDup tile fresh d tasks :
  NoDup (map fst tasks) → NoDup (map fst (add_source tile fresh d tasks)).
Proof.
  intros Hnd. rewrite add_source_keys. destruct (decide _) as [Hin|Hout]; [done|].
  apply NoDup_app. split; [done|]. split; [|apply NoDup_singleton].
  intros x Hx ->%list_elem_of_singleton. done.
Qed.

Lemma add_source_Forall (P : Z * Z → StatsTask → Prop) tile fresh d tasks :
  Forall (fun kt => P (fst kt) (snd kt)) tasks →
  (∀ t, P tile t → P tile (append_source t d)) →
  P tile (append_source fresh d) →
  Forall (fun kt => P (fst kt) (snd kt)) (add_source tile fresh d tasks).
Proof.
  intros Hall Hold Hfresh.
  induction Hall as [|[k t] rest Ht Hrest IH]; cbn [add_source].
  - by constructor.
  - case_bool_decide as Hk.
    + subst k. constructor; [|done]. cbn. by apply Hold.
    + by constructor.
Qed.

Lemma grouped_append sources_spec time_period tile t d :
  sources_spec !! ds_source_index d = Some (ds_spec d) →
  grouped sources_spec time_period tile t →
  grouped sources_spec time_period tile (append_source t d).
Proof.
  intros Hd (Hid & Hf & (d0 & rest & Hsrc & Htime) & Hall).
  split; [done|]. split; [done|]. split.
  - exists d0, (rest ++ [d]). cbn. by rewrite Hsrc.
  - cbn. apply Forall_app. split; [done|]. by constructor.
Qed.

Lemma grouped_fresh sources_spec time_period tile ep_range d :
  sources_spec !! ds_source_index d = Some (ds_spec d) →
  filter_time_by_source (time (ds_spec d)) time_period = Some ep_range →
  grouped sources_spec time_period tile
    (append_source
       (new_task ep_range [("x", IdNum (fst tile)); ("y", IdNum (snd tile))] None) d).
Proof.
  intros Hd Htime. split; [done|]. split; [done|]. split.
  - by exists d, [].
  - cbn. by constructor.
Qed.

Lemma collect_source_grouped all_specs self time_period tile_index i source_spec acc acc' :
  all_specs !! i = Some source_spec →
  acc_ok all_specs time_period (fst acc) →
  collect_source self time_period tile_index i source_spec acc = Ok acc' →
  acc_ok all_specs time_period (fst acc').
Proof.
  intros Hi Hacc. unfold collect_source.
  destruct (filter_time_by_source _ _) as [ep_range|] eqn:Etime; [|by intros [= <-]].
  destruct (multi_product_list_cells _ _ _ _ _ _ _) as [[cells unmatched_]|e];
    [|discriminate]. cbn [rbind].
  destruct cells as [|data mask_cells]; [discriminate|].
  destruct unmatched_ as [|count rest]; [discriminate|].
  intros [= <-]. cbn [fst]. revert Hacc. generalize (fst acc). clear acc.
  induction data as [|[tile srcs] data IH]; intros tasks Hok; [done|].
  cbn [fold_left]. apply IH. destruct Hok as [Hnd Hall]. split.
  - by apply add_source_NoDup.
  - apply (add_source_Forall (grouped all_specs time_period)); [done| |].
    + intros t. by apply grouped_append.
    + by apply grouped_fresh.
Qed.

Lemma collect_loop_grouped all_specs self time_period tile_index sources_spec :
  ∀ i acc acc',
    (∀ k s, sources_spec !! k = Some s → all_specs !! (i + k)%nat = Some s) →
    acc_ok all_specs time_period (fst acc) →
    collect_loop self time_period tile_index i sources_spec acc = Ok acc' →
    acc_ok all_specs time_period (fst acc').
Proof.
  induction sources_spec as [|source_spec rest IH]; intros i acc acc' Hat Hacc;
    cbn [collect_loop].
  - by intros [= <-].
  - destruct (collect_source _ _ _ _ _ _) as [acc1|e] eqn:E; [|discriminate].
    cbn [rbind]. apply IH.
    + intros k s Hk. replace (S i + k)%nat with (i + S k)%nat by lia. by apply Hat.
    + eapply collect_source_grouped; [|done|done].
      specialize (Hat 0%nat source_spec eq_refl). by rewrite Nat.add_0_r in Hat.
Qed.

Lemma collect_tasks_grouped self time_period sources_spec tile_index tasks :
  collect_tasks self time_period sources_spec tile_index = Ok tasks →
  ∃ keyed, tasks = map snd keyed ∧ acc_ok sources_spec time_period keyed.
Proof.
  unfold collect_tasks.
  destruct (collect_loop _ _ _ _ _ _) as [[acc n]|e] eqn:E; [|discriminate].
  cbn [rbind]. intros [= <-]. exists acc. split; [done|].
  eapply (collect_loop_grouped sources_spec) in E; [done| |].
  - by intros k s.
  - split; [constructor|constructor].
Qed.

Lemma Gridded_call_collects self sources_spec date_ranges t :
  t ∈ fst (Gridded_call self sources_spec date_ranges) →
  ∃ time_period tile_index tasks,
    time_period ∈ date_ranges
    ∧ collect_tasks self time_period sources_spec tile_index = Ok tasks
    ∧ t ∈ tasks.
Proof.
  unfold Gridded_call. intros (time_period & Hin & Ht)%TasksFacts.gen_for_yields.
  destruct (tile_indexes self) as [indexes|].
  - apply TasksFacts.gen_for_yields in Ht as (tile_index & _ & Ht).
    apply TasksFacts.yield_all_yields in Ht as (l & Hl & Ht).
    by exists time_period, (Some tile_index), l.
  - apply TasksFacts.yield_all_yields in Ht as (l & Hl & Ht).
    by exists time_period, None, l.
Qed.

(** The keys of the dictionary after the loop over the cells of one
    query: those it had, and the tiles of the cells. *)
Lemma fold_add_source_keys (fresh : Z * Z → StatsTask) (made : Z * Z → Tile → DataSource)
    (data : list (Z * Z * Tile)) :
  ∀ tasks tile,
    tile ∈ map fst (fold_left (fun tasks '(tile, sources) =>
                                 add_source tile (fresh tile) (made tile sources) tasks)
                              data tasks)
    ↔ tile ∈ map fst tasks ∨ tile ∈ map fst data.
Proof.
  induction data as [|[k srcs] data IH]; intros tasks tile; cbn [fold_left map fst].
  - rewrite elem_of_nil. tauto.
  - rewrite IH, add_source_keys, elem_of_cons.
    destruct (decide (k ∈ map fst tasks)) as [Hin|Hout].
    + split; [tauto|]. intros [?|[->|?]]; tauto.
    + rewrite elem_of_app, list_elem_of_singleton. tauto.
Qed.

Lemma collect_source_keys self time_period tile_index i source_spec acc acc' :
  collect_source self time_period tile_index i source_spec acc = Ok acc' →
  ∀ tile, tile ∈ map fst (fst acc')
          ↔ tile ∈ map fst (fst acc)
            ∨ returned_for self time_period tile_index [source_spec] tile.
Proof.
  unfold collect_source, returned_for.
  destruct (filter_time_by_source _ _) as [ep_range|] eqn:Etime.
  2:{ intros [= <-] tile. split; [by left|]. intros [?|Hret]; [done|].
      destruct Hret as (s & ep & ? & ? & ? & ->%list_elem_of_singleton & Hep & _).
      congruence. }
  destruct (multi_product_list_cells _ _ _ _ _ _ _) as [[cells unmatched_]|e] eqn:Equery;
    [|discriminate]. cbn [rbind].
  destruct cells as [|data mask_cells]; [discriminate|].
  destruct unmatched_ as [|count rest]; [discriminate|].
  intros [= <-] tile. cbn [fst].
  rewrite (fold_add_source_keys
             (fun tile => new_task ep_range
                            [("x", IdNum (fst tile)); ("y", IdNum (snd tile))] None)
             (fun tile sources =>
                mkDataSource sources (map (fun mask => cell_get tile mask) mask_cells)
                  source_spec i)).
  split; intros [Hold|Hnew]; [by left| |by left|].
  - right. exists source_spec, ep_range, data, mask_cells, (count :: rest).
    split; [apply list_elem_of_here|]. by repeat split.
  - right.
    destruct Hnew as (s & ep & data' & ? & ? & ->%list_elem_of_singleton & Hep & Hq & Hin).
    rewrite Etime in Hep. injection Hep as <-. rewrite Equery in Hq. by injection Hq as <-.
Qed.

Lemma returned_for_cons self time_period tile_index source_spec rest tile :
  returned_for self time_period tile_index (source_spec :: rest) tile
  ↔ returned_for self time_period tile_index [source_spec] tile
    ∨ returned_for self time_period tile_index rest tile.
Proof.
  unfold returned_for. split.
  - intros (s & ep & data & mc & un & [->|Hin]%elem_of_cons & Hrest).
    + left. exists source_spec, ep, data, mc, un. split; [apply list_elem_of_here|done].
    + right. by exists s, ep, data, mc, un.
  - intros [(s & ep & data & mc & un & ->%list_elem_of_singleton & Hrest)
           |(s & ep & data & mc & un & Hin & Hrest)].
    + exists source_spec, ep, data, mc, un. split; [apply list_elem_of_here|done].
    + exists s, ep, data, mc, un. split; [by right|done].
Qed.

Lemma collect_loop_keys self time_period tile_index sources_spec :
  ∀ i acc acc',
    collect_loop self time_period tile_index i sources_spec acc = Ok acc' →
    ∀ tile, tile ∈ map fst (fst acc')
            ↔ tile ∈ map fst (fst acc)
              ∨ returned_for self time_period tile_index sources_spec tile.
Proof.
  induction sources_spec as [|source_spec rest IH]; intros i acc acc'; cbn [collect_loop].
  - intros [= <-] tile. split; [by left|]. intros [?|Hret]; [done|].
    destruct Hret as (s & ? & ? & ? & ? & Hin & _). by apply elem_of_nil in Hin.
  - destruct (collect_source _ _ _ _ _ _) as [acc1|e] eqn:E; [|discriminate].
    cbn [rbind]. intros Hrest tile.
    pose proof (IH _ _ _ Hrest tile) as H2.
    pose proof (collect_source_keys _ _ _ _ _ _ _ E tile) as H1.
    pose proof (returned_for_cons self time_period tile_index source_spec rest tile) as H3.
    tauto.
Qed.

(** X2.  The tasks that one call of [collect_tasks] returns are one per
    tile: there is one task, and one only, for each tile at which the
    batched query returns a cell of the primary product of one of the
    source specs; the [spatial_id] of the task holds the first index of
    its tile under ['x'] and the second under ['y']; and no task has a
    feature. *)
Theorem X2_one_task_per_tile self time_period sources_spec tile_index tasks :
  collect_tasks self time_period sources_spec tile_index = Ok tasks →
  ∃ tiles,
    NoDup tiles
    ∧ map spatial_id tasks
      = map (fun tile => [("x", IdNum (fst tile)); ("y", IdNum (snd tile))]) tiles
    ∧ (∀ tile, tile ∈ tiles
               ↔ returned_for self time_period tile_index sources_spec tile)
    ∧ ∀ t, t ∈ tasks → task_feature t = None.
Proof.
  unfold collect_tasks.
  destruct (collect_loop _ _ _ _ _ _) as [[keyed n]|e] eqn:E; [|discriminate].
  cbn [rbind]. intros [= <-].
  pose proof (collect_loop_keys _ _ _ _ _ _ _ E) as Hkeys.
  eapply (collect_loop_grouped sources_spec) in E as [Hnd Hall];
    [| by intros k s | split; constructor].
  rewrite Forall_forall in Hall.
  exists (map fst keyed). split; [done|]. split; [|split].
  - rewrite !map_map. apply map_ext_in. intros kt Hkt%list_elem_of_In.
    by destruct (Hall kt Hkt) as [-> _].
  - intros tile. rewrite (Hkeys tile). cbn [fst map]. rewrite elem_of_nil. tauto.
  - intros t ([k t'] & -> & Hin)%list_elem_of_fmap.
    by destruct (Hall _ Hin) as (_ & Hf & _).
Qed.

(** X3.  The time period of a task that the gridded generator yields is
    the range to which [filter_time_by_source] narrowed a period of
    [date_ranges] for the spec of the first source of the task: the
    sources that were added to the task later do not change it. *)
Theorem X3_gridded_time_period self sources_spec date_ranges t :
  t ∈ fst (Gridded_call self sources_spec date_ranges) →
  ∃ time_period d rest,
    time_period ∈ date_ranges
    ∧ sources t = d :: rest
    ∧ filter_time_by_source (time (ds_spec d)) time_period = Some (task_time_period t).
Proof.
  intros (time_period & tile_index & tasks & Hin & Hc & Ht)%Gridded_call_collects.
  apply collect_tasks_grouped in Hc as (keyed & -> & _ & Hall).
  apply list_elem_of_fmap in Ht as ([k t'] & -> & Hkt).
  rewrite Forall_forall in Hall.
  destruct (Hall _ Hkt) as (_ & _ & (d & rest & Hsrc & Htime) & _).
  by exists time_period, d, rest.
Qed.

(** *** The generator for arbitrary regions *)

Lemma add_spec_regional (all_specs : list SourceSpec) feature time_period i source_spec
    task task' :
  all_specs !! i = Some source_spec →
  add_spec feature time_period i source_spec task = Ok task' →
  spatial_id task' = spatial_id task
  ∧ ∀ f tp, regional all_specs f tp task → regional all_specs f tp task'.
Proof.
  intros Hi. unfold add_spec.
  destruct (filter_time_by_source _ _) as [ep_range|]; [|by intros [= <-]].
  destruct (make_arbitrary_tile _ _ _ _) as [data|e]; [|discriminate].
  cbn [rbind]. destruct (rmap _ _) as [tiles|e]; [|discriminate].
  cbn [rbind]. destruct (length (times data) =? 0)%nat; intros [= <-]; [done|].
  split; [done|]. intros f tp (Htp & Hf & Hall). split; [done|]. split; [done|].
  cbn. apply Forall_app. split; [done|]. by constructor.
Qed.

Lemma add_specs_regional (all_specs : list SourceSpec) feature time_period sources_spec :
  ∀ i task task',
    (∀ k s, sources_spec !! k = Some s → all_specs !! (i + k)%nat = Some s) →
    add_specs feature time_period i sources_spec task = Ok task' →
    spatial_id task' = spatial_id task
    ∧ ∀ f tp, regional all_specs f tp task → regional all_specs f tp task'.
Proof.
  induction sources_spec as [|source_spec rest IH]; intros i task task' Hat;
    cbn [add_specs].
  - by intros [= <-].
  - destruct (add_spec _ _ _ _ _) as [task1|e] eqn:E; [|discriminate].
    cbn [rbind]. intros Hrest.
    eapply (add_spec_regional all_specs) in E as [Hid1 Hreg1].
    2:{ specialize (Hat 0%nat source_spec eq_refl). by rewrite Nat.add_0_r in Hat. }
    eapply IH in Hrest as [Hid2 Hreg2].
    2:{ intros k s Hk. replace (S i + k)%nat with (i + S k)%nat by lia. by apply Hat. }
    split; [congruence|]. intros f tp Hreg. by apply Hreg2, Hreg1.
Qed.

Lemma set_task_loop_indexed (all_specs : list SourceSpec) method filtered_times todo :
  ∀ i visited all_dates removed visited' removed',
    set_task_loop method filtered_times i todo visited all_dates removed
    = Ok (visited', removed') →
    Forall (fun d => all_specs !! ds_source_index d = Some (ds_spec d)) todo →
    Forall (fun d => all_specs !! ds_source_index d = Some (ds_spec d)) visited →
    Forall (fun d => all_specs !! ds_source_index d = Some (ds_spec d)) visited'.
Proof.
  induction todo as [|sr rest IH]; intros i visited all_dates removed visited' removed';
    cbn [set_task_loop].
  - by intros [= <- <-].
  - intros Hloop Htodo Hvisited. inversion Htodo as [|? ? Hsr Hrest]; subst.
    destruct (if bool_decide (method = Some "by_hydrological_months") then _ else _)
      as [dates|]; [|discriminate].
    destruct (intersects dates filtered_times).
    + destruct (isel _ _) as [v'|e]; [|discriminate]. cbn [rbind] in Hloop.
      eapply IH; [done|done|]. apply Forall_app. split; [done|].
      constructor; [|constructor]. done.
    + eapply IH; [done|done|]. apply Forall_app. split; [done|]. by constructor.
Qed.

Lemma set_task_regional (all_specs : list SourceSpec) self task filtered_times task' :
  set_task self task filtered_times = Ok task' →
  spatial_id task' = spatial_id task
  ∧ ∀ f tp, regional all_specs f tp task → regional all_specs f tp task'.
Proof.
  unfold set_task.
  destruct (set_task_loop _ _ _ _ _ _ _) as [[visited removed]|e] eqn:E; [|discriminate].
  cbn [rbind]. intros Hdel.
  assert (Hkept : ∃ kept, task' = set_sources task kept
            ∧ (Forall (fun d => all_specs !! ds_source_index d = Some (ds_spec d)) visited →
               Forall (fun d => all_specs !! ds_source_index d = Some (ds_spec d)) kept)).
  { destruct (0 <? length removed)%nat.
    - destruct (del_loop removed visited) as [kept|e] eqn:Ed; [|discriminate].
      cbn [rbind] in Hdel. injection Hdel as <-. exists kept. split; [done|].
      by eapply TasksFacts.del_loop_inv.
    - cbn [rbind] in Hdel. injection Hdel as <-. by exists visited. }
  destruct Hkept as (kept & -> & Hkept). split; [done|].
  intros f tp (Htp & Hf & Hall). split; [done|]. split; [done|]. cbn.
  apply Hkept. eapply set_task_loop_indexed; [done|done|constructor].
Qed.

Lemma filter_task_regional (all_specs : list SourceSpec) self task feature date_ranges
    task' :
  filter_task self task feature date_ranges = Ok task' →
  (∀ f tp, regional all_specs f tp task → regional all_specs f tp task')
  ∧ (if filter_configured self
     then ∃ x y, spatial_id task' = [("x", x); ("y", y)]
     else spatial_id task' = spatial_id task).
Proof.
  unfold filter_task. destruct (filter_configured self); [|by intros [= <-]].
  destruct (get_filter_product _ _ _ _) as [[extra filtered]|e]; [|discriminate].
  cbn [rbind]. destruct (set_task _ _ _) as [task1|e] eqn:E; [|discriminate].
  cbn [rbind]. destruct extra as [|a0 [|a1 ?]]; try discriminate.
  intros [= <-]. apply (set_task_regional all_specs) in E as [_ Hreg]. split.
  - intros f tp Ht. by destruct (Hreg f tp Ht) as (? & ? & ?).
  - by exists a0, a1.
Qed.

Lemma NonGridded_call_regional self sources_spec date_ranges t :
  t ∈ fst (NonGridded_call self sources_spec date_ranges) →
  ∃ feature time_period,
    feature ∈ default [None] (features self)
    ∧ time_period ∈ date_ranges
    ∧ regional sources_spec feature time_period t
    ∧ (if filter_configured self
       then ∃ x y, spatial_id t = [("x", x); ("y", y)]
       else spatial_id t = [("feature_id", IdStr (feature_id_of feature))]).
Proof.
  unfold NonGridded_call. intros (feature & Hf & Ht)%TasksFacts.gen_for_yields.
  apply TasksFacts.gen_for_yields in Ht as (time_period & Htp & Ht).
  unfold NonGridded_period in Ht.
  destruct (add_specs _ _ _ _ _) as [matched|e] eqn:E;
    [|by apply elem_of_nil in Ht].
  destruct (0 <? length (sources matched))%nat; [|by apply elem_of_nil in Ht].
  destruct (filter_task _ _ _ _) as [t'|e] eqn:Ef; [|by apply elem_of_nil in Ht].
  cbn in Ht. apply list_elem_of_singleton in Ht as ->.
  exists feature, time_period. do 2 (split; [done|]).
  eapply (add_specs_regional sources_spec) in E as [Hid Hreg]; [|by intros k s].
  eapply (filter_task_regional sources_spec) in Ef as [Hreg' Hid']. split.
  - apply Hreg', Hreg. split; [done|]. split; [done|]. constructor.
  - destruct (filter_configured self); [done|]. by rewrite Hid', Hid.
Qed.

(** X4.  In every task that either generator yields, [source_index] of
    a source is the position in [sources_spec] of the spec that the
    source carries, also after the filter has narrowed sources and
    removed others. *)
Theorem X4_source_index sources_spec date_ranges t d :
  (∃ self, t ∈ fst (Gridded_call self sources_spec date_ranges))
  ∨ (∃ self, t ∈ fst (NonGridded_call self sources_spec date_ranges)) →
  d ∈ sources t →
  sources_spec !! ds_source_index d = Some (ds_spec d).
Proof.
  intros [[self Ht]|[self Ht]] Hd.
  - apply Gridded_call_collects in Ht as (time_period & tile_index & tasks & _ & Hc & Ht).
    apply collect_tasks_grouped in Hc as (keyed & -> & _ & Hall).
    apply list_elem_of_fmap in Ht as ([k t'] & -> & Hkt).
    rewrite Forall_forall in Hall. destruct (Hall _ Hkt) as (_ & _ & _ & Hsrc).
    rewrite Forall_forall in Hsrc. by apply Hsrc.
  - apply NonGridded_call_regional in Ht as (f & tp & _ & _ & (_ & _ & Hsrc) & _).
    rewrite Forall_forall in Hsrc. by apply Hsrc.
Qed.

(** X5.  A task that the generator for arbitrary regions yields has one
    of the periods of [date_ranges] as its time period, unnarrowed, and
    one of the features (or none, without a list of features) as its
    feature.  Without a filter product its [spatial_id] is the id of
    that feature under ['feature_id'] (['(none)'] without one); with a
    filter product it has the keys ['x'] and ['y'] only, and the
    feature id is gone. *)
Theorem X5_nongridded_identity self sources_spec date_ranges t :
  t ∈ fst (NonGridded_call self sources_spec date_ranges) →
  task_time_period t ∈ date_ranges
  ∧ task_feature t ∈ default [None] (features self)
  ∧ (if filter_configured self
     then ∃ x y, spatial_id t = [("x", x); ("y", y)]
     else spatial_id t = [("feature_id", IdStr (feature_id_of (task_feature t)))]).
Proof.
  intros (feature & time_period & Hf & Htp & (<- & <- & _) & Hid)%NonGridded_call_regional.
  done.
Qed.

(** X9.  The grid spec that [_make_grid_spec] returns has the CRS of
    the storage description and, for tile size and for resolution, one
    entry per dimension of that CRS, in the order of the dimensions:
    the entry of the storage description under the name of the
    dimension. *)
Theorem X9_grid_spec_per_dimension storage (spec : GridSpec) :
  _make_grid_spec storage = Ok spec →
  ∃ dims,
    dict_get "crs" storage = Some (gs_crs spec)
    ∧ crs_dimensions (gs_crs spec) = Ok dims
    ∧ Forall2 (fun dim size =>
                 ∃ sizes, dict_get "tile_size" storage = Some sizes ∧ item sizes dim = Ok size)
              dims (gs_tile_size spec)
    ∧ Forall2 (fun dim res =>
                 ∃ ress, dict_get "resolution" storage = Some ress ∧ item ress dim = Ok res)
              dims (gs_resolution spec).
Proof.
  unfold _make_grid_spec. destruct (negb _); [discriminate|].
  unfold item at 1. destruct (dict_get "crs" storage) as [crs|]; [|discriminate].
  cbn [rbind]. destruct (crs_dimensions crs) as [dims|e] eqn:Edims; [|discriminate].
  cbn [rbind].
  destruct (rmap (fun dim => rbind (item (VDict storage) "tile_size")
                              (fun ts => item ts dim)) dims)
    as [tile_size|e] eqn:Ets; [|discriminate].
  cbn [rbind].
  destruct (rmap (fun dim => rbind (item (VDict storage) "resolution")
                              (fun rs => item rs dim)) dims)
    as [resolution|e] eqn:Eres; [|discriminate].
  cbn [rbind]. intros [= <-]. cbn [gs_crs gs_tile_size gs_resolution].
  exists dims. do 2 (split; [done|]). split.
  - apply DictFacts.rmap_Ok in Ets. eapply Forall2_impl; [exact Ets|].
    intros dim size. cbn. unfold item at 1.
    destruct (dict_get "tile_size" storage) as [sizes|]; [|discriminate].
    cbn [rbind]. intros Hsize. by exists sizes.
  - apply DictFacts.rmap_Ok in Eres. eapply Forall2_impl; [exact Eres|].
    intros dim res. cbn. unfold item at 1.
    destruct (dict_get "resolution" storage) as [ress|]; [|discriminate].
    cbn [rbind]. intros Hres. by exists ress.
Qed.

End WithExternals.

End TasksMore.

(** ** What [set_task] keeps *)

Module FilteringFacts.
Import Py Tasks Filtering.

Section WithExternals.
Context `{Externals}.

Lemma isel_matching fmt filtered_times (l pre : list (Z * list nat)) :
  rmap (fun i => match (pre ++ l) !! i with
                 | Some x => Ok x
                 | None => Raise IndexError
                 end)
       (matching_positions (length pre) (map fmt (map fst l)) filtered_times)
  = Ok (filter (fun x => fmt (fst x) ∈ filtered_times) l).
Proof.
  revert pre. induction l as [|x l IH]; intros pre; cbn [map matching_positions]; [done|].
  specialize (IH (pre ++ [x])). rewrite <- app_assoc, length_app in IH.
  cbn [app length] in IH. rewrite Nat.add_1_r in IH.
  rewrite filter_cons. case_bool_decide as Hx.
  - rewrite decide_True by done. cbn [app rmap].
    rewrite lookup_app_r by lia. rewrite Nat.sub_diag. cbn [lookup list_lookup rbind].
    by rewrite IH.
  - rewrite decide_False by done. cbn [app]. exact IH.
Qed.

Lemma isel_narrows fmt filtered_times v :
  isel v (matching_positions 0 (map fmt (times v)) filtered_times)
  = Ok (mkTile (filter (fun x => fmt (fst x) ∈ filtered_times) (tile_sources v))
               (tile_geobox v)).
Proof.
  unfold isel, times.
  pose proof (isel_matching fmt filtered_times (tile_sources v) []) as Hm.
  cbn [app length] in Hm. by rewrite Hm.
Qed.

Lemma set_task_loop_run method fmt filtered_times todo :
  date_format method = Some fmt →
  ∀ i visited all_dates removed,
    set_task_loop method filtered_times i todo visited all_dates removed
    = Ok (visited
          ++ map (fun sr => if retained fmt filtered_times sr
                            then narrowed fmt filtered_times sr else sr) todo,
          removed ++ unretained fmt filtered_times i todo).
Proof.
  intros Hfmt. induction todo as [|sr rest IH]; intros i visited all_dates removed;
    cbn [set_task_loop map unretained].
  - by rewrite !app_nil_r.
  - assert (Hdates : (if bool_decide (method = Some "by_hydrological_months")
                      then Some (map strftime_day (times (ds_data sr)))
                      else if bool_decide (method = Some "by_tide_height")
                           then Some (map strftime_second (times (ds_data sr)))
                           else all_dates)
                     = Some (map fmt (times (ds_data sr)))).
    { unfold date_format in Hfmt.
      destruct (bool_decide (method = Some "by_hydrological_months"));
        [by injection Hfmt as <-|].
      destruct (bool_decide (method = Some "by_tide_height"));
        [by injection Hfmt as <-|done]. }
    rewrite Hdates. unfold retained at 1 3.
    destruct (intersects _ _) eqn:Ei.
    + rewrite isel_narrows. cbn [rbind]. rewrite IH.
      by rewrite <- !app_assoc.
    + rewrite IH. by rewrite <- !app_assoc.
Qed.

Lemma set_task_run self task filtered_times fmt :
  date_format (dict_get "method" (default [] (filter_product self))) = Some fmt →
  set_task self task filtered_times
  = rbind (let removed := unretained fmt filtered_times 0 (sources task) in
           let visited := map (fun sr => if retained fmt filtered_times sr
                                         then narrowed fmt filtered_times sr else sr)
                              (sources task) in
           if (0 <? length removed)%nat then del_loop removed visited else Ok visited)
          (fun kept => Ok (set_sources task kept)).
Proof.
  intros Hfmt. unfold set_task. by rewrite (set_task_loop_run _ fmt).
Qed.

Lemma unretained_all fmt filtered_times l :
  Forall (fun sr => retained fmt filtered_times sr = true) l →
  ∀ i, unretained fmt filtered_times i l = [].
Proof.
  induction 1 as [|sr rest Hsr Hrest IH]; intros i; cbn [unretained]; [done|].
  by rewrite Hsr, IH.
Qed.

Lemma unretained_none fmt filtered_times l :
  Forall (fun sr => retained fmt filtered_times sr = false) l →
  ∀ i, unretained fmt filtered_times i l = seq i (length l).
Proof.
  induction 1 as [|sr rest Hsr Hrest IH]; intros i; cbn [unretained length seq]; [done|].
  by rewrite Hsr, IH.
Qed.

Lemma map_retained fmt filtered_times l :
  Forall (fun sr => retained fmt filtered_times sr = true) l →
  map (fun sr => if retained fmt filtered_times sr
                 then narrowed fmt filtered_times sr else sr) l
  = map (narrowed fmt filtered_times) l.
Proof.
  intros Hall. apply map_ext_in. intros sr Hsr%list_elem_of_In.
  rewrite Forall_forall in Hall. by rewrite (Hall sr Hsr).
Qed.

Lemma unretained_length fmt filtered_times l :
  ∀ i, length (unretained fmt filtered_times i l)
       = length (filter (fun sr => retained fmt filtered_times sr = false) l).
Proof.
  induction l as [|sr rest IH]; intros i; cbn [unretained]; [done|].
  rewrite filter_cons, length_app, IH.
  destruct (retained fmt filtered_times sr).
  - by rewrite decide_False.
  - by rewrite decide_True.
Qed.

Lemma unretained_cases fmt filtered_times l :
  ∀ i, (length (unretained fmt filtered_times i l) ≤ 1)%nat →
    (unretained fmt filtered_times i l = []
     ∧ Forall (fun sr => retained fmt filtered_times sr = true) l)
    ∨ ∃ l1 sr l2,
        l = l1 ++ sr :: l2
        ∧ Forall (fun sr => retained fmt filtered_times sr = true) l1
        ∧ retained fmt filtered_times sr = false
        ∧ Forall (fun sr => retained fmt filtered_times sr = true) l2
        ∧ unretained fmt filtered_times i l = [(i + length l1)%nat].
Proof.
  induction l as [|sr rest IH]; intros i Hone; cbn [unretained] in *.
  - left. by split.
  - destruct (retained fmt filtered_times sr) eqn:Er; cbn [app] in *.
    + destruct (IH (S i) Hone) as [[Hnil Hall]|(l1 & sr' & l2 & -> & H1 & Hsr & H2 & Hun)].
      * left. split; [done|]. by constructor.
      * right. exists (sr :: l1), sr', l2. split; [done|].
        split; [by constructor|]. do 2 (split; [done|]).
        rewrite Hun. cbn [length]. f_equal. lia.
    + right. exists [], sr, rest. cbn [length] in Hone.
      assert (Hrest : unretained fmt filtered_times (S i) rest = []).
      { destruct (unretained _ _ _ rest); [done|]. cbn in Hone. lia. }
      split; [done|]. split; [constructor|]. split; [done|]. split.
      * clear -Hrest. revert Hrest. generalize (S i).
        induction rest as [|sr' rest IH]; intros j; cbn [unretained]; [constructor|].
        destruct (retained fmt filtered_times sr') eqn:Er'; [|discriminate].
        cbn [app]. intros Hrest. constructor; [done|]. by eapply IH.
      * rewrite Hrest. cbn. f_equal. lia.
Qed.

Lemma filter_retained fmt filtered_times l :
  Forall (fun sr => retained fmt filtered_times sr = true) l →
  filter (fun sr => retained fmt filtered_times sr = true) l = l.
Proof.
  induction 1 as [|sr rest Hsr Hrest IH]; [done|].
  rewrite filter_cons, decide_True by done. by rewrite IH.
Qed.

(** X6.  With one of the two methods that [set_task] knows, and at most
    one source without a time among [filtered_times], [set_task] returns
    the task with exactly the sources that have such a time, in their
    order, each narrowed to those of its times that are among
    [filtered_times]. *)
Theorem X6_set_task_at_most_one_removed self task filtered_times configured fmt :
  filter_product self = Some configured →
  date_format (dict_get "method" configured) = Some fmt →
  (length (filter (fun sr => retained fmt filtered_times sr = false) (sources task)) ≤ 1)%nat →
  set_task self task filtered_times
  = Ok (set_sources task
          (map (narrowed fmt filtered_times)
               (filter (fun sr => retained fmt filtered_times sr = true) (sources task)))).
Proof.
  intros Hfp Hfmt Hone.
  rewrite (set_task_run _ _ _ fmt) by (by rewrite Hfp). cbv zeta.
  rewrite <- (unretained_length fmt filtered_times (sources task) 0) in Hone.
  destruct (unretained_cases _ _ _ _ Hone)
    as [[Hnil Hall]|(l1 & sr & l2 & Hl & H1 & Hsr & H2 & Hun)].
  - rewrite Hnil. cbn [length Nat.ltb Nat.leb rbind].
    by rewrite filter_retained, map_retained.
  - rewrite Hun, Hl. cbn [length Nat.ltb Nat.leb del_loop].
    rewrite map_app. cbn [map]. rewrite Hsr. rewrite !map_retained by done.
    unfold del_item. rewrite length_app, length_map. cbn [length Nat.add].
    replace (length l1 <? length l1 + S (length (map (narrowed fmt filtered_times) l2)))%nat
      with true by (symmetry; apply Nat.ltb_lt; lia).
    cbn [rbind].
    rewrite take_app_length' by (by rewrite length_map).
    rewrite cons_middle, app_assoc.
    rewrite drop_app_length' by (rewrite length_app, length_map; cbn; lia).
    rewrite filter_app, filter_cons, decide_False by (by rewrite Hsr).
    rewrite !filter_retained by done. by rewrite map_app.
Qed.

Lemma del_loop_out_of_range {A} (m : nat) :
  ∀ k (l : list A), (1 ≤ m)%nat → (length l + 2 ≤ k + 2 * m)%nat →
    del_loop (seq k m) l = Raise IndexError.
Proof.
  induction m as [|m IH]; intros k l Hm Hlen; [lia|].
  cbn [seq del_loop]. unfold del_item.
  destruct (k <? length l)%nat eqn:Ek; [|done]. cbn [rbind].
  apply Nat.ltb_lt in Ek. apply IH.
  - destruct m; [lia|lia].
  - rewrite length_app, length_take, length_drop. lia.
Qed.

(** X7.  With one of the two methods that [set_task] knows, when no
    source of the task has a time among [filtered_times]: a task without
    sources is returned as it is, a task with one source is returned
    without sources, and for a task with two sources or more [set_task]
    raises [IndexError], because it deletes by the positions that the
    sources had before the first deletion. *)
Theorem X7_set_task_nothing_retained self task filtered_times configured fmt :
  filter_product self = Some configured →
  date_format (dict_get "method" configured) = Some fmt →
  Forall (fun sr => retained fmt filtered_times sr = false) (sources task) →
  set_task self task filtered_times
  = match sources task with
    | [] => Ok task
    | [_] => Ok (set_sources task [])
    | _ => Raise IndexError
    end.
Proof.
  intros Hfp Hfmt Hnone.
  rewrite (set_task_run _ _ _ fmt) by (by rewrite Hfp). cbv zeta.
  rewrite unretained_none by done.
  assert (Hsame : map (fun sr => if retained fmt filtered_times sr
                                 then narrowed fmt filtered_times sr else sr)
                      (sources task) = sources task).
  { rewrite <- (map_id (sources task)) at 2. apply map_ext_in.
    intros sr Hsr%list_elem_of_In. rewrite Forall_forall in Hnone.
    by rewrite (Hnone sr Hsr). }
  rewrite Hsame. rewrite length_seq.
  destruct (sources task) as [|sr [|sr' rest]] eqn:Es.
  - cbn. by destruct task; cbn in *; subst.
  - reflexivity.
  - change (0 <? length (sr :: sr' :: rest))%nat with true. cbn iota.
    rewrite del_loop_out_of_range; [done|cbn; lia|cbn; lia].
Qed.

(** X8.  With a filter product whose method is neither
    ['by_hydrological_months'] nor ['by_tide_height'] (or that has no
    method), [set_task] on a task with a source raises
    [UnboundLocalError]: [all_dates] is read without having been
    assigned. *)
Theorem X8_set_task_unbound_all_dates self task filtered_times configured :
  filter_product self = Some configured →
  date_format (dict_get "method" configured) = None →
  sources task ≠ [] →
  set_task self task filtered_times = Raise (UnboundLocalError "all_dates").
Proof.
  intros Hfp Hfmt Hne. unfold set_task. rewrite Hfp. cbn [default].
  destruct (sources task) as [|sr rest]; [done|]. cbn [set_task_loop].
  unfold date_format in Hfmt.
  destruct (bool_decide (_ = Some "by_hydrological_months")); [done|].
  by destruct (bool_decide (_ = Some "by_tide_height")).
Qed.

End WithExternals.

End FilteringFacts.

(** ** Choosing the generator *)

Module SelectFacts.
Import Py Tasks Select.

Section WithExternals.
Context `{Tasks.Externals} `{Select.Externals}.

Lemma Gridded_init_grid_spec storage geopolygon tile_indexes g :
  Gridded_init storage geopolygon tile_indexes = Ok g →
  _make_grid_spec storage = Ok (grid_spec g)
  ∧ Tasks.geopolygon g = geopolygon ∧ Tasks.tile_indexes g = tile_indexes.
Proof.
  unfold Gridded_init. destruct (_make_grid_spec storage) as [gs|e]; [|discriminate].
  by intros [= <-].
Qed.

Lemma select_task_generator_cases input_region storage filter_product self :
  select_task_generator input_region storage filter_product
  = Ok (GriddedTaskGenerator self) →
  (∃ geopolygon tile_indexes, Gridded_init storage geopolygon tile_indexes = Ok self)
  ∧ ∀ other_filter,
      select_task_generator input_region storage other_filter
      = Ok (GriddedTaskGenerator self).
Proof.
  unfold select_task_generator.
  assert (Hcase : ∀ geopolygon tile_indexes,
            rbind (Gridded_init storage geopolygon tile_indexes)
                  (fun g => Ok (GriddedTaskGenerator g))
            = Ok (GriddedTaskGenerator self) →
            ∃ geopolygon tile_indexes, Gridded_init storage geopolygon tile_indexes = Ok self).
  { intros geopolygon tile_indexes.
    destruct (Gridded_init _ _ _) as [g|e] eqn:Eg; [|discriminate].
    cbn [rbind]. intros [= ->]. by exists geopolygon, tile_indexes. }
  destruct input_region as [region|]; [|by split; [eapply Hcase|]].
  destruct (is_empty_region region); [by split; [eapply Hcase|]|].
  destruct (geometry region) as [geojson|].
  { destruct (Geometry geojson) as [geom|e]; [|discriminate]. cbn [rbind].
    by split; [eapply Hcase|]. }
  destruct (tile region) as [index|]; [by split; [eapply Hcase|]|].
  destruct (tiles region) as [indexes|]; [by split; [eapply Hcase|]|].
  destruct (from_file region) as [filename|]; [|discriminate].
  destruct (_ || _).
  - destruct (features_from_file _ _); discriminate.
  - destruct (boundary_polygon_from_file filename) as [geom|e]; [|discriminate].
    cbn [rbind]. by split; [eapply Hcase|].
Qed.

(** X10.  When [select_task_generator] returns a gridded generator, the
    storage description has a ['tile_size'], the grid spec of the
    generator is the one that [_make_grid_spec] makes of the storage
    description, and the filter product has played no part: with any
    other filter product the same generator is returned. *)
Theorem X10_select_gridded input_region storage filter_product self :
  select_task_generator input_region storage filter_product
  = Ok (GriddedTaskGenerator self) →
  _make_grid_spec storage = Ok (grid_spec self)
  ∧ is_Some (dict_get "tile_size" storage)
  ∧ ∀ other_filter,
      select_task_generator input_region storage other_filter
      = Ok (GriddedTaskGenerator self).
Proof.
  intros [(geopolygon & tile_indexes & Hinit) Hother]%select_task_generator_cases.
  apply Gridded_init_grid_spec in Hinit as [Hgrid _].
  split; [done|]. split; [|done].
  revert Hgrid. unfold _make_grid_spec. case_bool_decide as Hts; [done|discriminate].
Qed.

(** X11.  When [select_task_generator] returns a generator for
    arbitrary regions, the generator holds the input region, the storage
    description and the filter product as they were given, the storage
    description having not been looked at; the input region is a
    dictionary that is not empty and has none of the keys ['geometry'],
    ['tile'] and ['tiles']; with a key ['from_file'] it has a
    ['feature_id'] or [False] under ['gridded'], and the features of the
    generator are those read from the file; without it the generator has
    no features. *)
Theorem X11_select_not_gridded input_region storage filter_product
    region' storage' self :
  select_task_generator input_region storage filter_product
  = Ok (NonGriddedTaskGenerator region' storage' self) →
  region' = input_region ∧ storage' = storage
  ∧ Tasks.filter_product self = filter_product
  ∧ ∃ region,
      input_region = Some region
      ∧ is_empty_region region = false
      ∧ geometry region = None ∧ tile region = None ∧ tiles region = None
      ∧ match from_file region with
        | Some filename =>
            (is_Some (region_feature_id region) ∨ gridded region = Some false)
            ∧ ∃ features,
                features_from_file filename (region_feature_id region) = Ok features
                ∧ Tasks.features self = Some features
        | None => Tasks.features self = None
        end.
Proof.
  unfold select_task_generator.
  destruct input_region as [region|].
  2:{ destruct (Gridded_init _ _ _); discriminate. }
  destruct (is_empty_region region) eqn:Hempty.
  { destruct (Gridded_init _ _ _); discriminate. }
  destruct (geometry region) as [geojson|] eqn:Eg.
  { destruct (Geometry geojson) as [geom|e]; [|discriminate]. cbn [rbind].
    destruct (Gridded_init _ _ _); discriminate. }
  destruct (tile region) as [index|] eqn:Et; [destruct (Gridded_init _ _ _); discriminate|].
  destruct (tiles region) as [indexes|] eqn:Ets;
    [destruct (Gridded_init _ _ _); discriminate|].
  destruct (from_file region) as [filename|] eqn:Ef.
  - destruct (_ || _) eqn:Hcond.
    + destruct (features_from_file _ _) as [features|e] eqn:Efeat; [|discriminate].
      cbn [rbind]. intros [= <- <- <-]. do 3 (split; [done|]).
      exists region. do 5 (split; [done|]). rewrite Ef. split.
      * apply orb_true_iff in Hcond as [Hc|Hc]; apply bool_decide_eq_true_1 in Hc; tauto.
      * by exists features.
    + destruct (boundary_polygon_from_file filename) as [geom|e]; [|discriminate].
      cbn [rbind]. destruct (Gridded_init _ _ _); discriminate.
  - intros [= <- <- <-]. do 3 (split; [done|]).
    exists region. do 5 (split; [done|]). by rewrite Ef.
Qed.

End WithExternals.

End SelectFacts.

(** ** The parameters of the netCDF variables *)

Module ParamsFacts.
Import Py Tasks Params.

Lemma dict_get_update {V} k (d other : list (string * V)) :
  NoDup (map fst other) →
  dict_get k (update d other)
  = match dict_get k other with
    | Some v => Some v
    | None => dict_get k d
    end.
Proof.
  unfold update. revert d. induction other as [|[k' v] other IH]; intros d Hnd;
    cbn [fold_left dict_get map fst snd] in *; [done|].
  apply NoDup_cons in Hnd as [Hk' Hnd]. rewrite IH by done.
  destruct (String.eqb k k') eqn:E.
  - apply String.eqb_eq in E as ->.
    assert (Hnone : dict_get k' other = None).
    { clear -Hk'. induction other as [|[k'' v''] other IH]; cbn [dict_get]; [done|].
      cbn [map fst] in Hk'. apply not_elem_of_cons in Hk' as [Hne Hk'].
      rewrite (proj2 (String.eqb_neq k' k'') Hne). by apply IH. }
    rewrite Hnone. apply DictFacts.dict_get_set_eq.
  - apply String.eqb_neq in E. destruct (dict_get k other); [done|].
    by apply DictFacts.dict_get_set_ne.
Qed.

(** The entry for [k] among the parameters of one variable. *)
Lemma variable_param_lookup chunking output_params measurement k :
  NoDup (map fst (m_items measurement)) →
  dict_get k (variable_param chunking output_params measurement)
  = match (if bool_decide (k ∈ _NETCDF_VARIABLE__PARAMETER_NAMES)
           then dict_get k (m_items measurement) else None) with
    | Some v => Some (Copied v)
    | None => if String.eqb k "chunksizes" then Some (Chunksizes chunking)
              else Copied <$> dict_get k output_params
    end.
Proof.
  intros Hnd. unfold variable_param. rewrite dict_get_update.
  2:{ rewrite map_map. cbn [fst]. by apply DictFacts.NoDup_filter_keys. }
  rewrite (DictFacts.dict_get_map Copied).
  pose proof (DictFacts.dict_get_filter (fun k => bool_decide (k ∈ _NETCDF_VARIABLE__PARAMETER_NAMES))
                k (m_items measurement)) as Hfilter.
  cbn beta in Hfilter. rewrite Hfilter. clear Hfilter.
  destruct (if bool_decide _ then _ else _) as [v|]; [done|]. cbn [fmap option_fmap option_map].
  destruct (String.eqb k "chunksizes") eqn:E.
  - apply String.eqb_eq in E as ->. apply DictFacts.dict_get_set_eq.
  - apply String.eqb_neq in E. rewrite DictFacts.dict_get_set_ne by done.
    apply (DictFacts.dict_get_map Copied).
Qed.

Lemma variable_params_loop_lookup chunking output_params data_measurements :
  ∀ variable_params result_,
    variable_params_loop chunking output_params data_measurements variable_params
    = Ok result_ →
    NoDup (map m_name data_measurements) →
    ∀ measurement, measurement ∈ data_measurements →
      ∃ name, m_name measurement = Some name
        ∧ dict_get name result_ = Some (variable_param chunking output_params measurement).
Proof.
  induction data_measurements as [|m rest IH]; intros vp res Hrun Hnd measurement Hin;
    cbn [variable_params_loop map] in *.
  - by apply elem_of_nil in Hin.
  - destruct (m_name m) as [name|] eqn:En; [|discriminate].
    apply NoDup_cons in Hnd as [Hm Hnd].
    apply elem_of_cons in Hin as [->|Hin]; [|by eapply IH].
    exists name. split; [done|].
    assert (Hkeep : ∀ vp', dict_get name vp' = Some (variable_param chunking output_params m) →
              variable_params_loop chunking output_params rest vp' = Ok res →
              dict_get name res = Some (variable_param chunking output_params m)).
    { clear -Hm. revert Hm. induction rest as [|m' rest IH]; intros Hm vp' Hget;
        cbn [variable_params_loop].
      - by intros [= <-].
      - cbn [map] in Hm. apply not_elem_of_cons in Hm as [Hne Hm].
        destruct (m_name m') as [name'|] eqn:En'; [|discriminate].
        apply IH; [done|]. rewrite DictFacts.dict_get_set_ne; [done|]. congruence. }
    eapply Hkeep; [|exact Hrun]. apply DictFacts.dict_get_set_eq.
Qed.

(** X25.  In what [_create_netcdf_var_params] returns, the parameters
    of the variable of a data measurement are: under each of the names
    of [_NETCDF_VARIABLE__PARAMETER_NAMES] that the measurement has, the
    value of the measurement; under ['chunksizes'], the chunk sizes of
    the storage description in the order of its ['dimension_order'],
    whatever the output parameters or the measurement hold under that
    key; under any other key, what the output parameters of the product
    hold, if anything.  Measurements are taken to have different
    names. *)
Theorem X25_var_params_lookup storage data_measurements output_params
    variable_params measurement :
  _create_netcdf_var_params storage data_measurements output_params = Ok variable_params →
  NoDup (map m_name data_measurements) →
  measurement ∈ data_measurements →
  NoDup (map fst (m_items measurement)) →
  ∃ name sizes order chunks params,
    m_name measurement = Some name
    ∧ dimension_order storage = Some order
    ∧ chunking storage = Some sizes
    ∧ Forall2 (fun dim size => dict_get dim sizes = Some size) order chunks
    ∧ dict_get name variable_params = Some params
    ∧ ∀ k, dict_get k params
           = match (if bool_decide (k ∈ _NETCDF_VARIABLE__PARAMETER_NAMES)
                    then dict_get k (m_items measurement) else None) with
             | Some v => Some (Copied v)
             | None => if String.eqb k "chunksizes" then Some (Chunksizes chunks)
                       else Copied <$> dict_get k output_params
             end.
Proof.
  unfold _create_netcdf_var_params.
  destruct (chunking storage) as [sizes|]; [|discriminate]. cbn [rbind].
  destruct (dimension_order storage) as [order|]; [|discriminate]. cbn [rbind].
  destruct (rmap _ order) as [chunks|e] eqn:Echunks; [|discriminate]. cbn [rbind].
  intros Hrun Hnames Hin Hitems.
  destruct (variable_params_loop_lookup _ _ _ _ _ Hrun Hnames _ Hin) as (name & Hname & Hget).
  exists name, sizes, order, chunks, (variable_param chunks output_params measurement).
  do 3 (split; [done|]). split.
  - apply DictFacts.rmap_Ok in Echunks. eapply Forall2_impl; [exact Echunks|].
    intros dim size. cbn. by destruct (dict_get dim sizes) as [?|]; intros [= ->].
  - split; [done|]. intros k. by apply variable_param_lookup.
Qed.

(** X26.  When the first dimension of ['dimension_order'] that has no
    chunk size in the storage description is [dim],
    [_create_netcdf_var_params] raises [KeyError] for [dim], whatever the
    data measurements are, also when there are none. *)
Theorem X26_var_params_missing_chunk storage data_measurements output_params
    sizes order before dim after :
  chunking storage = Some sizes →
  dimension_order storage = Some order →
  order = before ++ dim :: after →
  (∀ d, d ∈ before → is_Some (dict_get d sizes)) →
  dict_get dim sizes = None →
  _create_netcdf_var_params storage data_measurements output_params = Raise (KeyError dim).
Proof.
  intros Hsizes Horder -> Hbefore Hdim. unfold _create_netcdf_var_params.
  rewrite Hsizes, Horder. cbn [rbind].
  assert (Hrmap : rmap (fun dim => match dict_get dim sizes with
                                   | Some size => Ok size
                                   | None => Raise (KeyError dim)
                                   end) (before ++ dim :: after) = Raise (KeyError dim)).
  { clear -Hbefore Hdim. induction before as [|d before IH]; cbn [app rmap].
    - by rewrite Hdim.
    - destruct (Hbefore d (list_elem_of_here _ _)) as [size ->]. cbn [rbind].
      rewrite IH; [done|]. intros d' Hd'. apply Hbefore. by right. }
  by rewrite Hrmap.
Qed.

End ParamsFacts.

(** ** The checks of the GeoTiff driver *)

Module GeotiffFacts.
Import Py Registry Drivers DriversWalk FrameFacts DriversFacts.
Local Open Scope py_scope.

Lemma distinct_singleton {A} `{EqDecision A} (l : list A) (d : A) :
  distinct l = [d] ↔ l ≠ [] ∧ ∀ x, x ∈ l → x = d.
Proof.
  unfold distinct. split.
  - intros Hd. split.
    + intros ->. discriminate Hd.
    + intros x Hx. apply elem_of_remove_dups in Hx. rewrite Hd in Hx.
      by apply list_elem_of_singleton in Hx.
  - intros [Hne Hall].
    pose proof (NoDup_remove_dups l) as Hnd.
    assert (Hin : ∀ x, x ∈ remove_dups l → x = d).
    { intros x Hx. apply Hall. by apply elem_of_remove_dups. }
    destruct l as [|a l]; [done|].
    assert (Ha : a ∈ remove_dups (a :: l)) by (apply elem_of_remove_dups; left).
    destruct (remove_dups (a :: l)) as [|b r]; [by apply elem_of_nil in Ha|].
    rewrite (Hin b) by left. f_equal.
    destruct r as [|c r]; [done|]. exfalso.
    apply NoDup_cons in Hnd as [Hb _]. apply Hb.
    rewrite (Hin b) by left. rewrite (Hin c) by (right; left). left.
Qed.

Lemma distinct_differ {A} `{EqDecision A} (l : list A) (x y : A) :
  x ∈ l → y ∈ l → x ≠ y → ∀ d, distinct l ≠ [d].
Proof.
  intros Hx Hy Hxy d [_ Hall]%distinct_singleton.
  apply Hxy. by rewrite (Hall x Hx), (Hall y Hy).
Qed.

Section WithExternals.
Context `{Externals}.

Lemma _get_dtype_shared self out_prod_name stat d w :
  dict_get out_prod_name (_output_products self) = Some stat →
  measurements stat ≠ [] →
  (∀ m, m ∈ measurements stat → dtype (snd m) = d) →
  _get_dtype self out_prod_name None w = (w, Ok d).
Proof.
  intros Hstat Hne Hall. rewrite (_get_dtype_of_product _ _ stat) by done.
  assert (Hd : distinct (map (fun m => dtype (snd m)) (measurements stat)) = [d]).
  { apply distinct_singleton. split.
    - destruct (measurements stat); [done|discriminate].
    - intros x (m & -> & Hm)%list_elem_of_fmap. by apply Hall. }
  by rewrite Hd.
Qed.

Lemma _get_dtype_differ self out_prod_name stat w :
  dict_get out_prod_name (_output_products self) = Some stat →
  (measurements stat = []
   ∨ ∃ m m', m ∈ measurements stat ∧ m' ∈ measurements stat
             ∧ dtype (snd m) ≠ dtype (snd m')) →
  _get_dtype self out_prod_name None w
  = (w, Raise (StatsOutputError (DtypesDiffer out_prod_name))).
Proof.
  intros Hstat Hbad. rewrite (_get_dtype_of_product _ _ stat) by done.
  destruct (distinct _) as [|d [|]] eqn:Ed; [done| |done]. exfalso.
  destruct Hbad as [Hnil|(m & m' & Hm & Hm' & Hdiff)].
  - rewrite Hnil in Ed. discriminate Ed.
  - revert Ed. apply (distinct_differ _ (dtype (snd m)) (dtype (snd m'))); [| |done].
    + apply list_elem_of_fmap. by exists m.
    + apply list_elem_of_fmap. by exists m'.
Qed.

(** X12.  Without a measurement name, [_get_dtype] returns the dtype
    that all measurements of the product have, and raises
    [StatsOutputError] when two of them have different dtypes or when
    the product has no measurement; it changes nothing. *)
Theorem X12_get_dtype_one_dtype self out_prod_name stat w :
  dict_get out_prod_name (_output_products self) = Some stat →
  (∀ d, measurements stat ≠ [] →
        (∀ m, m ∈ measurements stat → dtype (snd m) = d) →
        _get_dtype self out_prod_name None w = (w, Ok d))
  ∧ ((measurements stat = []
      ∨ ∃ m m', m ∈ measurements stat ∧ m' ∈ measurements stat
                ∧ dtype (snd m) ≠ dtype (snd m')) →
     _get_dtype self out_prod_name None w
     = (w, Raise (StatsOutputError (DtypesDiffer out_prod_name)))).
Proof.
  intros Hstat. split.
  - intros d Hne Hall. by apply (_get_dtype_shared _ _ stat).
  - by apply _get_dtype_differ.
Qed.

Lemma _get_nodata_of_product self prod_name stat d w :
  dict_get prod_name (_output_products self) = Some stat →
  _get_dtype self prod_name None w = (w, Ok d) →
  _get_nodata self prod_name None w
  = (w, match distinct (map (fun m => nodata (snd m)) (measurements stat)) with
        | [n] => Ok (if String.eqb d "uint8" && (n <? 0)%Z then 255%Z else n)
        | _ => Raise (StatsOutputError (NodatasDiffer prod_name))
        end).
Proof.
  intros Hstat Hd. unfold _get_nodata. rewrite (bind_Ok _ _ _ _ _ Hd).
  cbn [truthy]. unfold product_measurements. rewrite Hstat. unfold bind, ret, raise.
  destruct (distinct _) as [|n [|]]; [done| |done].
  by destruct (String.eqb d "uint8" && (n <? 0)%Z).
Qed.

Lemma _get_nodata_common self prod_name stat d n w :
  dict_get prod_name (_output_products self) = Some stat →
  measurements stat ≠ [] →
  (∀ m, m ∈ measurements stat → dtype (snd m) = d ∧ nodata (snd m) = n) →
  _get_nodata self prod_name None w
  = (w, Ok (if String.eqb d "uint8" && (n <? 0)%Z then 255%Z else n)).
Proof.
  intros Hstat Hne Hall.
  assert (Hd : _get_dtype self prod_name None w = (w, Ok d)).
  { apply (_get_dtype_shared _ _ stat); [done|done|]. intros m Hm. by apply Hall. }
  rewrite (_get_nodata_of_product _ _ stat d) by done.
  assert (Hn : distinct (map (fun m => nodata (snd m)) (measurements stat)) = [n]).
  { apply distinct_singleton. split.
    - destruct (measurements stat); [done|discriminate].
    - intros x (m & -> & Hm)%list_elem_of_fmap. by apply Hall. }
  by rewrite Hn.
Qed.

(** X13.  For a product whose measurements have one dtype and one
    no-data value, [_get_nodata] without a measurement name returns 255
    when the dtype is ['uint8'] and the no-data value is negative, and
    the no-data value itself otherwise; so what it returns for a
    ['uint8'] product is never negative. *)
Theorem X13_get_nodata_shared self prod_name stat d n w :
  dict_get prod_name (_output_products self) = Some stat →
  measurements stat ≠ [] →
  (∀ m, m ∈ measurements stat → dtype (snd m) = d ∧ nodata (snd m) = n) →
  _get_nodata self prod_name None w
  = (w, Ok (if String.eqb d "uint8" && (n <? 0)%Z then 255%Z else n))
  ∧ (d = "uint8" →
     ∃ v, _get_nodata self prod_name None w = (w, Ok v) ∧ (0 ≤ v)%Z).
Proof.
  intros Hstat Hne Hall.
  pose proof (_get_nodata_common self prod_name stat d n w Hstat Hne Hall) as Hrun.
  split; [done|]. intros ->. eexists. split; [exact Hrun|].
  change ("uint8" =? "uint8")%string with true. cbn [andb].
  destruct (n <? 0)%Z eqn:En; [lia|]. by apply Z.ltb_ge in En.
Qed.


Lemma block_size_keeps self short long w :
  fst (block_size self short long w) = w.
Proof.
  unfold block_size, bind, of_option, ret, raise.
  destruct (Params.chunking (_storage self)) as [chunking|]; [|done].
  destruct (dict_get short chunking) as [v|]; [done|].
  by destruct (dict_get long chunking).
Qed.


End WithExternals.

End GeotiffFacts.

(** ** Preparing, opening and closing again *)

Module OutputFacts.
Import Py Registry Drivers DriversWalk FrameFacts DriversFacts.
Local Open Scope py_scope.

(** X24.  [_walk_dict] leaves out the handles for which [func] raises
    [TypeError] and goes on with the others: for a [func] that raises
    [TypeError] on the handles that are [unfit] and returns [f] of the
    others, it returns [f] of the handles at the top of the dictionary
    that are not [unfit], in their order, and raises nothing. *)
Theorem X24_walk_dict_skips_TypeError {A} (unfit : Handle → bool) (f : Handle → A)
    (items : list (string * HTree)) (w : World) :
  _walk_dict (fun fh => if unfit fh then raise TypeError else ret (f fh)) (Dict items) w
  = (w, Ok (map f (List.filter (fun fh => negb (unfit fh)) (top_leaves items)))).
Proof.
  induction items as [|[k [fh|sub]] rest IH]; cbn [top_leaves List.filter map].
  - reflexivity.
  - rewrite _walk_dict_leaf. destruct (unfit fh); cbn [negb].
    + unfold raise at 1. apply IH.
    + unfold ret at 1. unfold bind. rewrite IH. reflexivity.
  - rewrite _walk_dict_nested. apply IH.
Qed.

Section WithExternals.
Context `{Externals}.

Lemma _prepare_output_file_run self stat kwargs w w' tmp_path :
  _prepare_output_file self stat kwargs w = (w', Ok tmp_path) →
  tmp_path = _generate_output_filename self kwargs stat +:+ ".tmp"
  ∧ Path.suffix (_generate_output_filename self kwargs stat) ∈ valid_extensions (cls self)
  ∧ files w !! _generate_output_filename self kwargs stat = None
  ∧ files w' = delete tmp_path (files w).
Proof.
  set (output_path := _generate_output_filename self kwargs stat).
  destruct (decide (Path.suffix output_path ∈ valid_extensions (cls self)))
    as [Hvalid|Hinvalid]; [|by rewrite _prepare_output_file_invalid].
  destruct (exists_ output_path w) eqn:Ethere;
    [by rewrite _prepare_output_file_exists|].
  destruct (_prepare_output_file_new self stat kwargs w Hvalid Ethere) as (w1 & Hmk & ->).
  destruct (mkdir_parents_pass (Path.parent output_path) w)
    as (w1' & Hmk' & Hfiles & _).
  fold output_path in Hmk. rewrite Hmk in Hmk'. injection Hmk' as <-.
  assert (Hnone : files w !! output_path = None).
  { unfold exists_ in Ethere. apply orb_false_elim in Ethere as [Hf _].
    apply bool_decide_eq_false_1 in Hf.
    destruct (files w !! output_path) eqn:E; [|done]. destruct Hf. eauto. }
  fold output_path.
  destruct (files w1 !! (output_path +:+ ".tmp")) eqn:Etmp;
    [|destruct (bool_decide _)]; intros [= <- <-]; do 3 (split; [done|]);
    rewrite <- Hfiles; [done|by rewrite delete_id..].
Qed.

(** X15.  When [_prepare_output_file] returns a path, that path with
    its last four characters dropped, which is the name that
    [close_files] renames it to, is the output path that
    [_generate_output_filename] made and that was looked for; there is
    no file at either of the two, a stale temporary file having been
    removed; and no file at any other path has changed. *)
Theorem X15_prepare_output_file_round_trip self stat kwargs w w' tmp_path :
  _prepare_output_file self stat kwargs w = (w', Ok tmp_path) →
  PyStr.drop_last 4 tmp_path = _generate_output_filename self kwargs stat
  ∧ files w' !! tmp_path = None
  ∧ files w' !! PyStr.drop_last 4 tmp_path = None
  ∧ (∀ p, p ≠ tmp_path → files w' !! p = files w !! p).
Proof.
  intros Hrun.
  destruct (_prepare_output_file_run _ _ _ _ _ _ Hrun) as (-> & Hvalid & Hnone & ->).
  assert (Hne : _generate_output_filename self kwargs stat
                ≠ _generate_output_filename self kwargs stat +:+ ".tmp").
  { apply PathFacts.valid_extension_not_tmp. by eapply valid_extensions_known. }
  rewrite PathFacts.drop_last_tmp. split; [done|].
  split; [apply lookup_delete_eq|].
  split; [by rewrite lookup_delete_ne by (by apply not_eq_sym)|].
  intros p Hp. by rewrite lookup_delete_ne by (by apply not_eq_sym).
Qed.

Lemma is_absolute_append p s :
  p ≠ "" → Path.is_absolute (p +:+ s) = Path.is_absolute p.
Proof. destruct p as [|c p]; [done|]. intros _. unfold Path.is_absolute. cbn. done. Qed.

(** X16.  For a product of the NetCDF driver whose output path is
    relative, the loop body of [open_output_files] gets through
    [_prepare_output_file], which makes the directories and removes a
    stale temporary file, and then raises [ValueError], from
    [as_uri()], before the file is created: there is no file at the
    temporary path and no handle has been added. *)
Theorem X16_relative_output_path self prod_name stat w w1 tmp_path :
  Path.is_absolute (_generate_output_filename self [] stat) = false →
  _prepare_output_file self stat [] w = (w1, Ok tmp_path) →
  NetCDFCF_open_product self (prod_name, stat) w = (w1, Raise ValueError)
  ∧ files w1 !! tmp_path = None
  ∧ handles w1 = handles w.
Proof.
  intros Hrel Hprep.
  assert (Hgone : files w1 !! tmp_path = None).
  { destruct (_prepare_output_file_run _ _ _ _ _ _ Hprep) as (_ & _ & _ & ->).
    apply lookup_delete_eq. }
  destruct (_prepare_output_file_Ok _ _ _ _ _ _ Hprep) as (Ht & _ & _ & Hh & _).
  split; [|done]. unfold NetCDFCF_open_product. rewrite (bind_Ok _ _ _ _ _ Hprep).
  unfold _create_storage_unit, as_uri. subst tmp_path.
  assert (Hrel' : Path.is_absolute (_generate_output_filename self [] stat +:+ ".tmp") = false).
  { destruct (_generate_output_filename self [] stat) as [|c p]; [done|].
    by rewrite is_absolute_append. }
  by rewrite Hrel'.
Qed.

Lemma _walk_dict_first_raises {A} (func : Handle → M A) e fh rest w :
  func fh w = (w, Raise e) → e ≠ TypeError →
  ∀ items, top_leaves items = fh :: rest →
    _walk_dict func (Dict items) w = (w, Raise e).
Proof.
  intros Hrun He. induction items as [|[k [fh'|sub]] items IH]; cbn [top_leaves].
  - discriminate.
  - intros [= -> _]. rewrite _walk_dict_leaf, Hrun. by destruct e.
  - intros Hleaves. rewrite _walk_dict_nested. by apply IH.
Qed.

Lemma close_files_without_file self w fh rest :
  own_handles self w →
  cls self ≠ ENVIBILOutputDriver →
  top_leaves (handles w) = fh :: rest →
  files w !! fh_name fh = None →
  ∃ w', close_files self true w = (w', Raise (OSError (fh_name fh)))
    ∧ files w' = files w
    ∧ close_calls w' = close_calls w ++ map fh_id (top_leaves (handles w)).
Proof.
  intros Hown Hbase Hleaves Hgone.
  destruct (log_call_fields (CloseFiles true) w)
    as (w1 & Hlog & Hf1 & Hd1 & Hh1 & Ho1 & Hcc1 & Hc1).
  assert (Hleaves1 : top_leaves (handles w1) = fh :: rest) by (by rewrite Hh1).
  assert (Hown1 : own_handles self w1) by (by eapply own_handles_fields).
  destruct (close_all_fields (fh :: rest) w1)
    as (Hf & Hd & Hc & Hh & Hn & Hcc & Ho).
  exists (close_all (fh :: rest) w1).
  split; [|split; [congruence|by rewrite Hcc, Hcc1, Hleaves]].
  assert (Hrun : OutputDriver_close_files self true true w1
                 = (close_all (fh :: rest) w1, Raise (OSError (fh_name fh)))).
  { destruct Hown1 as [Hnodup1 Hkinds1].
    unfold OutputDriver_close_files, bind, gets.
    rewrite _walk_dict_paths by done.
    rewrite _walk_dict_close; [|done|intros fh' Hfh'; by apply Hkinds1]. cbn [andb].
    rewrite Hleaves1. cbn [map for_each]. unfold bind, rename.
    by rewrite Hf, Hf1, Hgone. }
  unfold close_files. rewrite (bind_Ok _ _ _ _ _ Hlog).
  destruct (cls self); try done; by rewrite (bind_Raise _ _ _ _ _ Hrun).
Qed.

Lemma close_files_closed_dataset self w fh rest :
  cls self = NetCDFCFOutputDriver →
  top_leaves (handles w) = fh :: rest →
  fh_kind fh = Dataset →
  fh_id fh ∉ open_fhs w →
  ∀ completed_successfully,
    ∃ w', close_files self completed_successfully w = (w', Raise RuntimeError)
      ∧ files w' = files w ∧ dirs w' = dirs w ∧ handles w' = handles w
      ∧ open_fhs w' = open_fhs w ∧ close_calls w' = close_calls w.
Proof.
  intros Hcls Hleaves Hkind Hclosed completed_successfully.
  destruct (log_call_fields (CloseFiles completed_successfully) w)
    as (w1 & Hlog & Hf1 & Hd1 & Hh1 & Ho1 & Hcc1 & Hc1).
  exists w1. split; [|done].
  assert (Hpath : _handle_to_path self fh w1 = (w1, Raise RuntimeError)).
  { unfold _handle_to_path, filepath. rewrite Hcls, Hkind.
    by rewrite bool_decide_eq_false_2 by (by rewrite Ho1). }
  assert (Hrun : OutputDriver_close_files self completed_successfully true w1
                 = (w1, Raise RuntimeError)).
  { unfold OutputDriver_close_files. unfold bind at 1, gets at 1.
    unfold bind at 1.
    by rewrite (_walk_dict_first_raises _ RuntimeError fh rest w1 Hpath)
      by (done || by rewrite Hh1). }
  unfold close_files. rewrite (bind_Ok _ _ _ _ _ Hlog), Hcls.
  by rewrite (bind_Raise _ _ _ _ _ Hrun).
Qed.

(** X17.  [close_files] cannot be called twice with success.  Under the
    conditions in which [close_files(True)] renames the files of the
    handles (a driver other than the ENVI driver, with its own handles
    at distinct existing paths [q.tmp] for outputs [q] with an accepted
    extension and no directory at [q]), a second [close_files(True)]
    raises and changes no file, since the dictionary of handles is never
    emptied.  In the NetCDF driver it raises [RuntimeError], from
    [filepath()] on the first dataset, which is closed, and calls
    [close()] on nothing.  In the other drivers it calls [close()] on
    every handle again and then raises [OSError] for the temporary path
    of the first handle, which is no longer there. *)
Theorem X17_close_files_twice self w q finals :
  own_handles self w →
  cls self ≠ ENVIBILOutputDriver →
  map fh_name (top_leaves (handles w)) = map (fun q => q +:+ ".tmp") (q :: finals) →
  NoDup (q :: finals) →
  (∀ q', q' ∈ q :: finals →
         Path.suffix q' ∈ valid_extensions (cls self)
         ∧ is_Some (files w !! (q' +:+ ".tmp")) ∧ (q' ∉ dirs w)) →
  ∃ w1 w2 e,
    close_files self true w = (w1, Ok (Some (q :: finals)))
    ∧ close_files self true w1 = (w2, Raise e)
    ∧ files w2 = files w1
    ∧ (cls self = NetCDFCFOutputDriver →
       e = RuntimeError
       ∧ close_calls w2 = close_calls w ++ map fh_id (top_leaves (handles w)))
    ∧ (cls self ≠ NetCDFCFOutputDriver →
       e = OSError (q +:+ ".tmp")
       ∧ close_calls w2
         = close_calls w ++ map fh_id (top_leaves (handles w))
                         ++ map fh_id (top_leaves (handles w))).
Proof.
  intros Hown Hbase Hpaths Hnodup Hall.
  destruct (log_call_fields (CloseFiles true) w)
    as (w0 & Hlog & Hf0 & Hd0 & Hh0 & Ho0 & Hcc0 & Hc0).
  destruct (OutputDriver_close_files_rename self w0 (q :: finals))
    as (w1 & Hclose & Hd1 & Hc1 & Hh1 & Hcc1 & Ho1 & Hin & Hout).
  { by eapply own_handles_fields. }
  { by rewrite Hh0. }
  { done. }
  { intros q' Hq'. rewrite Hf0, Hd0. destruct (Hall q' Hq') as (Hvalid & Hfile & Hdir).
    apply valid_extensions_known in Hvalid. do 2 (split; [done|]).
    split; [by apply PathFacts.valid_extension_file_name|].
    intros q''. by apply PathFacts.valid_extension_not_tmp. }
  assert (Hfirst : close_files self true w = (w1, Ok (Some (q :: finals)))).
  { unfold close_files. rewrite (bind_Ok _ _ _ _ _ Hlog).
    destruct (cls self); try done; by rewrite (bind_Ok _ _ _ _ _ Hclose). }
  destruct (top_leaves (handles w)) as [|fh rest] eqn:Hleaves; [discriminate|].
  injection Hpaths as Hname Hrest.
  assert (Hleaves1 : top_leaves (handles w1) = fh :: rest) by (by rewrite Hh1, Hh0).
  destruct Hown as [Hids Hkinds]. rewrite Hleaves in Hkinds, Hids.
  destruct (Hkinds fh (list_elem_of_here _ _)) as [Hkind _].
  destruct (decide (cls self = NetCDFCFOutputDriver)) as [Hnc|Hraster].
  - destruct (close_files_closed_dataset self w1 fh rest Hnc Hleaves1) with (completed_successfully := true)
      as (w2 & Hsecond & Hf2 & _ & _ & _ & Hcc2).
    { by rewrite Hkind, Hnc. }
    { rewrite Ho1, Hh0, Hleaves. intros [_ Hout']. apply Hout'. left. }
    exists w1, w2, RuntimeError. do 3 (split; [done|]). split; [|done].
    intros _. split; [done|]. by rewrite Hcc2, Hcc1, Hcc0, Hh0, Hleaves.
  - assert (Hown1 : own_handles self w1).
    { split; [by rewrite Hleaves1|]. rewrite Hleaves1. intros fh' Hfh'.
      destruct (Hkinds fh' Hfh') as [Hk _]. split; [done|]. rewrite Hk.
      by destruct (cls self). }
    destruct (close_files_without_file self w1 fh rest Hown1 Hbase Hleaves1)
      as (w2 & Hsecond & Hf2 & Hcc2).
    { rewrite Hname. by destruct (Hin q (list_elem_of_here _ _)). }
    rewrite Hname in Hsecond.
    exists w1, w2, (OSError (q +:+ ".tmp")). do 3 (split; [done|]). split; [done|].
    intros _. split; [done|].
    rewrite Hcc2, Hcc1, Hh1, Hcc0, Hh0, Hleaves. by rewrite <- app_assoc.
Qed.

End WithExternals.

End OutputFacts.

(** ** What stays open *)

Module OpeningFacts.
Import Py Registry Drivers DriversWalk FrameFacts DriversFacts Frames.
Local Open Scope py_scope.

Lemma opening_frame_refl w : opening_frame w w.
Proof. by repeat split. Qed.

Lemma opening_frame_trans w1 w2 w3 :
  opening_frame w1 w2 → opening_frame w2 w3 → opening_frame w1 w3.
Proof.
  intros (Hc & Hcc & Hh & Hn & Ho) (Hc' & Hcc' & Hh' & Hn' & Ho').
  split; [congruence|]. split; [congruence|]. split; [congruence|].
  split; [lia|]. intros i Hi. by apply Ho', Ho.
Qed.

Lemma keeps_opening_mkdir_parents d :
  keeps opening_frame (fun _ => True) (mkdir_parents d).
Proof.
  intros w w' r. unfold mkdir_parents.
  destruct (exists_ d w); [|destruct (existsb _ _)];
    intros [= <- <-]; (split; [|done]); by repeat split.
Qed.

Lemma keeps_opening_unlink p : keeps opening_frame (fun _ => True) (unlink p).
Proof.
  intros w w' r. unfold unlink. destruct (files w !! _);
    intros [= <- <-]; (split; [|done]); by repeat split.
Qed.

Lemma keeps_opening_write_item fh item :
  keeps opening_frame (fun _ => True) (write_item fh item).
Proof.
  intros w w' r. unfold write_item. destruct (files w !! _);
    intros [= <- <-]; (split; [|done]); by repeat split.
Qed.

Section WithExternals.
Context `{Externals}.

Lemma _prepare_output_file_keeps_opening self stat kwargs :
  keeps opening_frame (fun _ => True) (_prepare_output_file self stat kwargs).
Proof.
  pose proof opening_frame_refl as Hrefl. pose proof opening_frame_trans as Htrans.
  unfold _prepare_output_file. destruct (negb _); [by apply keeps_raise|].
  eapply (keeps_bind _ Htrans _ _ _ _);
    [apply (keeps_gets _ Hrefl (fun _ => True)); done|].
  intros there _. destruct there; [by apply keeps_raise|].
  eapply (keeps_bind _ Htrans _ _ _ _).
  { apply keeps_except_OSError_pass, keeps_opening_mkdir_parents. }
  intros _ _. eapply (keeps_bind _ Htrans _ _ _ _);
    [apply (keeps_of_option _ Hrefl (fun _ => True)); done|].
  intros tmp_path _. eapply (keeps_bind _ Htrans _ _ _ _);
    [apply (keeps_gets _ Hrefl (fun _ => True)); done|].
  intros stale _. eapply (keeps_bind _ Htrans (fun _ => True) _ _ _).
  { destruct stale; [apply keeps_opening_unlink|by apply keeps_ret]. }
  intros _ _. by apply keeps_ret.
Qed.

(** What [_create_storage_unit] leaves, however it ends: the handle it
    returns is open. *)
Lemma _create_storage_unit_opens self stat output_filename w w' r :
  _create_storage_unit self stat output_filename w = (w', r) →
  opening_frame w w' ∧ ∀ nco, r = Ok nco → fh_id nco ∈ open_fhs w'.
Proof.
  unfold _create_storage_unit, as_uri, bind, lift, _nco_from_sources, open_w,
    write_item, ret, raise.
  destruct (Path.is_absolute output_filename);
    [|intros [= <- <-]; split; [apply opening_frame_refl|done]].
  destruct (_find_source_datasets _ _ _);
    [|intros [= <- <-]; split; [apply opening_frame_refl|done]].
  destruct (_create_netcdf_var_params _ _);
    [|intros [= <- <-]; split; [apply opening_frame_refl|done]].
  destruct (netcdf_refuses _ _);
    [intros [= <- <-]; split; [apply opening_frame_refl|done]|].
  destruct (is_dir output_filename w || negb (is_dir (Path.parent output_filename) w));
    [intros [= <- <-]; split; [apply opening_frame_refl|done]|].
  cbn [fh_name files]. destruct (_ !! output_filename); intros [= <- <-].
  - split.
    + do 3 (split; [done|]). cbn. split; [lia|]. intros i Hi. set_solver.
    + intros nco [= <-]. cbn. set_solver.
  - split; [|done]. do 3 (split; [done|]). cbn. split; [lia|]. intros i Hi. set_solver.
Qed.

Lemma handles_open_dict_set k fh w :
  handles_open w → fh_id fh ∈ open_fhs w →
  handles_open (set_handles (dict_set k (Leaf fh)) w).
Proof.
  intros Hopen Hfh x Hx. cbn in Hx.
  apply top_leaves_dict_set in Hx as [->|Hx]; [done|]. by apply Hopen.
Qed.

Lemma handles_open_frame w w' :
  opening_frame w w' → handles_open w → handles_open w'.
Proof.
  intros (_ & _ & Hh & _ & Ho) Hopen fh Hfh. rewrite Hh in Hfh. by apply Ho, Hopen.
Qed.

Lemma opened_refl w : opened w w.
Proof. by repeat split. Qed.

Lemma opened_trans w1 w2 w3 : opened w1 w2 → opened w2 w3 → opened w1 w3.
Proof.
  intros (Hc & Hcc & Ho & Hh) (Hc' & Hcc' & Ho' & Hh').
  split; [congruence|]. split; [congruence|]. split; [|tauto].
  intros i Hi. by apply Ho', Ho.
Qed.

Lemma opening_frame_opened w w' : opening_frame w w' → opened w w'.
Proof.
  intros Hf. pose proof (handles_open_frame _ _ Hf) as Hopen.
  destruct Hf as (Hc & Hcc & Hh & Hn & Ho). by repeat split.
Qed.

Lemma NetCDFCF_open_product_opened self entry :
  keeps opened (fun _ => True) (NetCDFCF_open_product self entry).
Proof.
  destruct entry as [prod_name stat]. intros w w' r.
  unfold NetCDFCF_open_product. unfold bind at 1.
  destruct (_prepare_output_file self stat [] w) as [w1 [t|e]] eqn:Eprep;
    destruct (_prepare_output_file_keeps_opening _ _ _ _ _ _ Eprep) as [Hf1 _].
  2:{ intros [= <- <-]. split; [by apply opening_frame_opened|done]. }
  unfold bind.
  destruct (_create_storage_unit self stat t w1) as [w2 [nco|e]] eqn:Ecreate;
    destruct (_create_storage_unit_opens _ _ _ _ _ _ Ecreate) as [Hf2 Hnco].
  2:{ intros [= <- <-]. split; [|done].
      apply opening_frame_opened. by eapply opening_frame_trans. }
  intros [= <- <-]. split; [|done].
  pose proof (opening_frame_trans _ _ _ Hf1 Hf2) as Hf.
  pose proof (handles_open_frame _ _ Hf) as Hopen.
  destruct Hf as (Hc & Hcc & Hh & Hn & Ho). split; [done|]. split; [done|].
  split; [done|]. intros Hw. apply handles_open_dict_set; [by apply Hopen|].
  by apply Hnco.
Qed.

Lemma open_output_files_opened self :
  keeps opened (fun _ => True) (open_output_files self).
Proof.
  unfold open_output_files. destruct (cls self).
  - apply (keeps_raise opened opened_refl).
  - unfold NetCDFCF_open_output_files.
    eapply (keeps_bind opened opened_trans _ _ _ _).
    { apply (keeps_for_each opened opened_refl opened_trans).
      intros; apply NetCDFCF_open_product_opened. }
    intros; by apply (keeps_ret opened opened_refl).
  - intros w w' r. destruct (decide (_output_products self = [])) as [He|Hne].
    + rewrite Geotiff_open_output_files_nothing by done. intros [= <- <-].
      split; [apply opened_refl|done].
    + rewrite Geotiff_open_output_files_unbound by done. intros [= <- <-].
      split; [apply opened_refl|done].
  - intros w w' r. destruct (decide (_output_products self = [])) as [He|Hne].
    + rewrite Geotiff_open_output_files_nothing by done. intros [= <- <-].
      split; [apply opened_refl|done].
    + rewrite Geotiff_open_output_files_unbound by done. intros [= <- <-].
      split; [apply opened_refl|done].
  - by apply (keeps_ret opened opened_refl).
  - by apply (keeps_ret opened opened_refl).
Qed.

(** X18.  When [open_output_files] raises, the guarded block raises the
    same exception with neither the body nor [close_files] run: no call
    of [close_files] is made, [close()] is called on no handle, and
    every handle that was open is still open; if the handles of the
    dictionary were open before, so are those that are in it now, which
    for the NetCDF driver are the files of the products before the one
    that failed. *)
Theorem X18_failed_enter_skips_close_files {A} self (body : Driver → M A) w w1 e :
  open_output_files self w = (w1, Raise e) →
  with_block self body w = (w1, Raise e)
  ∧ calls w1 = calls w
  ∧ close_calls w1 = close_calls w
  ∧ (∀ i, i ∈ open_fhs w → i ∈ open_fhs w1)
  ∧ ((∀ fh, fh ∈ top_leaves (handles w) → fh_id fh ∈ open_fhs w) →
     ∀ fh, fh ∈ top_leaves (handles w1) → fh_id fh ∈ open_fhs w1).
Proof.
  intros Hopen. split.
  - unfold with_block, __enter__. by rewrite (bind_Raise _ _ _ _ _ Hopen).
  - by destruct (open_output_files_opened self _ _ _ Hopen) as [(? & ? & ? & ?) _].
Qed.

(** *** What [close_files] closes, however it ends *)

Lemma closing_frame_refl w : closing_frame w w.
Proof. done. Qed.

Lemma closing_frame_trans w1 w2 w3 :
  closing_frame w1 w2 → closing_frame w2 w3 → closing_frame w1 w3.
Proof. intros [Ho Hc] [Ho' Hc']. split; congruence. Qed.

Lemma keeps_closing_rename p target : keeps closing_frame (fun _ => True) (rename p target).
Proof.
  intros w w' r. unfold rename.
  destruct (files w !! _); [destruct (_ || _ || _)|]; by intros [= <- <-].
Qed.

Lemma keeps_closing_unlink p : keeps closing_frame (fun _ => True) (unlink p).
Proof.
  intros w w' r. unfold unlink. destruct (files w !! _); by intros [= <- <-].
Qed.

Lemma keeps_closing_set_files f : keeps closing_frame (fun _ => True) (modify (set_files f)).
Proof. by apply keeps_modify. Qed.

Lemma _tif_to_envi_keeps_closing source_file :
  keeps closing_frame (fun _ => True) (_tif_to_envi source_file).
Proof.
  pose proof closing_frame_refl as Hrefl. pose proof closing_frame_trans as Htrans.
  unfold _tif_to_envi.
  eapply (keeps_bind _ Htrans _ _ _ _);
    [apply (keeps_of_option _ Hrefl (fun _ => True)); done|].
  intros dest_file _. eapply (keeps_bind _ Htrans _ _ _ _);
    [apply (keeps_of_option _ Hrefl (fun _ => True)); done|].
  intros tmp_tif _. eapply (keeps_bind _ Htrans _ _ _ _); [apply keeps_closing_rename|].
  intros _ _. eapply (keeps_bind _ Htrans _ _ _ _);
    [apply (keeps_gets _ Hrefl (fun _ => True)); done|].
  intros src _. eapply (keeps_bind _ Htrans _ _ _ _);
    [apply (keeps_gets _ Hrefl (fun _ => True)); done|].
  intros blocked _. destruct (if blocked then None else src ≫= gdal_translate).
  - eapply (keeps_bind _ Htrans _ _ _ _); [apply keeps_closing_set_files|].
    intros _ _. apply keeps_closing_unlink.
  - by apply keeps_ret.
Qed.

(** The handles on which [close_files] calls [close()]: those at the
    top of the dictionary, in their order, up to the first one whose
    path or whose [close()] raises. *)
Lemma OutputDriver_close_files_closes self completed_successfully rename_tmps w w' r :
  OutputDriver_close_files self completed_successfully rename_tmps w = (w', r) →
  ∃ n, closing_frame (close_all (take n (top_leaves (handles w))) w) w'
       ∧ (own_handles self w → take n (top_leaves (handles w)) = top_leaves (handles w)).
Proof.
  unfold OutputDriver_close_files. unfold bind at 1, gets at 1. unfold bind at 1.
  destruct (_walk_dict (_handle_to_path self) (Dict (handles w)) w)
    as [wa [paths|e]] eqn:Epaths;
    pose proof (_walk_dict_paths_world _ _ _ _ _ Epaths) as ->.
  2:{ intros [= <- <-]. exists 0%nat. split; [done|].
      intros [_ Hown]. rewrite _walk_dict_paths in Epaths by done. discriminate. }
  unfold bind at 1, gets at 1. unfold bind at 1.
  destruct (_walk_dict close (Dict (handles w)) w) as [wb [closed|e]] eqn:Eclose;
    destruct (_walk_dict_close_prefix _ _ _ _ Eclose) as (n & -> & Hall).
  2:{ intros [= <- <-]. exists n. split; [done|].
      intros [Hnodup Hown]. rewrite _walk_dict_close in Eclose; [discriminate|done|].
      intros fh Hfh. by apply Hown. }
  intros Hrun. exists n. split; [|intros _; by apply Hall].
  revert Hrun. destruct (_ && _).
  - intros Hrun.
    eapply (keeps_for_each closing_frame closing_frame_refl closing_frame_trans); [|done].
    intros; apply keeps_closing_rename.
  - by intros [= <- <-].
Qed.

Lemma close_files_closes self completed_successfully w w' r :
  close_files self completed_successfully w = (w', r) →
  ∃ n,
    (close_calls w' = close_calls w ++ map fh_id (take n (top_leaves (handles w)))
     ∧ ∀ i, i ∈ open_fhs w'
            ↔ i ∈ open_fhs w ∧ i ∉ map fh_id (take n (top_leaves (handles w))))
    ∧ (own_handles self w → take n (top_leaves (handles w)) = top_leaves (handles w)).
Proof.
  destruct (log_call_fields (CloseFiles completed_successfully) w)
    as (w0 & Hlog & Hf0 & Hd0 & Hh0 & Ho0 & Hcc0 & Hc0).
  unfold close_files. rewrite (bind_Ok _ _ _ _ _ Hlog). intros Hrun.
  assert (Hframe : ∃ n, closing_frame (close_all (take n (top_leaves (handles w0))) w0) w'
                        ∧ (own_handles self w0
                           → take n (top_leaves (handles w0)) = top_leaves (handles w0))).
  { assert (Hbase : ∀ w'' r', (let! paths := OutputDriver_close_files self completed_successfully true
                               in ret (Some paths)) w0 = (w'', r') →
                      ∃ n, closing_frame (close_all (take n (top_leaves (handles w0))) w0) w''
                           ∧ (own_handles self w0
                              → take n (top_leaves (handles w0)) = top_leaves (handles w0))).
    { intros w'' r'. unfold bind.
      destruct (OutputDriver_close_files _ _ _ w0) as [w1 [paths|e]] eqn:E;
        intros [= <- <-]; by eapply OutputDriver_close_files_closes. }
    destruct (cls self); try by eapply Hbase.
    revert Hrun. unfold ENVIBIL_close_files. unfold bind at 1. unfold bind at 1.
    destruct (OutputDriver_close_files _ _ _ w0) as [w1 [paths|e]] eqn:E;
      apply OutputDriver_close_files_closes in E as (n & E & Hall).
    2:{ intros [= <- <-]. by exists n. }
    destruct completed_successfully.
    - unfold bind.
      destruct (for_each _tif_to_envi paths w1) as [w2 [converted|e]] eqn:E2;
        intros [= <- <-]; exists n; (split; [|done]);
        (eapply closing_frame_trans; [exact E|]);
        (eapply (keeps_for_each closing_frame closing_frame_refl closing_frame_trans);
         [|exact E2]); intros; apply _tif_to_envi_keeps_closing.
    - intros [= <- <-]. by exists n. }
  destruct Hframe as (n & [Ho' Hcc'] & Hall). exists n.
  destruct (close_all_fields (take n (top_leaves (handles w0))) w0)
    as (Hf & Hd & Hc & Hh & Hn & Hcc & Ho).
  split.
  - rewrite Hcc', Hcc, Hcc0, Hh0. split; [done|].
    intros i. by rewrite Ho', Ho, Ho0, Hh0.
  - intros Hown. rewrite <- Hh0. apply Hall. by eapply own_handles_fields.
Qed.

(** *** One file per measurement *)

Lemma _get_nodata_keeps R self prod_name measurement_name :
  (∀ w, R w w) → (∀ w1 w2 w3, R w1 w2 → R w2 w3 → R w1 w3) →
  keeps R (fun _ => True) (_get_nodata self prod_name measurement_name).
Proof.
  intros Hrefl Htrans. unfold _get_nodata.
  eapply (keeps_bind R Htrans _ _ _ _); [by apply _get_dtype_keeps|].
  intros dtype _. eapply (keeps_bind R Htrans (fun _ => True) _ _ _).
  - destruct (truthy measurement_name).
    + eapply (keeps_bind R Htrans _ _ _ _); [by apply product_measurements_keeps|].
      intros ms _. destruct (_ ≫= _); [by apply keeps_ret|by apply keeps_raise].
    + eapply (keeps_bind R Htrans _ _ _ _); [by apply product_measurements_keeps|].
      intros ms _. destruct (distinct _) as [|d [|]];
        [by apply keeps_raise|by apply keeps_ret|by apply keeps_raise].
  - intros nodata _. destruct (_ && _); by apply keeps_ret.
Qed.

Lemma _open_geotiff_opens self prod_name measurement_name output_filename num_bands w w' r :
  _open_geotiff self prod_name measurement_name output_filename num_bands w = (w', r) →
  opening_frame w w'
  ∧ ∀ fh, r = Ok fh → fh_id fh = next_fh w ∧ fh_id fh ∈ open_fhs w'.
Proof.
  unfold _open_geotiff. unfold bind at 1.
  destruct (_get_dtype _ _ _ w) as [wa [d|e]] eqn:Ed;
    destruct (_get_dtype_keeps (fun w w' => w' = w) self prod_name measurement_name
                (fun _ => eq_refl) ltac:(congruence) _ _ _ Ed) as [-> _].
  2:{ intros [= <- <-]. split; [apply opening_frame_refl|done]. }
  unfold bind at 1.
  destruct (_get_nodata _ _ _ w) as [wa [n|e]] eqn:En;
    destruct (_get_nodata_keeps (fun w w' => w' = w) self prod_name measurement_name
                (fun _ => eq_refl) ltac:(congruence) _ _ _ En) as [-> _].
  2:{ intros [= <- <-]. split; [apply opening_frame_refl|done]. }
  unfold bind at 1.
  destruct (block_size self "x" "longitude" w) as [wa [x_block_size|e]] eqn:Ex;
    pose proof (GeotiffFacts.block_size_keeps self "x" "longitude" w) as Hx;
    rewrite Ex in Hx; cbn [fst] in Hx; subst wa.
  2:{ intros [= <- <-]. split; [apply opening_frame_refl|done]. }
  unfold bind at 1.
  destruct (block_size self "y" "latitude" w) as [wa [y_block_size|e]] eqn:Ey;
    pose proof (GeotiffFacts.block_size_keeps self "y" "latitude" w) as Hy;
    rewrite Ey in Hy; cbn [fst] in Hy; subst wa.
  2:{ intros [= <- <-]. split; [apply opening_frame_refl|done]. }
  unfold rasterio_open, bind, open_w, write_item, ret, raise.
  destruct (rasterio_refuses _);
    [intros [= <- <-]; split; [apply opening_frame_refl|done]|].
  destruct (is_dir output_filename w || negb (is_dir (Path.parent output_filename) w));
    [intros [= <- <-]; split; [apply opening_frame_refl|done]|].
  cbn [fh_name files]. destruct (_ !! output_filename); intros [= <- <-].
  - split.
    + do 3 (split; [done|]). cbn. split; [lia|]. intros i Hi. set_solver.
    + intros fh [= <-]. cbn. split; [done|]. set_solver.
  - split; [|done]. do 3 (split; [done|]). cbn. split; [lia|]. intros i Hi. set_solver.
Qed.

Lemma _set_band_metadata_keeps_opening self dest_fh measurement_name band :
  keeps opening_frame (fun _ => True) (_set_band_metadata self dest_fh measurement_name band).
Proof.
  pose proof opening_frame_trans as Htrans.
  unfold _set_band_metadata. destruct (time_period (_task self)) as [start_date end_date].
  do 3 (eapply (keeps_bind _ Htrans _ _ _ _); [apply keeps_opening_write_item|]; intros _ _).
  apply keeps_opening_write_item.
Qed.

Lemma top_leaves_dict_set_Dict k sub items x :
  x ∈ top_leaves (dict_set k (Dict sub) items) → x ∈ top_leaves items.
Proof.
  induction items as [|[k' [fh'|sub']] rest IH]; cbn [dict_set top_leaves].
  - done.
  - destruct (String.eqb k k'); cbn [top_leaves]; rewrite ?elem_of_cons; tauto.
  - destruct (String.eqb k k'); cbn [top_leaves]; rewrite ?elem_of_cons; tauto.
Qed.

(** X19.  However [close_files] ends, it has called [close()] on
    handles at the top of the dictionary only, in their order from the
    first one on and up to one of them, and the handles that are open
    afterwards are those that were open and are not among them.  For a
    driver whose handles at the top of the dictionary are its own
    (distinct, of the class that the driver opens, netCDF datasets
    open), it has called [close()] once on each of them, also when a
    rename or the conversion of the ENVI driver fails: no handle at the
    top of the dictionary is left open. *)
Theorem X19_close_files_closes_first self completed_successfully w w' r :
  close_files self completed_successfully w = (w', r) →
  (∃ n, close_calls w' = close_calls w ++ map fh_id (take n (top_leaves (handles w)))
        ∧ (∀ i, i ∈ open_fhs w'
                ↔ i ∈ open_fhs w ∧ i ∉ map fh_id (take n (top_leaves (handles w)))))
  ∧ (own_handles self w →
     close_calls w' = close_calls w ++ map fh_id (top_leaves (handles w))
     ∧ (∀ i, i ∈ open_fhs w' ↔ i ∈ open_fhs w ∧ i ∉ map fh_id (top_leaves (handles w)))
     ∧ (∀ fh, fh ∈ top_leaves (handles w) → fh_id fh ∉ open_fhs w')).
Proof.
  intros Hrun. destruct (close_files_closes _ _ _ _ _ Hrun) as (n & [Hcalls Hopen] & Hall).
  split; [by exists n|]. intros Hown. rewrite (Hall Hown) in Hcalls, Hopen.
  split; [done|]. split; [done|].
  intros fh Hfh [_ Hout]%Hopen. apply Hout.
  apply list_elem_of_fmap. by exists fh.
Qed.

(** X20.  The file that [_open_single_band_geotiff] opens is never
    closed by [close_files]: when the method returns, its handle is
    stored under the measurement name in a dictionary under the product
    name, and is open; and however a call of [close_files] then ends,
    with either flag, the handle is still open and [close()] has not
    been called on it.  The ids of the handles in the dictionary are
    taken to be ids that have been given out. *)
Theorem X20_single_band_file_is_never_closed self prod_name stat measurement_name w w1 :
  _open_single_band_geotiff self prod_name stat measurement_name w = (w1, Ok tt) →
  (∀ fh, fh ∈ top_leaves (handles w) → (fh_id fh < next_fh w)%nat) →
  ∃ dest_fh sub,
    dict_get prod_name (handles w1) = Some (Dict sub)
    ∧ dict_get measurement_name sub = Some (Leaf dest_fh)
    ∧ fh_id dest_fh ∈ open_fhs w1
    ∧ ∀ completed_successfully w2 r,
        close_files self completed_successfully w1 = (w2, r) →
        fh_id dest_fh ∈ open_fhs w2
        ∧ (fh_id dest_fh ∉ close_calls w1 → fh_id dest_fh ∉ close_calls w2).
Proof.
  unfold _open_single_band_geotiff. unfold bind at 1.
  destruct (_prepare_output_file _ _ _ w) as [wa [t|e]] eqn:Eprep; [|discriminate].
  destruct (_prepare_output_file_keeps_opening _ _ _ _ _ _ Eprep) as [Hfa _].
  unfold bind at 1.
  destruct (_open_geotiff _ _ _ _ _ wa) as [wb [dest_fh|e]] eqn:Eopen; [|discriminate].
  destruct (_open_geotiff_opens _ _ _ _ _ _ _ _ Eopen) as [Hfb Hfh].
  destruct (Hfh dest_fh eq_refl) as [Hid Hopen].
  unfold bind at 1.
  destruct (_set_band_metadata _ _ _ _ wb) as [wc [[]|e]] eqn:Emeta; [|discriminate].
  destruct (_set_band_metadata_keeps_opening _ _ _ _ _ _ _ Emeta) as [Hfc _].
  pose proof (opening_frame_trans _ _ _ Hfa Hfb) as Hab.
  pose proof (opening_frame_trans _ _ _ Hab Hfc) as Hac.
  destruct Hac as (_ & _ & Hh & _ & _).
  destruct Hfa as (_ & _ & _ & Hna & _). destruct Hfc as (_ & _ & _ & _ & Hoc).
  unfold bind, gets. intros Hset Hids.
  assert (Hfresh : ∀ sub n,
            fh_id dest_fh
            ∉ map fh_id (take n (top_leaves (dict_set prod_name (Dict sub) (handles wc))))).
  { intros sub n (fh & Heq & Hin)%list_elem_of_fmap.
    apply (subseteq_take n), top_leaves_dict_set_Dict in Hin.
    rewrite Hh in Hin. apply Hids in Hin. lia. }
  assert (Hgoal : ∀ sub,
            w1 = set_handles (dict_set prod_name (Dict sub)) wc →
            dict_get measurement_name sub = Some (Leaf dest_fh) →
            ∃ dest_fh sub,
              dict_get prod_name (handles w1) = Some (Dict sub)
              ∧ dict_get measurement_name sub = Some (Leaf dest_fh)
              ∧ fh_id dest_fh ∈ open_fhs w1
              ∧ ∀ completed_successfully w2 r,
                  close_files self completed_successfully w1 = (w2, r) →
                  fh_id dest_fh ∈ open_fhs w2
                  ∧ (fh_id dest_fh ∉ close_calls w1 → fh_id dest_fh ∉ close_calls w2)).
  { intros sub -> Hsub. exists dest_fh, sub. cbn [set_handles handles open_fhs close_calls].
    split; [apply DictFacts.dict_get_set_eq|]. split; [done|]. split; [by apply Hoc|].
    intros flag w2 r Hclose. apply close_files_closes in Hclose as (n & [Hcc Ho] & _).
    cbn [set_handles handles open_fhs close_calls] in Hcc, Ho. split.
    - apply Ho. split; [by apply Hoc|apply Hfresh].
    - intros Hnot. rewrite Hcc. rewrite elem_of_app. intros [?|?]; [done|].
      by eapply Hfresh. }
  destruct (dict_get prod_name (handles wc)) as [[fh|sub]|] eqn:Eprod.
  - discriminate.
  - injection Hset as <-. eapply Hgoal; [done|]. apply DictFacts.dict_get_set_eq.
  - injection Hset as <-. eapply Hgoal; [done|]. cbn. by rewrite String.eqb_refl.
Qed.

End WithExternals.

End OpeningFacts.

(** ** Writing *)

Module WritingFacts.
Import Py Registry Drivers DriversWalk FrameFacts DriversFacts Frames.
Local Open Scope py_scope.

Lemma appends_only_refl w : appends_only w w.
Proof.
  do 5 (split; [done|]). intros p. destruct (files w !! p) as [c|]; [|done].
  exists []. by rewrite app_nil_r.
Qed.

Lemma appends_only_trans w1 w2 w3 :
  appends_only w1 w2 → appends_only w2 w3 → appends_only w1 w3.
Proof.
  intros (Hd & Ho & Hcc & Hh & Hc & Hf) (Hd' & Ho' & Hcc' & Hh' & Hc' & Hf').
  do 5 (split; [congruence|]). intros p. specialize (Hf p). specialize (Hf' p).
  destruct (files w1 !! p) as [c|].
  - destruct Hf as [more Hf]. rewrite Hf in Hf'. destruct Hf' as [more' Hf'].
    exists (more ++ more'). by rewrite app_assoc.
  - by rewrite Hf in Hf'.
Qed.

Lemma keeps_appends_write_item fh item :
  keeps appends_only (fun _ => True) (write_item fh item).
Proof.
  intros w w' r. unfold write_item. destruct (files w !! fh_name fh) as [c|] eqn:E;
    intros [= <- <-]; (split; [|done]); [|apply appends_only_refl].
  do 5 (split; [done|]). intros p. cbn [set_files files].
  destruct (decide (p = fh_name fh)) as [->|Hne].
  - rewrite E, lookup_insert_eq. by exists [item].
  - rewrite lookup_insert_ne by done. destruct (files w !! p) as [c'|]; [|done].
    exists []. by rewrite app_nil_r.
Qed.

Section WithExternals.
Context `{Externals}.

Lemma write_data_keeps (R : World → World → Prop) self prod_name measurement_name
    tile_index values :
  (∀ w, R w w) → (∀ w1 w2 w3, R w1 w2 → R w2 w3 → R w1 w3) →
  (∀ fh item, keeps R (fun _ => True) (write_item fh item)) →
  keeps R (fun _ => True) (write_data self prod_name measurement_name tile_index values).
Proof.
  intros Hrefl Htrans Hwrite.
  assert (Hbase : keeps R (fun _ => True) (OutputDriver_write_data self)).
  { unfold OutputDriver_write_data.
    eapply (keeps_bind _ Htrans _ _ _ _);
      [apply (keeps_gets _ Hrefl (fun _ => True)); done|].
    intros hs _. destruct (_ <=? _)%nat; [by apply keeps_raise|by apply keeps_ret]. }
  assert (Hgeotiff : keeps R (fun _ => True)
            (Geotiff_write_data self prod_name measurement_name tile_index values)).
  { unfold Geotiff_write_data.
    eapply (keeps_bind _ Htrans _ _ _ _); [apply Hbase|]. intros _ _.
    eapply (keeps_bind _ Htrans _ _ _ _);
      [apply (keeps_gets _ Hrefl (fun _ => True)); done|]. intros hs _.
    eapply (keeps_bind _ Htrans _ _ _ _);
      [apply (keeps_of_option _ Hrefl (fun _ => True)); done|]. intros prod _.
    eapply (keeps_bind _ Htrans (fun _ => True) _ _ _).
    { destruct prod as [fh|sub].
      - eapply (keeps_bind _ Htrans _ _ _ _); [by apply product_measurements_keeps|].
        intros ms _. eapply (keeps_bind _ Htrans _ _ _ _);
          [apply (keeps_of_option _ Hrefl (fun _ => True)); done|].
        intros i _. by apply keeps_ret.
      - eapply (keeps_bind _ Htrans _ _ _ _);
          [apply (keeps_of_option _ Hrefl (fun _ => True)); done|].
        intros output_fh _. by apply keeps_ret. }
    intros target _. destruct tile_index as [|t [|y [|x [|]]]]; try by apply keeps_raise.
    eapply (keeps_bind _ Htrans _ _ _ _); [by apply _get_dtype_keeps|].
    intros dtype _. destruct (fst target); [apply Hwrite|by apply keeps_raise]. }
  unfold write_data. destruct (cls self); try done; try by apply keeps_ret.
  unfold NetCDFCF_write_data.
  eapply (keeps_bind _ Htrans _ _ _ _);
    [apply (keeps_gets _ Hrefl (fun _ => True)); done|].
  intros hs _. destruct (dict_get prod_name hs) as [[nco|sub]|].
  - destruct (bool_decide _); [apply Hwrite|by apply keeps_raise].
  - destruct (dict_get _ sub); by apply keeps_raise.
  - by apply keeps_raise.
Qed.

(** X21.  [write_data] of every driver, however it ends, creates no
    file and removes none: the paths at which there is a file are the
    same, and the directories, the open handles, the dictionary of
    handles and the calls of [close()] and [close_files] are as before. *)
Theorem X21_write_data_keeps_the_files self prod_name measurement_name tile_index values w w' r :
  write_data self prod_name measurement_name tile_index values w = (w', r) →
  dirs w' = dirs w ∧ open_fhs w' = open_fhs w ∧ close_calls w' = close_calls w
  ∧ handles w' = handles w ∧ calls w' = calls w
  ∧ ∀ p, is_Some (files w' !! p) ↔ is_Some (files w !! p).
Proof.
  intros Hrun.
  destruct (write_data_keeps appends_only self prod_name measurement_name tile_index
              values appends_only_refl appends_only_trans keeps_appends_write_item
              _ _ _ Hrun) as [(Hd & Ho & Hcc & Hh & Hc & Hf) _].
  do 5 (split; [done|]). intros p. specialize (Hf p).
  destruct (files w !! p) as [c|].
  - destruct Hf as [more ->]. by split.
  - by rewrite Hf.
Qed.



End WithExternals.

End WritingFacts.

(** ** From opening to closing *)

Module RoundTrip.
Import Py Registry Drivers DriversWalk FrameFacts DriversFacts.
Local Open Scope py_scope.

Lemma parent_tmp (p : string) : Path.parent (p +:+ ".tmp") = Path.parent p.
Proof.
  unfold Path.parent. rewrite PathFacts.rsplit_append_free by done.
  by destruct (PyStr.rsplit Path.slash p) as [[d n]|].
Qed.

Lemma exists_false_at p w :
  PathFacts.file_name p → files w !! p = None → p ∉ dirs w → exists_ p w = false.
Proof.
  intros Hp Hfile Hdir. unfold exists_. rewrite (is_dir_false p w Hp Hdir), Hfile.
  rewrite bool_decide_eq_false_2; [done|]. by intros [? ?].
Qed.

Section WithExternals.
Context `{Externals}.

Lemma NetCDFCF_open_product_run self prod_name stat datasets variable_params w :
  cls self = NetCDFCFOutputDriver →
  Path.suffix (_generate_output_filename self [] stat) = ".nc" →
  Path.is_absolute (_generate_output_filename self [] stat) = true →
  exists_ (_generate_output_filename self [] stat) w = false →
  Path.parent (_generate_output_filename self [] stat) ∈ dirs w →
  _generate_output_filename self [] stat +:+ ".tmp" ∉ dirs w →
  _find_source_datasets self stat
    ("file://" +:+ (_generate_output_filename self [] stat +:+ ".tmp")) = Ok datasets →
  _create_netcdf_var_params self stat = Ok variable_params →
  netcdf_refuses (measurements stat) variable_params = None →
  ∃ w',
    NetCDFCF_open_product self (prod_name, stat) w = (w', Ok tt)
    ∧ dirs w' = dirs w ∧ calls w' = calls w ∧ close_calls w' = close_calls w
    ∧ next_fh w' = S (next_fh w) ∧ open_fhs w' = {[next_fh w]} ∪ open_fhs w
    ∧ files w' = <[_generate_output_filename self [] stat +:+ ".tmp"
                   := [Data "dataset" 0 [] datasets]]> (files w)
    ∧ handles w'
      = dict_set prod_name
          (Leaf (mkHandle (next_fh w) Dataset
                          (_generate_output_filename self [] stat +:+ ".tmp")
                          (map fst (measurements stat) ++ ["dataset"]) 0))
          (handles w).
Proof.
  set (p := _generate_output_filename self [] stat).
  intros Hcls Hsuffix Habs Hnew Hparent Htmp Hsources Hparams Hlib.
  assert (Hvalid : Path.suffix p ∈ valid_extensions (cls self)).
  { rewrite Hcls, Hsuffix. left. }
  destruct (_prepare_output_file_new self stat [] w Hvalid Hnew) as (w1 & Hmk & Hprep).
  destruct (mkdir_parents_pass (Path.parent p) w)
    as (w1' & Hmk' & _ & _ & _ & _ & _ & _ & _ & Hsame).
  fold p in Hmk, Hprep. rewrite Hmk in Hmk'. injection Hmk' as <-.
  rewrite (Hsame Hparent) in Hprep. clear Hmk Hsame w1.
  assert (Habs' : Path.is_absolute (p +:+ ".tmp") = true).
  { destruct p as [|c p']; [done|]. done. }
  assert (Hcreate : ∀ w0, dirs w0 = dirs w →
            _create_storage_unit self stat (p +:+ ".tmp") w0
            = (mkWorld (<[p +:+ ".tmp" := [Data "dataset" 0 [] datasets]]> (files w0))
                       (dirs w0) ({[next_fh w0]} ∪ open_fhs w0) (close_calls w0)
                       (S (next_fh w0)) (calls w0) (handles w0),
               Ok (mkHandle (next_fh w0) Dataset (p +:+ ".tmp")
                            (map fst (measurements stat) ++ ["dataset"]) 0))).
  { intros w0 Hd0. unfold _create_storage_unit, as_uri. rewrite Habs'.
    unfold bind, ret, lift, _nco_from_sources. rewrite Hsources, Hparams, Hlib.
    unfold open_w, write_item.
    rewrite (is_dir_false (p +:+ ".tmp") w0 (PathFacts.file_name_tmp p))
      by (by rewrite Hd0).
    rewrite parent_tmp, (is_dir_true (Path.parent p) w0) by (by rewrite Hd0).
    cbn [negb orb fh_name files].
    rewrite lookup_insert_eq. cbn [set_files files dirs open_fhs close_calls next_fh calls
      handles fh_id fh_kind fh_name fh_variables fh_count app].
    unfold set_files. cbn [files dirs open_fhs close_calls next_fh calls handles].
    by rewrite insert_insert_eq. }
  unfold NetCDFCF_open_product.
  destruct (files w !! (p +:+ ".tmp")) as [stale|] eqn:Estale.
  - rewrite (bind_Ok _ _ _ _ _ Hprep). cbn beta.
    rewrite (bind_Ok _ _ _ _ _ (Hcreate (set_files (delete (p +:+ ".tmp")) w) eq_refl)).
    eexists. split; [reflexivity|]. cbn. do 5 (split; [done|]).
    split; [by rewrite insert_delete_eq|done].
  - rewrite bool_decide_eq_false_2 in Hprep by done.
    rewrite (bind_Ok _ _ _ _ _ Hprep). cbn beta.
    rewrite (bind_Ok _ _ _ _ _ (Hcreate w eq_refl)).
    eexists. split; [reflexivity|]. cbn. by do 6 (split; [done|]).
Qed.

Lemma top_leaves_dict_set_new k fh items :
  k ∉ map fst items →
  top_leaves (dict_set k (Leaf fh) items) = top_leaves items ++ [fh]
  ∧ map fst (dict_set k (Leaf fh) items) = map fst items ++ [k].
Proof.
  induction items as [|[k' v] rest IH]; cbn [dict_set top_leaves map fst]; [done|].
  intros [Hne Hrest]%not_elem_of_cons. destruct (IH Hrest) as [IH1 IH2].
  rewrite (proj2 (String.eqb_neq k k') Hne).
  cbn [top_leaves map fst]. rewrite IH2. split; [|done].
  destruct v; cbn [top_leaves]; by rewrite IH1.
Qed.

Lemma NetCDFCF_open_loop_run self products :
  cls self = NetCDFCFOutputDriver →
  ∀ w,
    NoDup (map fst products) →
    NoDup (map (fun e => _generate_output_filename self [] (snd e)) products) →
    (∀ e, e ∈ products → fst e ∉ map fst (handles w)) →
    own_handles self w →
    (∀ fh, fh ∈ top_leaves (handles w) → (fh_id fh < next_fh w)%nat) →
    (∀ e, e ∈ products →
          Path.suffix (_generate_output_filename self [] (snd e)) = ".nc"
          ∧ Path.is_absolute (_generate_output_filename self [] (snd e)) = true
          ∧ exists_ (_generate_output_filename self [] (snd e)) w = false
          ∧ Path.parent (_generate_output_filename self [] (snd e)) ∈ dirs w
          ∧ (_generate_output_filename self [] (snd e) +:+ ".tmp" ∉ dirs w)
          ∧ ∃ datasets variable_params,
              _find_source_datasets self (snd e)
                ("file://" +:+ (_generate_output_filename self [] (snd e) +:+ ".tmp"))
              = Ok datasets
              ∧ _create_netcdf_var_params self (snd e) = Ok variable_params
              ∧ netcdf_refuses (measurements (snd e)) variable_params = None) →
    ∃ w' opened,
      for_each (NetCDFCF_open_product self) products w = (w', Ok opened)
      ∧ dirs w' = dirs w
      ∧ own_handles self w'
      ∧ map fh_name (top_leaves (handles w'))
        = map fh_name (top_leaves (handles w))
          ++ map (fun e => _generate_output_filename self [] (snd e) +:+ ".tmp") products
      ∧ (∀ e, e ∈ products →
              is_Some (files w' !! (_generate_output_filename self [] (snd e) +:+ ".tmp")))
      ∧ (∀ x, x ∉ map (fun e => _generate_output_filename self [] (snd e) +:+ ".tmp") products →
              files w' !! x = files w !! x).
Proof.
  intros Hcls. induction products as [|[prod_name stat] rest IH];
    intros w Hnames Houts Hkeys Hown Hids Hall; cbn [for_each map].
  - exists w, []. split; [done|]. split; [done|]. split; [done|].
    split; [by rewrite app_nil_r|]. split; [|done]. by intros e ?%elem_of_nil.
  - cbn [map fst snd] in Hnames, Houts.
    apply NoDup_cons in Hnames as [Hname Hnames]. apply NoDup_cons in Houts as [Hout Houts].
    destruct (Hall (prod_name, stat) (list_elem_of_here _ _))
      as (Hsuf & Habs & Hnew & Hparent & Htmp & datasets & variable_params
          & Hsources & Hparams & Hlib).
    cbn [snd] in *.
    destruct (NetCDFCF_open_product_run self prod_name stat datasets variable_params w
                Hcls Hsuf Habs Hnew Hparent Htmp Hsources Hparams Hlib)
      as (w1 & Hrun & Hd1 & _ & _ & Hn1 & Ho1 & Hf1 & Hh1).
    destruct (top_leaves_dict_set_new prod_name
                (mkHandle (next_fh w) Dataset
                   (_generate_output_filename self [] stat +:+ ".tmp")
                   (map fst (measurements stat) ++ ["dataset"]) 0) (handles w))
      as [Hleaves Hkeys1].
    { apply (Hkeys (prod_name, stat)). left. }
    rewrite <- Hh1 in Hleaves, Hkeys1.
    destruct Hown as [Hnodup Hkinds].
    destruct (IH w1 Hnames Houts) as (w' & opened & Hfor & Hd & Hown' & Hn & Hin & Hother).
    { intros e He. rewrite Hkeys1. rewrite elem_of_app, list_elem_of_singleton.
      intros [Hk|Hk].
      - by apply (Hkeys e (list_elem_of_further _ _ _ He)).
      - apply Hname. rewrite <- Hk. apply list_elem_of_fmap. by exists e. }
    { split.
      - rewrite Hleaves, map_app. cbn [map fh_id]. apply NoDup_app.
        split; [done|]. split; [|apply NoDup_singleton].
        intros i (fh & Hi & Hfh)%list_elem_of_fmap Hnew'%list_elem_of_singleton.
        apply Hids in Hfh. cbn [fh_id] in Hnew'. lia.
      - rewrite Hleaves. intros fh [Hfh| ->%list_elem_of_singleton]%elem_of_app.
        + destruct (Hkinds fh Hfh) as [Hkind Hopen]. split; [done|].
          intros Hd'. rewrite Ho1. apply elem_of_union_r. by apply Hopen.
        + cbn [fh_kind fh_id]. rewrite Hcls. split; [done|]. intros _.
          rewrite Ho1. apply elem_of_union_l. by apply elem_of_singleton. }
    { rewrite Hleaves, Hn1. intros fh [Hfh| ->%list_elem_of_singleton]%elem_of_app.
      - apply Hids in Hfh. lia.
      - cbn [fh_id]. lia. }
    { intros e He. destruct (Hall e (list_elem_of_further _ _ _ He))
        as (Hsuf' & Habs' & Hnew' & Hparent' & Htmp' & Hext').
      rewrite Hd1. do 2 (split; [done|]). split; [|done].
      apply exists_false in Hnew' as [Hfile Hdir]. apply exists_false_at.
      + apply PathFacts.valid_extension_file_name. rewrite Hsuf'. left.
      + rewrite Hf1, lookup_insert_ne; [done|].
        apply not_eq_sym, PathFacts.valid_extension_not_tmp. rewrite Hsuf'. left.
      + by rewrite Hd1. }
    exists w', (tt :: opened).
    rewrite (bind_Ok _ _ _ _ _ Hrun), (bind_Ok _ _ _ _ _ Hfor).
    split; [done|]. split; [congruence|]. split; [done|]. split; [|split].
    + rewrite Hn, Hleaves, map_app. cbn [map fh_name]. by rewrite <- app_assoc.
    + intros e [->|He]%elem_of_cons; [|by apply Hin]. cbn [snd].
      rewrite Hother, Hf1; [by rewrite lookup_insert_eq|].
      intros (e' & Heq%PathFacts.append_inj_l & He')%list_elem_of_fmap.
      apply Hout. rewrite Heq. apply list_elem_of_fmap. by exists e'.
    + intros x [Hx1 Hx2]%not_elem_of_cons. rewrite (Hother x Hx2), Hf1.
      by rewrite lookup_insert_ne.
Qed.

(** X23.  The NetCDF driver, from opening to closing.  For a new
    driver whose products have different names and different absolute
    output paths ending in ['.nc'], none of which exists, in
    directories that exist and with no directory at the temporary path,
    and for each of which the source datasets are found, the parameters
    of the variables are made and the netCDF library accepts them:
    [open_output_files] returns; and when the
    body of the guarded block returns, having closed no handle, changed
    neither the directories nor the dictionary of handles and left the
    temporary file of each product in place, the block returns what the
    body returned, every handle is closed, no temporary file is left,
    and the output of each product holds what its temporary file held
    when the body returned. *)
Theorem X23_netcdf_round_trip {A} self (body : Driver → M A) w :
  cls self = NetCDFCFOutputDriver →
  handles w = [] →
  NoDup (map fst (_output_products self)) →
  NoDup (map (fun e => _generate_output_filename self [] (snd e)) (_output_products self)) →
  (∀ e, e ∈ _output_products self →
        Path.suffix (_generate_output_filename self [] (snd e)) = ".nc"
        ∧ Path.is_absolute (_generate_output_filename self [] (snd e)) = true
        ∧ exists_ (_generate_output_filename self [] (snd e)) w = false
        ∧ Path.parent (_generate_output_filename self [] (snd e)) ∈ dirs w
        ∧ (_generate_output_filename self [] (snd e) +:+ ".tmp" ∉ dirs w)
        ∧ ∃ datasets variable_params,
            _find_source_datasets self (snd e)
              ("file://" +:+ (_generate_output_filename self [] (snd e) +:+ ".tmp"))
            = Ok datasets
            ∧ _create_netcdf_var_params self (snd e) = Ok variable_params
            ∧ netcdf_refuses (measurements (snd e)) variable_params = None) →
  ∃ w1,
    open_output_files self w = (w1, Ok tt)
    ∧ ∀ w2 a,
        body self w1 = (w2, Ok a) →
        dirs w2 = dirs w1 → handles w2 = handles w1 →
        (∀ i, i ∈ open_fhs w1 → i ∈ open_fhs w2) →
        (∀ e, e ∈ _output_products self →
              is_Some (files w2 !! (_generate_output_filename self [] (snd e) +:+ ".tmp"))) →
        ∃ w3,
          with_block self body w = (w3, Ok a)
          ∧ (∀ e, e ∈ _output_products self →
               files w3 !! (_generate_output_filename self [] (snd e) +:+ ".tmp") = None
               ∧ files w3 !! _generate_output_filename self [] (snd e)
                 = files w2 !! (_generate_output_filename self [] (snd e) +:+ ".tmp"))
          ∧ (∀ fh, fh ∈ top_leaves (handles w3) → fh_id fh ∉ open_fhs w3).
Proof.
  intros Hcls Hnone Hnames Houts Hall.
  destruct (NetCDFCF_open_loop_run self (_output_products self) Hcls w Hnames Houts)
    as (w1 & opened & Hfor & Hd1 & Hown1 & Hn1 & Hin1 & Hother1).
  { intros e _. rewrite Hnone. apply not_elem_of_nil. }
  { unfold own_handles. rewrite Hnone. cbn [top_leaves map]. split; [apply NoDup_nil_2|].
    by intros fh ?%elem_of_nil. }
  { rewrite Hnone. by intros fh ?%elem_of_nil. }
  { done. }
  rewrite Hnone in Hn1. cbn [top_leaves map app] in Hn1.
  exists w1. split.
  { unfold open_output_files. rewrite Hcls. unfold NetCDFCF_open_output_files.
    by rewrite (bind_Ok _ _ _ _ _ Hfor). }
  intros w2 a Hbody Hd2 Hh2 Hopen2 Hthere.
  set (finals := map (fun e => _generate_output_filename self [] (snd e))
                     (_output_products self)).
  assert (Hpaths : map fh_name (top_leaves (handles w2))
                   = map (fun q => q +:+ ".tmp") finals).
  { rewrite Hh2, Hn1. unfold finals. by rewrite map_map. }
  destruct (log_call_fields (CloseFiles true) w2)
    as (w2' & Hlog & Hf2' & Hd2' & Hh2' & Ho2' & Hcc2' & Hc2').
  assert (Hown2 : own_handles self w2').
  { destruct Hown1 as [Hnodup Hkinds]. unfold own_handles. rewrite Hh2', Hh2, Ho2'.
    split; [done|]. intros fh Hfh. destruct (Hkinds fh Hfh) as [Hkind Hopen].
    split; [done|]. intros Hds. by apply Hopen2, Hopen. }
  destruct (OutputDriver_close_files_rename self w2' finals)
    as (w3 & Hclose & Hd3 & Hc3 & Hh3 & Hcc3 & Ho3 & Hin3 & Hout3).
  { done. }
  { by rewrite Hh2'. }
  { done. }
  { intros q (e & -> & He)%list_elem_of_fmap.
    destruct (Hall e He) as (Hsuf & Habs & Hnew & Hparent & Htmp & _).
    apply exists_false in Hnew as [Hfile Hdir].
    rewrite Hf2', Hd2', Hd2, Hd1. split; [by apply Hthere|]. split; [done|]. split.
    - apply PathFacts.valid_extension_file_name. rewrite Hsuf. left.
    - intros q'. apply PathFacts.valid_extension_not_tmp. rewrite Hsuf. left. }
  exists w3. split; [|split].
  - unfold with_block, __enter__, __exit__.
    assert (Hopen : open_output_files self w = (w1, Ok tt)).
    { unfold open_output_files. rewrite Hcls. unfold NetCDFCF_open_output_files.
      by rewrite (bind_Ok _ _ _ _ _ Hfor). }
    rewrite (bind_Ok _ _ _ _ _ Hopen). unfold ret at 1. rewrite Hbody.
    assert (Hexit : close_files self true w2 = (w3, Ok (Some finals))).
    { unfold close_files. rewrite (bind_Ok _ _ _ _ _ Hlog), Hcls.
      by rewrite (bind_Ok _ _ _ _ _ Hclose). }
    by rewrite (bind_Ok _ _ _ _ _ Hexit).
  - intros e He.
    assert (Hq : _generate_output_filename self [] (snd e) ∈ finals).
    { apply list_elem_of_fmap. by exists e. }
    destruct (Hin3 _ Hq) as [Hmoved Hgone]. split; [done|]. by rewrite Hmoved, Hf2'.
  - intros fh Hfh Hopen. apply Ho3 in Hopen as [_ Hnot]. apply Hnot.
    rewrite Hh3 in Hfh. apply list_elem_of_fmap. by exists fh.
Qed.

End WithExternals.

End RoundTrip.

(** ** The directory of the output *)

Module PrepareFacts.
Import Py Registry Drivers DriversWalk FrameFacts DriversFacts.
Local Open Scope py_scope.

Lemma prefixes_at_slash_length q :
  ∀ done d, d ∈ Path.prefixes_at_slash done q →
    (String.length d ≤ String.length done + String.length q)%nat.
Proof.
  induction q as [|c q IH]; intros done d; cbn [Path.prefixes_at_slash].
  - by intros ?%elem_of_nil.
  - intros [Hd|Hd]%elem_of_app.
    + destruct (_ && _); [|by apply elem_of_nil in Hd].
      apply list_elem_of_singleton in Hd as ->. lia.
    + apply IH in Hd. rewrite PathFacts.length_append in Hd. cbn [String.length] in *. lia.
Qed.

Lemma parent_length p :
  (String.length (Path.parent p) ≤ Nat.max 1 (String.length p))%nat.
Proof.
  unfold Path.parent. destruct (PyStr.rsplit Path.slash p) as [[d n]|] eqn:E; [|cbn; lia].
  apply PathFacts.rsplit_Some in E. subst p. rewrite PathFacts.length_append.
  cbn [String.length]. destruct (PyStr.is_empty d); cbn [String.length]; lia.
Qed.

(** The temporary path is longer than every directory above the output. *)
Lemma ancestors_shorter p d :
  p ≠ "" → d ∈ Path.ancestors_and_self (Path.parent p) → d ≠ p +:+ ".tmp".
Proof.
  intros Hp Hd Heq.
  assert (Hlen : (String.length d ≤ String.length (Path.parent p))%nat).
  { unfold Path.ancestors_and_self in Hd. apply elem_of_app in Hd as [Hd|Hd].
    - apply prefixes_at_slash_length in Hd. cbn [String.length] in Hd. lia.
    - by apply list_elem_of_singleton in Hd as ->. }
  pose proof (parent_length p) as Hparent.
  rewrite Heq, PathFacts.length_append in Hlen. cbn [String.length] in Hlen.
  destruct p; [done|]. cbn [String.length] in *. lia.
Qed.

Section WithExternals.
Context `{Externals}.

(** X27.  [_prepare_output_file] does not notice whether the directory
    of the output could be made: with an accepted extension, no output
    there and no directory at the temporary path, it returns the
    temporary path whatever [mkdir] did.  It leaves no file at that path
    and changes no other file; it removes no directory; and when a file
    is where the parent or one of the directories above it would be, the
    [OSError] is passed over and no directory has been made. *)
Theorem X27_prepare_output_file_ignores_mkdir self stat kwargs w :
  Path.suffix (_generate_output_filename self kwargs stat) ∈ valid_extensions (cls self) →
  exists_ (_generate_output_filename self kwargs stat) w = false →
  (_generate_output_filename self kwargs stat +:+ ".tmp") ∉ dirs w →
  ∃ w',
    _prepare_output_file self stat kwargs w
    = (w', Ok (_generate_output_filename self kwargs stat +:+ ".tmp"))
    ∧ files w' = delete (_generate_output_filename self kwargs stat +:+ ".tmp") (files w)
    ∧ (∀ d, d ∈ dirs w → d ∈ dirs w')
    ∧ ((∃ d, d ∈ Path.ancestors_and_self
                   (Path.parent (_generate_output_filename self kwargs stat))
             ∧ is_Some (files w !! d)) →
       dirs w' = dirs w).
Proof.
  set (p := _generate_output_filename self kwargs stat).
  intros Hvalid Hnew Htmp.
  assert (Hp : p ≠ "").
  { intros Heq. rewrite Heq in Hvalid. apply valid_extensions_known in Hvalid.
    revert Hvalid. change (Path.suffix "") with "".
    rewrite !elem_of_cons, elem_of_nil. intros [?|[?|[?|[?|[]]]]]; discriminate. }
  destruct (_prepare_output_file_new self stat kwargs w Hvalid Hnew) as (w1 & Hmk & ->).
  fold p in Hmk. fold p.
  assert (Hw1 : files w1 = files w ∧ (∀ d, d ∈ dirs w → d ∈ dirs w1)
                ∧ (p +:+ ".tmp" ∉ dirs w1)
                ∧ ((∃ d, d ∈ Path.ancestors_and_self (Path.parent p)
                         ∧ is_Some (files w !! d)) → dirs w1 = dirs w)).
  { revert Hmk. unfold except_OSError_pass, mkdir_parents.
    destruct (exists_ (Path.parent p) w).
    { intros [= <-]. by repeat split. }
    destruct (existsb _ _) eqn:Eblocked.
    { intros [= <-]. by repeat split. }
    intros [= <-]. cbn [set_dirs files dirs]. split; [done|]. split; [set_solver|].
    split.
    - rewrite elem_of_union, elem_of_list_to_set. intros [?|Hin]; [done|].
      by apply (ancestors_shorter p _ Hp Hin).
    - intros (d & Hd & Hfile). exfalso.
      assert (Htrue : existsb (fun d => bool_decide (is_Some (files w !! d)))
                        (Path.ancestors_and_self (Path.parent p)) = true).
      { apply existsb_exists. exists d. split; [by apply list_elem_of_In|].
        by apply bool_decide_eq_true_2. }
      congruence. }
  destruct Hw1 as (Hf & Hsub & Htmp1 & Hblocked). rewrite Hf.
  destruct (files w !! (p +:+ ".tmp")) eqn:Estale.
  - eexists. split; [reflexivity|]. cbn [set_files files dirs]. by rewrite Hf.
  - rewrite bool_decide_eq_false_2 by done. exists w1. split; [done|].
    split; [|done]. rewrite Hf. by rewrite delete_id.
Qed.

End WithExternals.

End PrepareFacts.

(** ** Deleting by index from the list of sources *)

Module RemovalFacts.
Import Py Tasks Filtering FilteringFacts.

Lemma del_item_middle {A} (xs : list A) y ys i :
  i = length xs → del_item i (xs ++ y :: ys) = Ok (xs ++ ys).
Proof.
  intros ->. unfold del_item. rewrite length_app. cbn [length].
  replace (length xs <? length xs + S (length ys))%nat with true
    by (symmetry; apply Nat.ltb_lt; lia).
  rewrite take_app_length. rewrite cons_middle, app_assoc.
  rewrite drop_app_length' by (rewrite length_app; cbn; lia). done.
Qed.

Lemma del_item_out {A} (l : list A) i :
  (length l ≤ i)%nat → del_item i l = Raise IndexError.
Proof.
  intros Hi. unfold del_item.
  by replace (i <? length l)%nat with false by (symmetry; apply Nat.ltb_ge; lia).
Qed.

Section WithExternals.
Context `{Externals}.

Lemma unretained_app fmt filtered_times l l' :
  ∀ i, unretained fmt filtered_times i (l ++ l')
       = unretained fmt filtered_times i l
         ++ unretained fmt filtered_times (i + length l) l'.
Proof.
  induction l as [|sr l IH]; intros i; cbn [app unretained length].
  - by rewrite Nat.add_0_r.
  - rewrite IH, <- app_assoc. do 3 f_equal. lia.
Qed.

(** X28.  When exactly two sources of a task have no retained
    timestamp, [set_task] deletes the first of them and then, the list
    having moved up by one, not the second but the source that follows
    the second, which has retained timestamps; the second stays in the
    task as it was.  When nothing follows the second, the deletion is
    out of range and [set_task] raises [IndexError]. *)
Theorem X28_set_task_two_removed self task filtered_times configured fmt l1 a l2 b l3 :
  filter_product self = Some configured →
  date_format (dict_get "method" configured) = Some fmt →
  sources task = l1 ++ a :: l2 ++ b :: l3 →
  retained fmt filtered_times a = false →
  retained fmt filtered_times b = false →
  Forall (fun sr => retained fmt filtered_times sr = true) (l1 ++ l2 ++ l3) →
  set_task self task filtered_times
  = match l3 with
    | [] => Raise IndexError
    | c :: kept =>
        Ok (set_sources task
              (map (narrowed fmt filtered_times) l1
               ++ map (narrowed fmt filtered_times) l2
               ++ b :: map (narrowed fmt filtered_times) kept))
    end.
Proof.
  intros Hfp Hfmt Hsrc Ha Hb Hall.
  apply Forall_app in Hall as [H1 Hall]. apply Forall_app in Hall as [H2 H3].
  rewrite (set_task_run _ _ _ fmt) by (by rewrite Hfp). cbv zeta. rewrite Hsrc.
  rewrite unretained_app. cbn [unretained]. rewrite Ha. cbn [app].
  rewrite unretained_app. cbn [unretained]. rewrite Hb. cbn [app].
  rewrite !unretained_all by done. cbn [app].
  rewrite !map_app. cbn [map]. rewrite Ha. rewrite map_app. cbn [map]. rewrite Hb.
  rewrite !map_retained by done.
  change (0 <? length [(0 + length l1)%nat; (S (0 + length l1) + length l2)%nat])%nat
    with true. cbn iota. cbn [del_loop].
  rewrite del_item_middle by (by rewrite length_map). cbn [rbind].
  destruct l3 as [|c kept]; cbn [map].
  - rewrite del_item_out; [done|]. rewrite !length_app, !length_map. cbn [length]. lia.
  - rewrite (cons_middle b), !app_assoc.
    rewrite del_item_middle.
    2:{ rewrite !length_app, !length_map. cbn [length]. lia. }
    cbn [rbind]. do 2 f_equal. by rewrite <- !app_assoc.
Qed.

End WithExternals.

End RemovalFacts.

(** ** The further properties on the sample configurations *)

Module MoreTasksRuns.
Import Py Tasks Samples MoreSamples.

Lemma X1_witness :
  @Gridded_call out_of_range grid_of_one_tile [spec_with_mask] [(0, 10)%Z] = ([], None)
  ∧ @NonGridded_call out_of_range no_filter [spec_with_mask] [(0, 10)%Z] = ([], None).
Proof.
  apply (@TasksMore.X1_nothing_in_range_nothing_yielded out_of_range).
  intros s time_period _ _. reflexivity.
Defined.

(** Two source specs with data in the same two tiles make two tasks,
    one per tile, each with the sources of both specs. *)
Example collected :
  @collect_tasks tiled whole_grid (0, 10)%Z [spec_with_two_masks; spec_without_masks] None
  = Ok [mkStatsTask (0, 10)%Z [("x", IdNum 1); ("y", IdNum 2)] None
          [mkDataSource one_tile [None; Some one_tile] spec_with_two_masks 0;
           mkDataSource one_tile [] spec_without_masks 1];
        mkStatsTask (0, 10)%Z [("x", IdNum 3); ("y", IdNum 4)] None
          [mkDataSource one_tile [Some pq_tile; Some one_tile] spec_with_two_masks 0;
           mkDataSource one_tile [] spec_without_masks 1]].
Proof. reflexivity. Qed.

Lemma X2_witness :
  ∃ tiles,
    NoDup tiles
    ∧ [[("x", IdNum 1); ("y", IdNum 2)]; [("x", IdNum 3); ("y", IdNum 4)]]
      = map (fun tile : Z * Z => [("x", IdNum (fst tile)); ("y", IdNum (snd tile))]) tiles
    ∧ (∀ tile, tile ∈ tiles
               ↔ @Grouping.returned_for tiled whole_grid (0, 10)%Z None
                   [spec_with_two_masks; spec_without_masks] tile)
    ∧ ∀ t, t ∈ [mkStatsTask (0, 10)%Z [("x", IdNum 1); ("y", IdNum 2)] None
                  [mkDataSource one_tile [None; Some one_tile] spec_with_two_masks 0;
                   mkDataSource one_tile [] spec_without_masks 1];
                mkStatsTask (0, 10)%Z [("x", IdNum 3); ("y", IdNum 4)] None
                  [mkDataSource one_tile [Some pq_tile; Some one_tile] spec_with_two_masks 0;
                   mkDataSource one_tile [] spec_without_masks 1]] →
           task_feature t = None.
Proof.
  exact (@TasksMore.X2_one_task_per_tile tiled whole_grid (0, 10)%Z
           [spec_with_two_masks; spec_without_masks] None _ collected).
Defined.

Lemma X3_witness :
  ∃ time_period d rest,
    time_period ∈ [(0, 10)%Z]
    ∧ [mkDataSource one_tile [Some one_tile] spec_with_mask 0] = d :: rest
    ∧ @filter_time_by_source plain (time (ds_spec d)) time_period = Some (0, 10)%Z.
Proof.
  apply (@TasksMore.X3_gridded_time_period plain grid_of_one_tile [spec_with_mask]
           [(0, 10)%Z]
           (mkStatsTask (0, 10)%Z [("x", IdNum 0); ("y", IdNum 0)] None
              [mkDataSource one_tile [Some one_tile] spec_with_mask 0])).
  rewrite TasksRuns.gridded_run. cbn [fst]. apply list_elem_of_here.
Defined.

Lemma X4_witness :
  [spec_with_mask] !! 0%nat = Some spec_with_mask.
Proof.
  apply (@TasksMore.X4_source_index plain [spec_with_mask] [(0, 10)%Z]
           (mkStatsTask (0, 10)%Z [("x", IdNum 0); ("y", IdNum 0)] None
              [mkDataSource one_tile [Some one_tile] spec_with_mask 0])
           (mkDataSource one_tile [Some one_tile] spec_with_mask 0)).
  - left. exists grid_of_one_tile. rewrite TasksRuns.gridded_run. cbn [fst].
    apply list_elem_of_here.
  - cbn [sources]. apply list_elem_of_here.
Defined.

Lemma X5_witness :
  (0, 10)%Z ∈ [(0, 10)%Z]
  ∧ None ∈ default [None] (features by_tide_height)
  ∧ ∃ x y, [("x", IdStr "a"); ("y", IdStr "b")] = [("x", x); ("y", y)].
Proof.
  apply (@TasksMore.X5_nongridded_identity plain by_tide_height [spec_without_masks]
           [(0, 10)%Z]
           (mkStatsTask (0, 10)%Z [("x", IdStr "a"); ("y", IdStr "b")] None [])).
  rewrite TasksRuns.nongridded_filtered_run. cbn [fst]. apply list_elem_of_here.
Defined.

Lemma X6_witness :
  @set_task tide by_tide_height one_to_remove ["1970-01-01T00:00:03"]
  = Ok (set_sources one_to_remove [source_at 3 1]).
Proof.
  rewrite (@FilteringFacts.X6_set_task_at_most_one_removed tide by_tide_height one_to_remove
             ["1970-01-01T00:00:03"] [("method", "by_tide_height")] (@strftime_second tide)).
  - reflexivity.
  - reflexivity.
  - reflexivity.
  - vm_compute. lia.
Defined.

Lemma X7_witness :
  @set_task tide by_tide_height two_sources ["1970-01-01T00:00:03"] = Raise IndexError.
Proof.
  rewrite (@FilteringFacts.X7_set_task_nothing_retained tide by_tide_height two_sources
             ["1970-01-01T00:00:03"] [("method", "by_tide_height")] (@strftime_second tide)).
  - reflexivity.
  - reflexivity.
  - reflexivity.
  - repeat constructor.
Defined.

Lemma X8_witness :
  @set_task tide by_season three_sources [] = Raise (UnboundLocalError "all_dates").
Proof.
  apply (@FilteringFacts.X8_set_task_unbound_all_dates tide by_season three_sources []
           [("method", "by_season")]).
  - reflexivity.
  - reflexivity.
  - discriminate.
Defined.

Example full_grid_spec :
  @_make_grid_spec plain full_storage
  = Ok (mkGridSpec (VStr "EPSG:3577") [VNum 100000; VNum 100000] [VNum (-25); VNum 25]).
Proof. reflexivity. Qed.

Lemma X9_witness :
  ∃ dims,
    dict_get "crs" full_storage = Some (VStr "EPSG:3577")
    ∧ @crs_dimensions plain (VStr "EPSG:3577") = Ok dims
    ∧ Forall2 (fun dim size =>
                 ∃ sizes, dict_get "tile_size" full_storage = Some sizes
                          ∧ item sizes dim = Ok size)
              dims [VNum 100000; VNum 100000]
    ∧ Forall2 (fun dim res =>
                 ∃ ress, dict_get "resolution" full_storage = Some ress
                         ∧ item ress dim = Ok res)
              dims [VNum (-25); VNum 25].
Proof.
  exact (@TasksMore.X9_grid_spec_per_dimension plain full_storage _ full_grid_spec).
Defined.

Lemma X10_witness :
  is_Some (dict_get "tile_size" full_storage)
  ∧ @Select.select_task_generator plain no_files None full_storage
      (Some [("method", "by_tide_height")])
    = Ok (Select.GriddedTaskGenerator
            (mkGridded (mkGridSpec (VStr "EPSG:3577") [VNum 100000; VNum 100000]
                                   [VNum (-25); VNum 25]) None None)).
Proof.
  destruct (@SelectFacts.X10_select_gridded plain no_files None full_storage None
              (mkGridded (mkGridSpec (VStr "EPSG:3577") [VNum 100000; VNum 100000]
                                     [VNum (-25); VNum 25]) None None) eq_refl)
    as (_ & Hsize & Hany).
  split; [exact Hsize|apply Hany].
Defined.

Lemma X11_witness :
  ∃ region, Some lat_lon = Some region ∧ Select.tiles region = None.
Proof.
  destruct (@SelectFacts.X11_select_not_gridded plain no_files (Some lat_lon)
              storage_without_tile_size None (Some lat_lon) storage_without_tile_size
              (mkNonGridded None None) eq_refl)
    as (_ & _ & _ & region & Hregion & _ & _ & _ & Htiles & _).
  by exists region.
Defined.

Lemma X25_witness :
  ∃ params,
    dict_get "mean"
      [("mean", Params.variable_param [VNum 1; VNum 200; VNum 200]
                  [("zlib", VNum 0); ("chunksizes", VNum 9)] compressed_mean)]
    = Some params
    ∧ dict_get "zlib" params = Some (Params.Copied (VNum 1))
    ∧ dict_get "chunksizes" params
      = Some (Params.Chunksizes [VNum 1; VNum 200; VNum 200])
    ∧ dict_get "dtype" params = None.
Proof.
  destruct (ParamsFacts.X25_var_params_lookup chunked [compressed_mean]
              [("zlib", VNum 0); ("chunksizes", VNum 9)]
              [("mean", Params.variable_param [VNum 1; VNum 200; VNum 200]
                          [("zlib", VNum 0); ("chunksizes", VNum 9)] compressed_mean)]
              compressed_mean)
    as (name & sizes & order & chunks & params & Hname & Horder & Hsizes & Hchunks
        & Hparams & Hlookup).
  - reflexivity.
  - apply NoDup_singleton.
  - apply list_elem_of_here.
  - apply (bool_decide_unpack _). vm_compute. exact I.
  - injection Hname as <-. exists params. split; [exact Hparams|].
    injection Hparams as <-. repeat split; vm_compute; reflexivity.
Defined.

Lemma X26_witness :
  Params._create_netcdf_var_params chunked_in_space [] [] = Raise (KeyError "time").
Proof.
  apply (ParamsFacts.X26_var_params_missing_chunk chunked_in_space [] []
           [("x", VNum 200); ("y", VNum 200)] ["time"; "y"; "x"] [] "time" ["y"; "x"]).
  - reflexivity.
  - reflexivity.
  - reflexivity.
  - intros d Hd. by apply elem_of_nil in Hd.
  - reflexivity.
Defined.

(** Of four sources the first and the third have no retained timestamp:
    the first and the fourth are deleted, and the third stays. *)
Lemma X28_witness :
  @set_task tide by_tide_height four_sources ["1970-01-01T00:00:03"]
  = Ok (set_sources four_sources [source_at 3 1; source_at 2 2]).
Proof.
  apply (@RemovalFacts.X28_set_task_two_removed tide by_tide_height four_sources
           ["1970-01-01T00:00:03"] [("method", "by_tide_height")] (@strftime_second tide)
           [] (source_at 1 0) [source_at 3 1] (source_at 2 2) [source_at 3 3]).
  - reflexivity.
  - reflexivity.
  - reflexivity.
  - reflexivity.
  - reflexivity.
  - repeat constructor.
Defined.

End MoreTasksRuns.

Module MoreDriversRuns.
Import Py Registry Drivers Samples MoreSamples.

Lemma X12_witness :
  @_get_dtype tif_driver "stats" None empty_world = (empty_world, Ok "float32").
Proof.
  apply (proj1 (@GeotiffFacts.X12_get_dtype_one_dtype tif_driver "stats" two_bands
                  empty_world eq_refl)).
  - discriminate.
  - intros m Hm. repeat (apply elem_of_cons in Hm as [->|Hm]; [reflexivity|]).
    by apply elem_of_nil in Hm.
Defined.

Lemma X13_witness :
  @_get_nodata tif_driver "stats" None empty_world = (empty_world, Ok (-999)%Z).
Proof.
  apply (proj1 (@GeotiffFacts.X13_get_nodata_shared tif_driver "stats" two_bands
                  "float32" (-999)%Z empty_world eq_refl ltac:(discriminate)
                  ltac:(intros m Hm;
                        repeat (apply elem_of_cons in Hm as [->|Hm]; [by split|]);
                        by apply elem_of_nil in Hm))).
Defined.


Lemma X15_witness :
  PyStr.drop_last 4 "/out/stats.nc.tmp" = @_generate_output_filename literal nc_driver [] nc_product.
Proof.
  refine (proj1 (@OutputFacts.X15_prepare_output_file_round_trip literal nc_driver nc_product
                   [] empty_world
                   (fst (@_prepare_output_file literal nc_driver nc_product [] empty_world))
                   "/out/stats.nc.tmp" _)).
  vm_compute. reflexivity.
Defined.

Lemma X16_witness :
  ∃ w1, @NetCDFCF_open_product literal relative_driver
          ("stats", product_at "out/stats.nc" [("mean", float_measure)]) empty_world
        = (w1, Raise ValueError)
    ∧ handles w1 = [].
Proof.
  exists (fst (@_prepare_output_file literal relative_driver
                 (product_at "out/stats.nc" [("mean", float_measure)]) [] empty_world)).
  destruct (@OutputFacts.X16_relative_output_path literal relative_driver "stats"
              (product_at "out/stats.nc" [("mean", float_measure)]) empty_world
              (fst (@_prepare_output_file literal relative_driver
                      (product_at "out/stats.nc" [("mean", float_measure)]) []
                      empty_world))
              "out/stats.nc.tmp")
    as (Hrun & _ & Hh).
  - reflexivity.
  - vm_compute. reflexivity.
  - split; [exact Hrun|exact Hh].
Defined.

Lemma X17_witness :
  ∃ w1 w2,
    @close_files literal nc_driver true nc_opened = (w1, Ok (Some ["/out/stats.nc"]))
    ∧ @close_files literal nc_driver true w1 = (w2, Raise RuntimeError)
    ∧ close_calls w2 = [0%nat].
Proof.
  destruct (@OutputFacts.X17_close_files_twice literal nc_driver nc_opened "/out/stats.nc" [])
    as (w1 & w2 & e & Hfirst & Hsecond & _ & Hdataset & _).
  - exact DriversRuns.nc_opened_own.
  - discriminate.
  - vm_compute. reflexivity.
  - apply NoDup_singleton.
  - intros q ->%list_elem_of_singleton. split; [|split].
    + vm_compute. left.
    + vm_compute. eauto.
    + apply (bool_decide_unpack _). vm_compute. exact I.
  - destruct (Hdataset eq_refl) as [-> Hcalls]. exists w1, w2.
    split; [exact Hfirst|]. split; [exact Hsecond|]. exact Hcalls.
Defined.

(** The output of the second product is there: the file of the first
    has been opened when [open_output_files] raises. *)
Lemma X18_witness :
  ∃ w1,
    @with_block literal unit two_products_driver write_mean nc_finished
    = (w1, Raise (OutputFileAlreadyExists "/out/stats.nc"))
    ∧ calls w1 = [] ∧ close_calls w1 = []
    ∧ map fh_name (top_leaves (handles w1)) = ["/out/first.nc.tmp"]
    ∧ ∀ fh, fh ∈ top_leaves (handles w1) → fh_id fh ∈ open_fhs w1.
Proof.
  exists (fst (@open_output_files literal two_products_driver nc_finished)).
  destruct (@OpeningFacts.X18_failed_enter_skips_close_files literal unit two_products_driver
              write_mean nc_finished
              (fst (@open_output_files literal two_products_driver nc_finished))
              (OutputFileAlreadyExists "/out/stats.nc"))
    as (Hblock & Hcalls & Hclosed & _ & Hopen).
  - vm_compute. reflexivity.
  - split; [exact Hblock|]. split; [exact Hcalls|]. split; [exact Hclosed|].
    split; [vm_compute; reflexivity|]. apply Hopen.
    intros fh Hfh. by apply elem_of_nil in Hfh.
Defined.

Lemma X19_witness :
  close_calls (fst (@close_files failing_gdal envi_driver true envi_opened)) = [0%nat].
Proof.
  apply (proj2 (@OpeningFacts.X19_close_files_closes_first failing_gdal envi_driver true
                  envi_opened
                  (fst (@close_files failing_gdal envi_driver true envi_opened))
                  (snd (@close_files failing_gdal envi_driver true envi_opened))
                  (surjective_pairing _))).
  split.
  - apply NoDup_singleton.
  - intros fh ->%list_elem_of_singleton. by split.
Defined.

Lemma X20_witness :
  ∃ dest_fh sub,
    dict_get "stats"
      (handles (fst (@_open_single_band_geotiff literal tif_driver "stats" two_bands "mean"
                       empty_world)))
    = Some (Dict sub)
    ∧ dict_get "mean" sub = Some (Leaf dest_fh)
    ∧ ∀ completed_successfully w2 r,
        @close_files literal tif_driver completed_successfully
          (fst (@_open_single_band_geotiff literal tif_driver "stats" two_bands "mean"
                  empty_world))
        = (w2, r) →
        fh_id dest_fh ∈ open_fhs w2.
Proof.
  destruct (@OpeningFacts.X20_single_band_file_is_never_closed literal tif_driver "stats"
              two_bands "mean" empty_world
              (fst (@_open_single_band_geotiff literal tif_driver "stats" two_bands "mean"
                      empty_world)))
    as (dest_fh & sub & Hprod & Hsub & _ & Hclose).
  - vm_compute. reflexivity.
  - intros fh Hfh. by apply elem_of_nil in Hfh.
  - exists dest_fh, sub. split; [exact Hprod|]. split; [exact Hsub|].
    intros flag w2 r Hrun. by destruct (Hclose flag w2 r Hrun).
Defined.

Lemma X21_witness :
  handles (fst (write_mean nc_driver nc_opened)) = handles nc_opened.
Proof.
  destruct (@WritingFacts.X21_write_data_keeps_the_files nc_driver "stats" "mean" whole_tile
              [1%Z] nc_opened (fst (write_mean nc_driver nc_opened))
              (snd (write_mean nc_driver nc_opened)) (surjective_pairing _))
    as (_ & _ & _ & Hh & _).
  exact Hh.
Defined.


Lemma X23_witness :
  ∃ w3,
    @with_block literal unit nc_driver write_mean out_dir = (w3, Ok tt)
    ∧ files w3 !! "/out/stats.nc.tmp" = None
    ∧ is_Some (files w3 !! "/out/stats.nc").
Proof.
  destruct (@RoundTrip.X23_netcdf_round_trip literal unit nc_driver write_mean out_dir)
    as (w1 & Hopen & Hrest).
  - reflexivity.
  - reflexivity.
  - apply NoDup_singleton.
  - apply NoDup_singleton.
  - intros e ->%list_elem_of_singleton.
    split; [vm_compute; reflexivity|]. split; [reflexivity|].
    split; [vm_compute; reflexivity|].
    split; [apply (bool_decide_unpack _); vm_compute; exact I|].
    split; [apply (bool_decide_unpack _); vm_compute; exact I|].
    exists [7; 8]%Z, []. split; [reflexivity|]. split; [vm_compute; reflexivity|reflexivity].
  - assert (Hw1 : w1 = fst (@open_output_files literal nc_driver out_dir)).
    { by rewrite Hopen. }
    assert (Hthere : ∀ e, e ∈ _output_products nc_driver →
              is_Some (files (fst (write_mean nc_driver w1))
                       !! (@_generate_output_filename literal nc_driver [] (snd e)
                           +:+ ".tmp"))).
    { intros e ->%list_elem_of_singleton. subst w1. vm_compute. eauto. }
    destruct (Hrest (fst (write_mean nc_driver w1)) tt) as (w3 & Hblock & Hfiles & _).
    + subst w1. vm_compute. reflexivity.
    + subst w1. vm_compute. reflexivity.
    + subst w1. vm_compute. reflexivity.
    + intros i Hi.
      destruct (WritingFacts.write_data_keeps Frames.appends_only nc_driver "stats" "mean"
                  whole_tile [1%Z] WritingFacts.appends_only_refl
                  WritingFacts.appends_only_trans WritingFacts.keeps_appends_write_item
                  w1 (fst (write_mean nc_driver w1)) (snd (write_mean nc_driver w1))
                  (surjective_pairing _)) as [(_ & Hsame & _) _].
      by rewrite Hsame.
    + exact Hthere.
    + exists w3. split; [exact Hblock|].
      destruct (Hfiles ("stats", nc_product) (list_elem_of_here _ _)) as [Hgone Hfinal].
      split; [exact Hgone|].
      change (is_Some (files w3 !! @_generate_output_filename literal nc_driver []
                                     (snd ("stats", nc_product)))).
      rewrite Hfinal. apply (Hthere ("stats", nc_product)). left.
Defined.

(** With a file at [/out] the directory cannot be made, and the
    temporary path below it is returned all the same. *)
Lemma X27_witness :
  ∃ w', @_prepare_output_file literal nc_driver nc_product [] parent_is_a_file
        = (w', Ok "/out/stats.nc.tmp")
    ∧ dirs w' = ∅.
Proof.
  destruct (@PrepareFacts.X27_prepare_output_file_ignores_mkdir literal nc_driver nc_product
              [] parent_is_a_file)
    as (w' & Hrun & _ & _ & Hdirs).
  - vm_compute. left.
  - vm_compute. reflexivity.
  - apply (bool_decide_unpack _). vm_compute. exact I.
  - exists w'. split; [exact Hrun|]. apply Hdirs. exists "/out". split.
    + apply (bool_decide_unpack _). vm_compute. exact I.
    + vm_compute. eauto.
Defined.

End MoreDriversRuns.
